(** * Mava parameter client and executor observation component

    A shallow embedding of [mava/systems/parameter_client.py]
    ([ParameterClient]) and of
    [mava/systems/idqn/components/executing/observing.py]
    ([FeedforwardExecutorObserve]), with the properties of the parameter
    exchange protocol stated and proved over it.

    Conventions of the embedding:
    - a Python [dict] is an insertion-ordered association list with string
      keys ([dict V]); iteration follows list order, as in Python;
    - Python objects that the code updates in place live on a [heap]; the
      client's [_parameters] dictionary binds names to heap locations, so
      that object identity is the location;
    - a method is a computation in the monad [M]: it threads the state and
      ends in [Ok], in [Raise] (a Python exception, the state keeping every
      update made before it) or in [Unmodelled];
    - the parameter server and the transport are the environment: their
      replies are inputs, the requests sent to them are logged.  *)

From Stdlib Require Import ZArith Lia SpecFloat.
From stdpp Require Import base list strings gmap.

Set Warnings "-register-all".

(** ** Python dictionaries *)

Abbreviation dict V := (list (string * V)).

Fixpoint dict_get {V} (k : string) (d : dict V) : option V :=
  match d with
  | [] => None
  | (k', v) :: d' => if String.eqb k k' then Some v else dict_get k d'
  end.

(** [d[k] = v]: overwrite in place, or append a new key at the end. *)
Fixpoint dict_set {V} (k : string) (v : V) (d : dict V) : dict V :=
  match d with
  | [] => [(k, v)]
  | (k', v') :: d' =>
      if String.eqb k k' then (k', v) :: d' else (k', v') :: dict_set k v d'
  end.

Definition dict_keys {V} (d : dict V) : list string := d.*1.

(** Truth value of a dictionary: [bool(d)] is [len(d) != 0]. *)
Definition truthy {V} (d : dict V) : bool :=
  match d with [] => false | _ => true end.

(** ** numpy arrays

    An [ndarray] is its dtype, its shape and its elements in row-major
    order.  The buffer is typed, as in numpy: the dtypes of the embedding
    are the signed integers of 8 to 64 bits, whose arithmetic wraps around
    (two's complement), and the IEEE 754 formats binary16, binary32 and
    binary64, whose elements are Stdlib's [spec_float] with signed zeros,
    infinities and NaN.  Unsigned, boolean and complex arrays are outside
    the embedding. *)

Inductive numpy_dtype :=
| Int8 | Int16 | Int32 | Int64
| Float16 | Float32 | Float64.

Global Instance numpy_dtype_eq_dec : EqDecision numpy_dtype.
Proof. solve_decision. Defined.

Inductive scalar := SInt (z : Z) | SFloat (f : spec_float).

(** The width of an integer dtype, and the precision and the exponent
    bound of a floating-point dtype. *)
Definition int_bits (t : numpy_dtype) : option Z :=
  match t with
  | Int8 => Some 8 | Int16 => Some 16 | Int32 => Some 32 | Int64 => Some 64
  | Float16 | Float32 | Float64 => None
  end%Z.

Definition float_format (t : numpy_dtype) : option (Z * Z) :=
  match t with
  | Float16 => Some (11, 16)
  | Float32 => Some (24, 128)
  | Float64 => Some (53, 1024)
  | Int8 | Int16 | Int32 | Int64 => None
  end%Z.

(** The value of an integer in two's complement on [bits] bits. *)
Definition wrap (bits z : Z) : Z :=
  ((z + 2 ^ (bits - 1)) mod 2 ^ bits - 2 ^ (bits - 1))%Z.

(** An element that a buffer of dtype [t] can hold. *)
Definition valid_scalar (t : numpy_dtype) (x : scalar) : bool :=
  match x with
  | SInt z =>
      match int_bits t with
      | Some w => bool_decide (- 2 ^ (w - 1) ≤ z < 2 ^ (w - 1))%Z
      | None => false
      end
  | SFloat f =>
      match float_format t with
      | Some (prec, emax) => valid_binary prec emax f
      | None => false
      end
  end.

Record ndarray := NdArray {
  dtype : numpy_dtype;
  shape : list nat;
  data : list scalar }.

Definition size_of (s : list nat) : nat := foldr Nat.mul 1 s.

Definition wf_ndarray (a : ndarray) : Prop :=
  length (data a) = size_of (shape a) ∧
  Forall (λ x, valid_scalar (dtype a) x = true) (data a).

(** An array of 64-bit integers. *)
Definition int64s (s : list nat) (zs : list Z) : ndarray :=
  NdArray Int64 s (SInt <$> zs).

(** One element of [a *= 0]: the Python integer 0 takes the dtype of the
    array, so an integer stays an integer and a floating-point element is
    multiplied by [+0.0] ([inf * 0] and [nan * 0] are NaN, and the zero
    has the sign of the element).  [None]: the element is not of the
    dtype. *)
Definition mul_zero (t : numpy_dtype) (x : scalar) : option scalar :=
  match x with
  | SInt z =>
      match int_bits t with
      | Some w => Some (SInt (wrap w (z * 0)))
      | None => None
      end
  | SFloat f =>
      match float_format t with
      | Some (prec, emax) => Some (SFloat (SFmul prec emax f (S754_zero false)))
      | None => None
      end
  end.

(** [a *= 0], in place: dtype and shape are those of [a]. *)
Definition imul0 (a : ndarray) : option ndarray :=
  d ← mapM (mul_zero (dtype a)) (data a);
  Some (NdArray (dtype a) (shape a) d).

(** [a[i]]: the i-th slice along the leading axis, of the dtype of [a]
    (a numpy scalar is a zero-dimensional array); [None] is IndexError. *)
Definition getitem (a : ndarray) (i : nat) : option ndarray :=
  match shape a with
  | [] => None
  | n :: s =>
      if decide (i < n)
      then Some (NdArray (dtype a) s
                   (take (size_of s) (drop (i * size_of s) (data a))))
      else None
  end.

Fixpoint chunks {A} (sz n : nat) (d : list A) : list (list A) :=
  match n with
  | 0 => []
  | S n' => take sz d :: chunks sz n' (drop sz d)
  end.

(** numpy broadcasting of an operand of shape [bs] to the shape [ts] of the
    array updated in place: shapes are aligned on the right, a dimension of
    the operand must be equal to the target's or be 1, and the operand may
    not have more dimensions than the target. *)
Fixpoint compatible (ts bs : list nat) : bool :=
  match bs, ts with
  | [], _ => true
  | _ :: _, [] => false
  | m :: bs', n :: ts' =>
      (bool_decide (m = n) || bool_decide (m = 1)) && compatible ts' bs'
  end.

(** Shapes are compared from the last axis. *)
Definition broadcastable (ts bs : list nat) : bool :=
  compatible (reverse ts) (reverse bs).

(** The elements of a broadcastable operand, repeated to the shape [ts]. *)
Fixpoint expand {A} (ts bs : list nat) (d : list A) : list A :=
  match ts with
  | [] => d
  | n :: ts' =>
      if decide (length bs < length ts) then
        mjoin (replicate n (expand ts' bs d))
      else
        match bs with
        | [] => d
        | m :: bs' =>
            if decide (m = n) then
              mjoin (expand ts' bs' <$> chunks (size_of bs') n d)
            else mjoin (replicate n (expand ts' bs' d))
        end
  end.

(** [None] is ValueError (operands could not be broadcast together). *)
Definition broadcast {A} (ts bs : list nat) (d : list A) : option (list A) :=
  if broadcastable ts bs then Some (expand ts bs d) else None.

(** The result of an in-place arithmetic operation of numpy. *)
Inductive arith (A : Type) :=
| Computed (a : A)
| CastRefused    (** UFuncTypeError: the result cannot be cast to the dtype
                     of the array under the rule [same_kind] *)
| ShapesDiffer   (** ValueError: the operand does not broadcast *)
| NotModelled.   (** a pair of dtypes outside the embedding *)
Arguments Computed {A} a.
Arguments CastRefused {A}.
Arguments ShapesDiffer {A}.
Arguments NotModelled {A}.

(** The cast of the result of [a += b] to the dtype of [a] is refused
    when [b] is floating-point and [a] is an integer array. *)
Definition cast_refused (ta tb : numpy_dtype) : bool :=
  match int_bits ta, float_format tb with
  | Some _, Some _ => true
  | _, _ => false
  end.

(** One element of [a += b].  Integers: the sum wraps to the width of [a],
    whatever the width of [b].  Floating point, [a] and [b] of one
    format: the IEEE sum.  The other pairs (an integer added to a
    floating-point array, two floating-point formats) round through the
    promoted dtype and are outside the embedding. *)
Definition add_scalar (ta tb : numpy_dtype) (x y : scalar) : option scalar :=
  match x, y with
  | SInt x, SInt y =>
      match int_bits ta, int_bits tb with
      | Some w, Some _ => Some (SInt (wrap w (x + y)))
      | _, _ => None
      end
  | SFloat x, SFloat y =>
      match float_format ta with
      | Some (prec, emax) =>
          if decide (ta = tb) then Some (SFloat (SFadd prec emax x y)) else None
      | None => None
      end
  | _, _ => None
  end.

(** [a += b], in place: the result keeps the dtype and the shape of [a].
    numpy resolves the dtypes, and checks the cast, before it broadcasts. *)
Definition iadd (a b : ndarray) : arith ndarray :=
  if cast_refused (dtype a) (dtype b) then CastRefused
  else
    match broadcast (shape a) (shape b) (data b) with
    | None => ShapesDiffer
    | Some d =>
        match mapM (λ xy, add_scalar (dtype a) (dtype b) xy.1 xy.2)
                (zip (data a) d) with
        | Some r => Computed (NdArray (dtype a) (shape a) r)
        | None => NotModelled
        end
    end.

(** ** Python values *)

Inductive value :=
| VDict (d : dict value)
| VArray (a : ndarray)
| VTuple (t : list value)
| VList (l : list value)
| VInt (z : Z)
| VStr (s : string)
| VNone.

(** [type(v)] as an f-string prints it. *)
Definition type_repr (v : value) : string :=
  match v with
  | VDict _ => "<class 'dict'>"
  | VArray _ => "<class 'numpy.ndarray'>"
  | VTuple _ => "<class 'tuple'>"
  | VList _ => "<class 'list'>"
  | VInt _ => "<class 'int'>"
  | VStr _ => "<class 'str'>"
  | VNone => "<class 'NoneType'>"
  end.

(** ** Exceptions and the state-and-exception monad *)

(** The Python exceptions that the code can raise ([UFuncTypeError] is
    numpy's, a subclass of TypeError). *)
Inductive exn :=
| KeyError (k : string)
| IndexError
| TypeError
| AttributeError
| ValueError
| UFuncTypeError
| NotImplementedError (msg : string).

(** How a computation ends: normally, with a Python exception, or in a
    step that the embedding does not cover ([Unmodelled]: a dangling
    location or handle, item assignment by index into a local dict or
    numpy array, a failure of the external [device_put], numpy arithmetic
    on a pair of dtypes outside the embedding). *)
Inductive outcome (A : Type) :=
| Ok (a : A)
| Raise (e : exn)
| Unmodelled.
Arguments Ok {A} a.
Arguments Raise {A} e.
Arguments Unmodelled {A}.

Definition M (S A : Type) : Type := S → outcome A * S.

Definition ret {S A} (a : A) : M S A := λ s, (Ok a, s).

Definition bind {S A B} (m : M S A) (k : A → M S B) : M S B :=
  λ s, match m s with
       | (Ok a, s') => k a s'
       | (Raise e, s') => (Raise e, s')
       | (Unmodelled, s') => (Unmodelled, s')
       end.

Definition raise {S A} (e : exn) : M S A := λ s, (Raise e, s).
Definition unmodelled {S A} : M S A := λ s, (Unmodelled, s).
Definition gets {S A} (f : S → A) : M S A := λ s, (Ok (f s), s).
Definition modify {S} (f : S → S) : M S unit := λ s, (Ok tt, f s).

Definition or_raise {S A} (e : exn) (o : option A) : M S A :=
  match o with Some a => ret a | None => raise e end.

Global Instance M_ret {S} : MRet (M S) := λ A, ret.
Global Instance M_bind {S} : MBind (M S) := λ A B k m, bind m k.

Definition when {S} (b : bool) (m : M S unit) : M S unit :=
  if b then m else ret tt.

(** [for x in l: body(x)] *)
Fixpoint for_ {S A} (l : list A) (body : A → M S unit) : M S unit :=
  match l with
  | [] => ret tt
  | x :: l' => body x;; for_ l' body
  end.

(** Run a computation on a component of the state. *)
Definition zoom {S T A} (proj : S → T) (upd : T → S → S) (m : M T A) : M S A :=
  λ s, let '(r, t) := m (proj s) in (r, upd t s).

(** ** The local replica

    [self._parameters] is the dictionary passed to the constructor (shared
    with the caller): it binds each parameter name to an object.  Top-level
    objects are heap cells, so that an in-place update (same location, new
    contents) differs from a rebinding (new location).  *)

Abbreviation loc := nat (only parsing).

Record replica := Replica { _parameters : dict loc; heap : list value }.

Definition set_heap (h : list value) (r : replica) : replica :=
  Replica (_parameters r) h.
Definition set_parameters_binding (key : string) (l : loc) (r : replica) : replica :=
  Replica (dict_set key l (_parameters r)) (heap r).

(** The object at a location; a dangling location is outside the model. *)
Definition deref (l : loc) : M replica value :=
  h ← gets heap;
  match h !! l with Some v => mret v | None => unmodelled end.

(** Overwrite the contents of the object at [l] (an in-place update). *)
Definition store (l : loc) (v : value) : M replica unit :=
  modify (λ r, set_heap (<[l:=v]> (heap r)) r).

(** A new object. *)
Definition alloc (v : value) : M replica loc :=
  h ← gets heap;
  modify (set_heap (h ++ [v]));;
  mret (length h).

(** [self._parameters[key]]: the location bound to [key] and its object. *)
Definition param (key : string) : M replica (loc * value) :=
  ps ← gets _parameters;
  l ← or_raise (KeyError key) (dict_get key ps);
  v ← deref l;
  mret (l, v).

(** [obj[k]] for a string [k]. *)
Definition subscript_str (obj : value) (k : string) : M replica value :=
  match obj with
  | VDict d => or_raise (KeyError k) (dict_get k d)
  | VArray _ => raise IndexError
  | _ => raise TypeError
  end.

(** [obj[k] = v] for a string [k]: the new contents of [obj]. *)
Definition setitem_str (obj : value) (k : string) (v : value) : M replica value :=
  match obj with
  | VDict d => mret (VDict (dict_set k v d))
  | VArray _ => raise IndexError
  | _ => raise TypeError
  end.

(** [obj.keys()] *)
Definition keys_of (obj : value) : M replica (list string) :=
  match obj with
  | VDict d => mret (dict_keys d)
  | _ => raise AttributeError
  end.

(** [obj.shape] *)
Definition shape_of (obj : value) : M replica (list nat) :=
  match obj with
  | VArray a => mret (shape a)
  | _ => raise AttributeError
  end.

(** [len(obj)] *)
Definition py_len (obj : value) : M replica nat :=
  match obj with
  | VList l => mret (length l)
  | VTuple t => mret (length t)
  | VDict d => mret (length d)
  | VStr s => mret (String.length s)
  | VArray a => match shape a with n :: _ => mret n | [] => raise TypeError end
  | VInt _ | VNone => raise TypeError
  end.

(** [self._parameters[key] *= 0].  numpy arrays and lists are updated in
    place; immutable values are replaced by a new object. *)
Definition imul_zero (key : string) : M replica unit :=
  '(l, obj) ← param key;
  match obj with
  | VArray a =>
      match imul0 a with
      | Some a' => store l (VArray a')
      | None => unmodelled
      end
  | VList _ => store l (VList [])
  | VTuple _ => l' ← alloc (VTuple []); modify (set_parameters_binding key l')
  | VInt z => l' ← alloc (VInt (z * 0)); modify (set_parameters_binding key l')
  | VStr _ => l' ← alloc (VStr ""); modify (set_parameters_binding key l')
  | VDict _ | VNone => raise TypeError
  end.

(** [self._parameters[key] += operand] for a local numpy array. *)
Definition iadd_array (key : string) (operand : option ndarray) : M replica unit :=
  '(l, obj) ← param key;
  b ← or_raise IndexError operand;
  match obj with
  | VArray a =>
      match iadd a b with
      | Computed r => store l (VArray r)
      | CastRefused => raise UFuncTypeError
      | ShapesDiffer => raise ValueError
      | NotModelled => unmodelled
      end
  | _ => unmodelled
  end.

(** [self._parameters[key][i] = v] *)
Definition setitem_index (key : string) (i : nat) (v : value) : M replica unit :=
  '(l, obj) ← param key;
  match obj with
  | VList xs =>
      if decide (i < length xs) then store l (VList (<[i:=v]> xs))
      else raise IndexError
  | VTuple _ | VStr _ | VInt _ | VNone => raise TypeError
  | VDict _ | VArray _ => unmodelled
  end.

(** ** Device placement *)

Inductive device_entry :=
| DeviceOne (d : string)
| DeviceSeq (ds : list string).

(** [entry[i]] *)
Definition device_index (e : device_entry) (i : nat) : M replica device_entry :=
  match e with
  | DeviceSeq ds => or_raise IndexError (DeviceOne <$> ds !! i)
  | DeviceOne _ => raise TypeError
  end.

Definition devices_msg : string :=
  "Support for devices" +:+ "have not been implemented"
  +:+ "yet in the parameter client.".

Definition newline : string := String (Ascii.ascii_of_nat 10) "".

Definition type_msg (v : value) (key : string) : string :=
  "Parameter type " +:+ type_repr v +:+ " of '" +:+ key
  +:+ "' not implemented." +:+ newline
  +:+ "                    Please use a mutable type for '" +:+ key +:+ "'".

Definition lift_outcome {S A} (o : outcome A) : M S A := λ s, (o, s).

Section merge.

(** [jax.device_put]: the external device placement API. *)
Context (device_put : value → device_entry → outcome value).

(** ** The merge procedure [_copy] *)

(** Body of the innermost loop, for a nested dictionary:
    [self._parameters[key][type1_key][type2_key]
       = new_parameters[key][type1_key][type2_key]]. *)
Definition copy_type2 (devices : dict device_entry) (key type1_key : string)
    (new1 : value) (type2_key : string) : M replica unit :=
  if truthy devices then raise (NotImplementedError devices_msg)
  else
    rhs ← subscript_str new1 type2_key;
    '(l, obj) ← param key;
    sub ← subscript_str obj type1_key;
    sub' ← setitem_str sub type2_key rhs;
    obj' ← setitem_str obj type1_key sub';
    store l obj'.

(** Body of the loop over [new_parameters[key].keys()]. *)
Definition copy_type1 (devices : dict device_entry) (key : string)
    (new : value) (type1_key : string) : M replica unit :=
  new1 ← subscript_str new type1_key;
  match new1 with
  | VDict _ =>
      '(_, obj) ← param key;
      sub ← subscript_str obj type1_key;
      ks ← keys_of sub;
      for_ ks (copy_type2 devices key type1_key new1)
  | _ =>
      '(l, obj) ← param key;
      obj' ← setitem_str obj type1_key new1;
      store l obj'
  end.

(** Body of the loop over the indices of the local sequence. *)
Definition copy_index (devices : dict device_entry) (key : string)
    (t : list value) (i : nat) : M replica unit :=
  x ← or_raise IndexError (t !! i);
  v ← (if truthy devices then
         dk ← or_raise (KeyError key) (dict_get key devices);
         d ← device_index dk i;
         lift_outcome (device_put x d)
       else mret x);
  setitem_index key i v.

(** Body of the outer loop [for key in new_parameters.keys()]. *)
Definition copy_key (devices : dict device_entry)
    (new_parameters : dict value) (key : string) : M replica unit :=
  new ← or_raise (KeyError key) (dict_get key new_parameters);
  match new with
  | VDict d => for_ (dict_keys d) (copy_type1 devices key new)
  | VArray a =>
      if truthy devices then
        dev ← or_raise (KeyError key) (dict_get key devices);
        v ← lift_outcome (device_put new dev);
        l ← alloc v;
        modify (set_parameters_binding key l)
      else
        imul_zero key;;
        '(_, obj) ← param key;
        s ← shape_of obj;
        if bool_decide (shape a ≠ s) then iadd_array key (getitem a 0)
        else iadd_array key (Some a)
  | VTuple t =>
      '(_, obj) ← param key;
      n ← py_len obj;
      for_ (seq 0 n) (copy_index devices key t)
  | _ => raise (NotImplementedError (type_msg new key))
  end.

Definition _copy (devices : dict device_entry)
    (new_parameters : dict value) : M replica unit :=
  for_ (dict_keys new_parameters) (copy_key devices new_parameters).

End merge.

(** ** The client object

    The fields of [ParameterClient] as the constructor creates them, but
    [_parameters], which is in the [replica], and the request closures,
    which are the definitions [_async_request], [_async_adjust], ... below.
    A future is the index of its request in the log of the transport. *)

Record ParameterClient := Client {
  _all_keys : list string;
  _get_keys : list string;
  _set_keys : list string;
  _multi_process : bool;
  _get_call_counter : Z;
  _set_call_counter : Z;
  _set_get_call_counter : Z;
  _update_period : Z;
  _devices : dict device_entry;
  _async_add_buffer : dict Z;
  _get_future : option nat;
  _set_future : option nat;
  _set_get_future : option (nat * nat);
  _add_future : option nat
}.

Definition with_get_call_counter (x : Z) (c : ParameterClient) : ParameterClient :=
  {| _all_keys := _all_keys c;
     _get_keys := _get_keys c;
     _set_keys := _set_keys c;
     _multi_process := _multi_process c;
     _get_call_counter := x;
     _set_call_counter := _set_call_counter c;
     _set_get_call_counter := _set_get_call_counter c;
     _update_period := _update_period c;
     _devices := _devices c;
     _async_add_buffer := _async_add_buffer c;
     _get_future := _get_future c;
     _set_future := _set_future c;
     _set_get_future := _set_get_future c;
     _add_future := _add_future c |}.

Definition with_set_call_counter (x : Z) (c : ParameterClient) : ParameterClient :=
  {| _all_keys := _all_keys c;
     _get_keys := _get_keys c;
     _set_keys := _set_keys c;
     _multi_process := _multi_process c;
     _get_call_counter := _get_call_counter c;
     _set_call_counter := x;
     _set_get_call_counter := _set_get_call_counter c;
     _update_period := _update_period c;
     _devices := _devices c;
     _async_add_buffer := _async_add_buffer c;
     _get_future := _get_future c;
     _set_future := _set_future c;
     _set_get_future := _set_get_future c;
     _add_future := _add_future c |}.

Definition with_set_get_call_counter (x : Z) (c : ParameterClient) : ParameterClient :=
  {| _all_keys := _all_keys c;
     _get_keys := _get_keys c;
     _set_keys := _set_keys c;
     _multi_process := _multi_process c;
     _get_call_counter := _get_call_counter c;
     _set_call_counter := _set_call_counter c;
     _set_get_call_counter := x;
     _update_period := _update_period c;
     _devices := _devices c;
     _async_add_buffer := _async_add_buffer c;
     _get_future := _get_future c;
     _set_future := _set_future c;
     _set_get_future := _set_get_future c;
     _add_future := _add_future c |}.

Definition with_async_add_buffer (x : dict Z) (c : ParameterClient) : ParameterClient :=
  {| _all_keys := _all_keys c;
     _get_keys := _get_keys c;
     _set_keys := _set_keys c;
     _multi_process := _multi_process c;
     _get_call_counter := _get_call_counter c;
     _set_call_counter := _set_call_counter c;
     _set_get_call_counter := _set_get_call_counter c;
     _update_period := _update_period c;
     _devices := _devices c;
     _async_add_buffer := x;
     _get_future := _get_future c;
     _set_future := _set_future c;
     _set_get_future := _set_get_future c;
     _add_future := _add_future c |}.

Definition with_get_future (x : option nat) (c : ParameterClient) : ParameterClient :=
  {| _all_keys := _all_keys c;
     _get_keys := _get_keys c;
     _set_keys := _set_keys c;
     _multi_process := _multi_process c;
     _get_call_counter := _get_call_counter c;
     _set_call_counter := _set_call_counter c;
     _set_get_call_counter := _set_get_call_counter c;
     _update_period := _update_period c;
     _devices := _devices c;
     _async_add_buffer := _async_add_buffer c;
     _get_future := x;
     _set_future := _set_future c;
     _set_get_future := _set_get_future c;
     _add_future := _add_future c |}.

Definition with_set_future (x : option nat) (c : ParameterClient) : ParameterClient :=
  {| _all_keys := _all_keys c;
     _get_keys := _get_keys c;
     _set_keys := _set_keys c;
     _multi_process := _multi_process c;
     _get_call_counter := _get_call_counter c;
     _set_call_counter := _set_call_counter c;
     _set_get_call_counter := _set_get_call_counter c;
     _update_period := _update_period c;
     _devices := _devices c;
     _async_add_buffer := _async_add_buffer c;
     _get_future := _get_future c;
     _set_future := x;
     _set_get_future := _set_get_future c;
     _add_future := _add_future c |}.

Definition with_set_get_future (x : option (nat * nat)) (c : ParameterClient) : ParameterClient :=
  {| _all_keys := _all_keys c;
     _get_keys := _get_keys c;
     _set_keys := _set_keys c;
     _multi_process := _multi_process c;
     _get_call_counter := _get_call_counter c;
     _set_call_counter := _set_call_counter c;
     _set_get_call_counter := _set_get_call_counter c;
     _update_period := _update_period c;
     _devices := _devices c;
     _async_add_buffer := _async_add_buffer c;
     _get_future := _get_future c;
     _set_future := _set_future c;
     _set_get_future := x;
     _add_future := _add_future c |}.

Definition with_add_future (x : option nat) (c : ParameterClient) : ParameterClient :=
  {| _all_keys := _all_keys c;
     _get_keys := _get_keys c;
     _set_keys := _set_keys c;
     _multi_process := _multi_process c;
     _get_call_counter := _get_call_counter c;
     _set_call_counter := _set_call_counter c;
     _set_get_call_counter := _set_get_call_counter c;
     _update_period := _update_period c;
     _devices := _devices c;
     _async_add_buffer := _async_add_buffer c;
     _get_future := _get_future c;
     _set_future := _set_future c;
     _set_get_future := _set_get_future c;
     _add_future := x |}.
(** ** The server and the transport

    The parameter server is not part of the client: every call made to it
    is logged as a [request], and what it answers is an input.  A request
    sent through [server.futures] stays pending ([req_result = None]) until
    the transport completes it; a direct call is logged completed.
    [req_kind] and [req_op] are bookkeeping: the method that sent the
    request and the sequence number of the client call that did. *)

Inductive names :=
| NamesList (l : list string)
| NamesSet (s : gset string).

Inductive rpc :=
| get_parameters (ns : names)
| set_parameters (params : dict value)
| add_to_parameters (params : dict Z).

Inductive kind := KGet | KSet | KSetGet | KAdd | KWait.

Global Instance kind_eq_dec : EqDecision kind.
Proof. solve_decision. Defined.

Record request := Request {
  req_rpc : rpc;
  req_kind : kind;
  req_op : nat;
  req_result : option (dict value);
  req_callback : bool }.

Definition pending (r : request) : bool :=
  match req_result r with None => true | Some _ => false end.

Definition complete (res : dict value) (r : request) : request :=
  Request (req_rpc r) (req_kind r) (req_op r) (Some res) (req_callback r).

Record world := World {
  client : ParameterClient;
  local : replica;
  server_log : list request;
  op_count : nat }.

Definition set_client (c : ParameterClient) (w : world) : world :=
  World c (local w) (server_log w) (op_count w).
Definition set_local (r : replica) (w : world) : world :=
  World (client w) r (server_log w) (op_count w).
Definition set_server_log (l : list request) (w : world) : world :=
  World (client w) (local w) l (op_count w).
Definition set_op_count (n : nat) (w : world) : world :=
  World (client w) (local w) (server_log w) n.

Definition update (f : ParameterClient → ParameterClient) : M world unit :=
  modify (λ w, set_client (f (client w)) w).

(** What the environment does during one client call: [reply] is what the
    server returns to a blocking [get_parameters] made by the call, and
    [arrivals] are the requests the transport completes while the call
    runs, after it has sent its own request and before it polls. *)
Record env := Env {
  reply : dict value;
  arrivals : list (nat * dict value) }.

(** Send a request: [result] is [None] for a future of [server.futures]
    and the answer for a direct call.  Returns the handle. *)
Definition send (r : rpc) (k : kind) (result : option (dict value))
    (callback : bool) : M world nat :=
  w ← gets id;
  modify (set_server_log
            (server_log w ++ [Request r k (op_count w) result callback]));;
  mret (length (server_log w)).

(** [future.done()] *)
Definition done (f : nat) : M world bool :=
  log ← gets server_log;
  match log !! f with
  | Some r => mret (negb (pending r))
  | None => unmodelled
  end.

(** [future.result()] of a completed future. *)
Definition result (f : nat) : M world (dict value) :=
  log ← gets server_log;
  match log !! f with
  | Some (Request _ _ _ (Some res) _) => mret res
  | _ => unmodelled
  end.

Section parameter_client.

Context (device_put : value → device_entry → outcome value).
(** [mava.utils.sort_utils.sort_str_num], used by the constructor only. *)
Context (sort_str_num : list string → list string).

(** [__init__] *)
Definition init (parameters : dict loc) (multi_process : bool)
    (get_keys set_keys : option (list string)) (update_period : Z)
    (devices : dict device_entry) : ParameterClient :=
  {| _all_keys := sort_str_num (dict_keys parameters);
     _get_keys := default [] get_keys;
     _set_keys := default [] set_keys;
     _multi_process := multi_process;
     _get_call_counter := 0;
     _set_call_counter := 0;
     _set_get_call_counter := 0;
     _update_period := update_period;
     _devices := devices;
     _async_add_buffer := [];
     _get_future := None;
     _set_future := None;
     _set_get_future := None;
     _add_future := None |}.

(** The world right after the constructor: nothing sent yet. *)
Definition init_world (c : ParameterClient) (r : replica) : world :=
  World c r [] 0.

(** [self._copy(new_parameters)] *)
Definition copy (new_parameters : dict value) : M world unit :=
  c ← gets client;
  zoom local set_local (_copy device_put (_devices c) new_parameters).

(** The transport completes request [f] with result [res]; the
    completion callback of the request, if it has one, merges the result
    (an exception raised by a callback does not reach the client). *)
Definition deliver (a : nat * dict value) (w : world) : world :=
  let '(f, res) := a in
  match server_log w !! f with
  | Some r =>
      if pending r then
        let w' := set_server_log (<[f:=complete res r]> (server_log w)) w in
        if req_callback r then (copy res w').2 else w'
      else w
  | None => w
  end.

Definition transport (l : list (nat * dict value)) : M world unit :=
  modify (λ w, foldl (λ w a, deliver a w) w l).

(** [{key: self._parameters[key] for key in self._set_keys}] *)
Definition set_payload : M world (dict value) :=
  c ← gets client;
  zoom local set_local
    (foldl (λ acc key, d ← acc; '(_, v) ← param key; mret (dict_set key v d))
           (mret []) (_set_keys c)).

(** [self._request()] and [self._request_all()] *)
Definition _request (k : kind) (e : env) : M world (dict value) :=
  c ← gets client;
  send (get_parameters (NamesList (_get_keys c))) k (Some (reply e)) false;;
  mret (reply e).
Definition _request_all (e : env) : M world (dict value) :=
  c ← gets client;
  send (get_parameters (NamesList (_all_keys c))) KWait (Some (reply e)) false;;
  mret (reply e).

(** [self._adjust()], [self._adjust_param(params)], [self._add(params)] *)
Definition _adjust (k : kind) : M world unit :=
  p ← set_payload;
  send (set_parameters p) k (Some []) false;;
  mret tt.
Definition _adjust_param (k : kind) (params : dict value) : M world unit :=
  send (set_parameters params) k (Some []) false;;
  mret tt.
Definition _add (k : kind) (params : dict Z) : M world unit :=
  send (add_to_parameters params) k (Some []) false;;
  mret tt.

(** The asynchronous closures: a future of [server.futures] in
    multi-process mode, a [DoneFuture] around the direct call otherwise. *)
Definition _async_request (e : env) : M world nat :=
  c ← gets client;
  send (get_parameters (NamesList (_get_keys c))) KGet
       (if _multi_process c then None else Some (reply e)) false.

Definition _async_adjust : M world nat :=
  c ← gets client;
  p ← set_payload;
  send (set_parameters p) KSet
       (if _multi_process c then None else Some []) false.

Definition _async_adjust_param (params : dict value) : M world nat :=
  c ← gets client;
  send (set_parameters params) KSet
       (if _multi_process c then None else Some []) false.

Definition _async_add (params : dict Z) : M world nat :=
  c ← gets client;
  send (add_to_parameters params) KAdd
       (if _multi_process c then None else Some []) false.

(** ** The methods *)

(** [_adjust_and_request]: both calls are direct calls to the server. *)
Definition _adjust_and_request (e : env) : M world unit :=
  p ← set_payload;
  send (set_parameters p) KSetGet (Some []) false;;
  c ← gets client;
  send (get_parameters (NamesList (_get_keys c))) KSetGet (Some (reply e)) false;;
  copy (reply e).

Definition _async_adjust_and_request (e : env) : M world (option (nat * nat)) :=
  c ← gets client;
  if negb (_multi_process c) then
    _adjust_and_request e;;
    mret None
  else
    p ← set_payload;
    set_future ← send (set_parameters p) KSetGet None false;
    let get_keys : gset string :=
      list_to_set (_get_keys c) ∖ list_to_set (_set_keys c) in
    get_future ← send (get_parameters (NamesSet get_keys)) KSetGet None true;
    mret (Some (set_future, get_future)).

Definition get_async (e : env) : M world unit :=
  c ← gets client;
  when (bool_decide (_get_call_counter c < _update_period c)%Z)
    (update (with_get_call_counter (_get_call_counter c + 1)));;
  c ← gets client;
  let period_reached := bool_decide (_get_call_counter c >= _update_period c)%Z in
  when (period_reached && bool_decide (_get_future c = None))
    (f ← _async_request e;
     update (with_get_future (Some f));;
     update (with_get_call_counter 0));;
  transport (arrivals e);;
  c ← gets client;
  match _get_future c with
  | Some f =>
      d ← done f;
      when d (r ← result f; copy r;; update (with_get_future None))
  | None => mret tt
  end.

Definition set_async (params : option (dict value)) : M world unit :=
  c ← gets client;
  when (bool_decide (_set_call_counter c < _update_period c)%Z)
    (update (with_set_call_counter (_set_call_counter c + 1)));;
  c ← gets client;
  let period_reached := bool_decide (_set_call_counter c >= _update_period c)%Z in
  if period_reached && bool_decide (_set_future c = None) then
    f ← match params with
        | None => _async_adjust
        | Some p => _async_adjust_param p
        end;
    update (with_set_future (Some f));;
    update (with_set_call_counter 0)
  else
    match _set_future c with
    | Some f => d ← done f; when d (update (with_set_future None))
    | None => mret tt
    end.

Definition set_and_get_async (e : env) : M world unit :=
  c ← gets client;
  when (bool_decide (_set_get_call_counter c < _update_period c)%Z)
    (update (with_set_get_call_counter (_set_get_call_counter c + 1)));;
  c ← gets client;
  let period_reached :=
    bool_decide (_set_get_call_counter c >= _update_period c)%Z in
  if period_reached && bool_decide (_set_get_future c = None) then
    f ← _async_adjust_and_request e;
    update (with_set_get_future f);;
    update (with_set_get_call_counter 0)
  else
    match _set_get_future c with
    | Some (s, g) =>
        ds ← done s;
        dg ← done g;
        when (ds && dg) (update (with_set_get_future None))
    | None => mret tt
    end.

(** [self._async_add_buffer[name] += params[name]] *)
Definition buffer_iadd (params : dict Z) (name : string) : M world unit :=
  c ← gets client;
  old ← or_raise (KeyError name) (dict_get name (_async_add_buffer c));
  x ← or_raise (KeyError name) (dict_get name params);
  update (with_async_add_buffer
            (dict_set name (old + x)%Z (_async_add_buffer c))).

(** [self._async_add_buffer[name] = params[name]] *)
Definition buffer_assign (params : dict Z) (name : string) : M world unit :=
  x ← or_raise (KeyError name) (dict_get name params);
  c ← gets client;
  update (with_async_add_buffer (dict_set name x (_async_add_buffer c))).

Definition add_async (params : dict Z) : M world unit :=
  c ← gets client;
  match _add_future c with
  | Some f => d ← done f; when d (update (with_add_future None))
  | None => mret tt
  end;;
  let names := dict_keys params in
  c ← gets client;
  match _add_future c with
  | None =>
      if negb (truthy (_async_add_buffer c)) then
        f ← _async_add params;
        update (with_add_future (Some f))
      else
        for_ names (buffer_iadd params);;
        c ← gets client;
        f ← _async_add (_async_add_buffer c);
        update (with_add_future (Some f));;
        update (with_async_add_buffer [])
  | Some _ =>
      if truthy (_async_add_buffer c) then for_ names (buffer_iadd params)
      else for_ names (buffer_assign params)
  end.

Definition add_and_wait (params : dict Z) : M world unit :=
  _add KWait params.

Definition get_and_wait (e : env) : M world unit :=
  r ← _request KWait e; copy r.

Definition get_all_and_wait (e : env) : M world unit :=
  r ← _request_all e; copy r.

Definition set_and_wait (params : option (dict value)) : M world unit :=
  match params with
  | None => _adjust KWait
  | Some p => _adjust_param KWait p
  end.

(** ** Histories

    A history of a client is a sequence of events: calls of its methods
    (an exception propagates to the caller, who may go on using the
    client) and completions of pending requests by the transport. *)

Inductive call :=
| GetAsync
| SetAsync (params : option (dict value))
| SetAndGetAsync
| AddAsync (params : dict Z)
| AddAndWait (params : dict Z)
| GetAndWait
| GetAllAndWait
| SetAndWait (params : option (dict value)).

Inductive event :=
| Call (c : call) (e : env)
| Complete (f : nat) (res : dict value).

Definition run_call (c : call) (e : env) : M world unit :=
  match c with
  | GetAsync => get_async e
  | SetAsync params => set_async params
  | SetAndGetAsync => set_and_get_async e
  | AddAsync params => add_async params
  | AddAndWait params => add_and_wait params
  | GetAndWait => get_and_wait e
  | GetAllAndWait => get_all_and_wait e
  | SetAndWait params => set_and_wait params
  end.

Definition step (ev : event) (w : world) : outcome unit * world :=
  match ev with
  | Call c e => run_call c e (set_op_count (S (op_count w)) w)
  | Complete f res => (Ok tt, deliver (f, res) w)
  end.

Definition run (evs : list event) (w : world) : world :=
  foldl (λ w ev, (step ev w).2) w evs.

End parameter_client.

(** ** The executor observation component

    [FeedforwardExecutorObserve] acts on [executor.store].  The experience
    sink ([store.adder]) is external: it is modelled by the list of the
    calls it has received, each with the contents of its arguments at the
    time of the call.  The fields that the comments of the source mark as
    "set by Executor" are set by the event that triggers the hook. *)

Module Observing.

Section observing.

(** [dm_env.TimeStep] and the per-agent action information. *)
Context {timestep action_info : Type}.
Context (device_put : value → device_entry → outcome value).
Context (sort_str_num : list string → list string).
(** [mava.utils.sort_utils.sample_new_agent_keys]: it draws at random,
    the draw is its first argument here. *)
Context (sample_new_agent_keys :
  nat → list string → list (list string) → dict Z → value * dict string).

Inductive adder_call :=
| add_first (ts : timestep) (extras : dict value)
| add (actions : dict (dict action_info)) (next_ts : timestep)
      (next_extras : dict value).

Record store := Store {
  adder : option (list adder_call);
  agent_net_keys : dict string;
  network_int_keys_extras : value;
  network_sampling_setup : list (list string);
  net_keys_to_ids : dict Z;
  extras : dict value;
  next_extras : dict value;
  store_timestep : timestep;
  next_timestep : timestep;
  actions_info : dict action_info;
  executor_parameter_client : option world }.

Definition set_adder (x : option (list adder_call)) (s : store) : store :=
  Store x (agent_net_keys s) (network_int_keys_extras s)
    (network_sampling_setup s) (net_keys_to_ids s) (extras s)
    (next_extras s) (store_timestep s) (next_timestep s) (actions_info s)
    (executor_parameter_client s).
Definition set_sampled (ids : value) (keys : dict string) (s : store) : store :=
  Store (adder s) keys ids
    (network_sampling_setup s) (net_keys_to_ids s) (extras s)
    (next_extras s) (store_timestep s) (next_timestep s) (actions_info s)
    (executor_parameter_client s).
Definition set_extras (x : dict value) (s : store) : store :=
  Store (adder s) (agent_net_keys s) (network_int_keys_extras s)
    (network_sampling_setup s) (net_keys_to_ids s) x
    (next_extras s) (store_timestep s) (next_timestep s) (actions_info s)
    (executor_parameter_client s).
Definition set_next_extras (x : dict value) (s : store) : store :=
  Store (adder s) (agent_net_keys s) (network_int_keys_extras s)
    (network_sampling_setup s) (net_keys_to_ids s) (extras s)
    x (store_timestep s) (next_timestep s) (actions_info s)
    (executor_parameter_client s).
Definition set_timestep (x : timestep) (s : store) : store :=
  Store (adder s) (agent_net_keys s) (network_int_keys_extras s)
    (network_sampling_setup s) (net_keys_to_ids s) (extras s)
    (next_extras s) x (next_timestep s) (actions_info s)
    (executor_parameter_client s).
Definition set_next_timestep (x : timestep) (s : store) : store :=
  Store (adder s) (agent_net_keys s) (network_int_keys_extras s)
    (network_sampling_setup s) (net_keys_to_ids s) (extras s)
    (next_extras s) (store_timestep s) x (actions_info s)
    (executor_parameter_client s).
Definition set_actions_info (x : dict action_info) (s : store) : store :=
  Store (adder s) (agent_net_keys s) (network_int_keys_extras s)
    (network_sampling_setup s) (net_keys_to_ids s) (extras s)
    (next_extras s) (store_timestep s) (next_timestep s) x
    (executor_parameter_client s).
Definition set_executor_parameter_client (x : option world) (s : store) : store :=
  Store (adder s) (agent_net_keys s) (network_int_keys_extras s)
    (network_sampling_setup s) (net_keys_to_ids s) (extras s)
    (next_extras s) (store_timestep s) (next_timestep s) (actions_info s)
    x.

(** A call received by the sink. *)
Definition tell (c : adder_call) : M store unit :=
  modify (λ s, set_adder ((λ l, l ++ [c]) <$> adder s) s).

Definition on_execution_observe_first (draw : nat) : M store unit :=
  s ← gets id;
  match adder s with
  | None => mret tt
  | Some _ =>
      let agents := sort_str_num (dict_keys (agent_net_keys s)) in
      let '(ids, keys) :=
        sample_new_agent_keys draw agents (network_sampling_setup s)
          (net_keys_to_ids s) in
      modify (set_sampled ids keys);;
      s ← gets id;
      modify (set_extras
                (dict_set "network_int_keys" (network_int_keys_extras s)
                   (extras s)));;
      s ← gets id;
      tell (add_first (store_timestep s) (extras s))
  end.

Definition on_execution_observe : M store unit :=
  s ← gets id;
  match adder s with
  | None => mret tt
  | Some _ =>
      let actions_info := actions_info s in
      let adder_actions :=
        foldl (λ (acc : dict (dict action_info)) agent,
                 match dict_get agent actions_info with
                 | Some a => dict_set agent [("actions_info", a)] acc
                 | None => acc
                 end) [] (dict_keys actions_info) in
      modify (set_next_extras
                (dict_set "network_int_keys" (network_int_keys_extras s)
                   (next_extras s)));;
      s ← gets id;
      tell (add adder_actions (next_timestep s) (next_extras s))
  end.

(** A method of the parameter client called on
    [store.executor_parameter_client]. *)
Definition on_client (m : M world unit) : M store unit :=
  λ s, match executor_parameter_client s with
       | None => (Ok tt, s)
       | Some w =>
           let '(r, w') := m w in
           (r, set_executor_parameter_client (Some w') s)
       end.

Definition on_execution_update (e : env) : M store unit :=
  on_client (get_async device_put e).

Definition on_execution_force_update (e : env) : M store unit :=
  on_client (get_and_wait device_put e).

(** The hooks as the executor triggers them. *)
Inductive hook :=
| ObserveFirst (draw : nat) (ts : timestep) (extras : dict value)
| Observe (actions_info : dict action_info) (next_ts : timestep)
          (next_extras : dict value)
| Update (e : env)
| ForceUpdate (e : env).

Definition trigger (h : hook) : M store unit :=
  match h with
  | ObserveFirst draw ts ex =>
      modify (set_timestep ts);;
      modify (set_extras ex);;
      on_execution_observe_first draw
  | Observe ai ts ex =>
      modify (set_actions_info ai);;
      modify (set_next_timestep ts);;
      modify (set_next_extras ex);;
      on_execution_observe
  | Update e => on_execution_update e
  | ForceUpdate e => on_execution_force_update e
  end.

Definition run_hooks (hs : list hook) (s : store) : store :=
  foldl (λ s h, (trigger h s).2) s hs.

Definition is_observe_first (h : hook) : bool :=
  match h with ObserveFirst _ _ _ => true | _ => false end.

Definition is_observe (h : hook) : bool :=
  match h with Observe _ _ _ => true | _ => false end.

(** The calls that a sink receives from [on_execution_observe], all with
    the network identifiers [ids] in their metadata. *)
Definition adds_with (ids : value) (calls : list adder_call) : Prop :=
  Forall (λ c, match c with
               | add _ _ nex => dict_get "network_int_keys" nex = Some ids
               | add_first _ _ => False
               end) calls.

End observing.

End Observing.

(** ** Notions used to state the properties *)

(** The value types that [_copy] has no branch for. *)
Definition unsupported (v : value) : bool :=
  match v with
  | VDict _ | VArray _ | VTuple _ => false
  | _ => true
  end.

(** A request over time: the transport may complete it, nothing else of
    it changes. *)
Definition same_request (r r' : request) : Prop :=
  req_rpc r' = req_rpc r ∧ req_kind r' = req_kind r ∧ req_op r' = req_op r ∧
  req_callback r' = req_callback r ∧ (pending r' = true → pending r = true).

Definition log_rel (l l' : list request) : Prop := Forall2 same_request l l'.

(** A client that has been called [n] times without sending anything. *)
Definition idle_world (c : ParameterClient) (r : replica) (n : nat) : world :=
  World (with_get_call_counter (Z.of_nat n) c) r [] n.

(** Weakest preconditions in the monad [M]: [Q] holds after a normal
    return, [E] after an exception. *)
Definition wp {S A} (m : M S A) (Q : A → S → Prop) (E : S → Prop) (s : S) : Prop :=
  match m s with
  | (Ok a, s') => Q a s'
  | (_, s') => E s'
  end.

(** Instances of the external functions, for closed examples: placement
    keeps the contents of the value, sorting keeps the order. *)
Definition device_put_id : value → device_entry → outcome value := λ v _, Ok v.
Definition sort_id : list string → list string := id.

(** ** The outstanding-request discipline *)

Definition option_ids (o : option nat) : list nat :=
  match o with Some f => [f] | None => [] end.

(** The handles that the client holds for requests of a kind. *)
Definition slot_ids (k : kind) (c : ParameterClient) : list nat :=
  match k with
  | KGet => option_ids (_get_future c)
  | KSet => option_ids (_set_future c)
  | KAdd => option_ids (_add_future c)
  | KSetGet =>
      match _set_get_future c with Some (s, g) => [s; g] | None => [] end
  | KWait => []
  end.

(** Every pending request is held in the slot of its kind; the handles of
    a slot are requests of the log, sent by one client call. *)
Record protocol_inv (w : world) : Prop := ProtocolInv {
  inv_pending : ∀ f r,
    server_log w !! f = Some r → pending r = true →
    f ∈ slot_ids (req_kind r) (client w);
  inv_range : ∀ k f,
    f ∈ slot_ids k (client w) → f < length (server_log w);
  inv_op : ∀ k f g rf rg,
    f ∈ slot_ids k (client w) → g ∈ slot_ids k (client w) →
    server_log w !! f = Some rf → server_log w !! g = Some rg →
    req_op rf = req_op rg }.

(** No request of kind [k] is unresolved. *)
Definition free (k : kind) (log : list request) : Prop :=
  ∀ f r, log !! f = Some r → req_kind r = k → pending r = false.

(** Every request of [w'] that [w] does not have yet is of a kind that is
    free in [w]. *)
Definition sends_when_free (w w' : world) : Prop :=
  ∀ f r, server_log w' !! f = Some r → length (server_log w) ≤ f →
         free (req_kind r) (server_log w).

(** The client calls that have an unresolved request of kind [k], and
    those that have one of any kind. *)
Definition outstanding (k : kind) (w : world) : list nat :=
  remove_dups
    (req_op <$> filter (λ r, pending r = true ∧ req_kind r = k) (server_log w)).

Definition outstanding_all (w : world) : list nat :=
  remove_dups (req_op <$> filter (λ r, pending r = true) (server_log w)).

(** What every client call establishes, from the world [w0] it starts in. *)
Definition post (w0 w' : world) : Prop :=
  protocol_inv w' ∧ sends_when_free w0 w'.

(** Between two worlds, nothing was sent or completed and no slot changed
    (the loops of [add_async] touch the buffer only). *)
Definition quiet (w w' : world) : Prop :=
  server_log w' = server_log w ∧
  ∀ k, slot_ids k (client w') = slot_ids k (client w).

(** ** Accounting of the deltas of [add_async] *)

(** The delta that a dictionary carries for a key (none is zero). *)
Definition delta (k : string) (d : dict Z) : Z := default 0%Z (dict_get k d).

(** The total sent to the server for a key by the requests of [add_async],
    completed or in flight. *)
Definition sent (k : string) (log : list request) : Z :=
  foldr (λ r acc,
           match req_rpc r, req_kind r with
           | add_to_parameters p, KAdd => (delta k p + acc)%Z
           | _, _ => acc
           end) 0%Z log.

(** Sent, or still held in the accumulation buffer. *)
Definition delivered (k : string) (w : world) : Z :=
  (sent k (server_log w) + delta k (_async_add_buffer (client w)))%Z.

(** The total passed to [add_async] for a key by the calls of a history. *)
Definition passed (k : string) (evs : list event) : Z :=
  foldr (λ ev acc,
           match ev with
           | Call (AddAsync p) _ => (delta k p + acc)%Z
           | _ => acc
           end) 0%Z evs.

(** Histories made of calls of [add_async] (with a well-formed dictionary)
    and of completions by the transport. *)
Definition add_history (evs : list event) : Prop :=
  Forall (λ ev, match ev with
                | Call (AddAsync p) _ => NoDup (dict_keys p)
                | Complete _ _ => True
                | _ => False
                end) evs.

(** A multi-process client that tracks nothing, with update period 1, and
    the empty environment. *)
Definition counter_client : ParameterClient :=
  Client [] [] [] true 0 0 0 1 [] [] None None None None.
Definition counter_world : world := World counter_client (Replica [] []) [] 0.
Definition no_env : env := Env [] [].

Section histories.
Context (device_put : value → device_entry → outcome value).

(** Every call of the history returns normally. *)
Fixpoint returns_normally (evs : list event) (w : world) : Prop :=
  match evs with
  | [] => True
  | ev :: evs' =>
      (step device_put ev w).1 = Ok tt ∧
      returns_normally evs' (step device_put ev w).2
  end.

End histories.

(** ** Example inputs *)

(** A replica with an array parameter and a two-layer sequence. *)
Definition ex_replica : replica :=
  Replica [("w", 0); ("layers", 1)]
    [VArray (int64s [2] [5; 6]%Z);
     VList [VArray (int64s [1] [1]%Z); VArray (int64s [1] [2]%Z)]].

(** A server value with the local shape, and one with an extra leading
    dimension. *)
Definition ex_same : ndarray := int64s [2] [7; 8]%Z.

(** A sequence shorter than the local one, followed by a value of a type
    that [_copy] does not support. *)
Definition ex_short_then_blob : dict value :=
  [("layers", VTuple [VArray (int64s [1] [9]%Z)]); ("blob", VInt 5)].

(** A single-process and a multi-process client that get and set ["w"],
    with update period 1, and a server that answers with [ex_same]. *)
Definition ex_client (multi_process : bool) : ParameterClient :=
  Client ["w"] ["w"] ["w"] multi_process 0 0 0 1 [] [] None None None None.
Definition ex_world (multi_process : bool) : world :=
  World (ex_client multi_process)
    (Replica [("w", 0)] [VArray (int64s [2] [5; 6]%Z)]) [] 0.
Definition ex_env : env := Env [("w", VArray ex_same)] [].

(** A store with a sink attached and one agent, and a sampler that
    assigns the draw as network identifier. *)
Definition ex_sample (draw : nat) (agents : list string)
    (setup : list (list string)) (ids : dict Z) : value * dict string :=
  (VDict ((λ a, (a, VInt (Z.of_nat draw))) <$> agents),
   (λ a, (a, "network_0")) <$> agents).
Definition ex_store : @Observing.store nat nat :=
  Observing.Store (Some []) [("agent_0", "network_0")] VNone
    [["network_0"]] [("network_0", 0%Z)] [] [] 0 0 [] None.

(** ** Notions used for the merge of arrays *)

(** An element other than an infinity or a NaN. *)
Definition finite (x : scalar) : bool :=
  match x with
  | SInt _ => true
  | SFloat (S754_infinity _ | S754_nan) => false
  | SFloat _ => true
  end.

(** The integer 0, or a floating-point zero of either sign. *)
Definition is_zero (x : scalar) : bool :=
  match x with
  | SInt z => bool_decide (z = 0%Z)
  | SFloat (S754_zero _) => true
  | SFloat _ => false
  end.

Definition negative_zero : scalar := SFloat (S754_zero true).
Definition positive_zero : scalar := SFloat (S754_zero false).

(** The element [e] that a zeroed buffer holds after [y] was added to it:
    [y] itself, or [+0.0] for [-0.0]. *)
Definition stored_as (e y : scalar) : Prop :=
  e = y ∨ (y = negative_zero ∧ e = positive_zero).



(** ** Notions used by the further properties *)

(** The object that the replica holds for a name, if the name is tracked. *)
Definition tracked (r : replica) (k : string) : option value :=
  l ← dict_get k (_parameters r); heap r !! l.

(** The exact result of a computation: [P] holds of the outcome (a value,
    an exception or an unmodelled situation) and of the final state. *)
Definition wpo {S A} (m : M S A) (P : outcome A → S → Prop) (s : S) : Prop :=
  P (m s).1 (m s).2.

(** The first, third, fifth, ... element of a list. *)
Fixpoint every_other {A} (l : list A) : list A :=
  match l with
  | [] => []
  | x :: l' => x :: match l' with [] => [] | _ :: l'' => every_other l'' end
  end.

(** Histories of [add_async] in which every dictionary has the key set
    [K]; completions by the transport may come in between. *)
Definition same_keys_history (K : list string) (evs : list event) : Prop :=
  Forall (λ ev, match ev with
                | Call (AddAsync p) _ =>
                    NoDup (dict_keys p) ∧ ∀ k, k ∈ dict_keys p ↔ k ∈ K
                | Complete _ _ => True
                | _ => False
                end) evs.

(** The fields of the client that its constructor sets once and for all. *)
Definition config (c : ParameterClient) :
    list string * list string * list string * bool * Z * dict device_entry :=
  (_all_keys c, _get_keys c, _set_keys c, _multi_process c, _update_period c,
   _devices c).

(** The three call counters count up to the update period at most. *)
Definition counters_bounded (c : ParameterClient) : Prop :=
  let top := Z.max 0 (_update_period c) in
  (0 ≤ _get_call_counter c ≤ top)%Z ∧
  (0 ≤ _set_call_counter c ≤ top)%Z ∧
  (0 ≤ _set_get_call_counter c ≤ top)%Z.

(** Example inputs for the further properties: a client that also sets a
    name it does not track; a replica with a dictionary, a nested
    dictionary and a tuple; a device table; a client whose completed
    response holds a value that cannot be merged; a store without a sink. *)
Definition ex_set_world : world :=
  World (Client ["w"] ["w"] ["w"; "z"] true 0 0 0 1 [] [] None None None None)
    (Replica [("w", 0)] [VArray (int64s [2] [5; 6]%Z)]) [] 0.
Definition ex_dict_replica : replica :=
  Replica [("opt", 0); ("net", 1); ("pair", 2)]
    [VDict [("step", VInt 1)];
     VDict [("mlp", VDict [("w", VInt 1)])];
     VTuple [VInt 1]].
Definition ex_devices : dict device_entry :=
  [("w", DeviceOne "gpu:0"); ("net", DeviceOne "gpu:0")].
Definition ex_failed_world : world :=
  World (Client ["w"] ["w"] ["w"] true 1 0 0 1 [] [] (Some 0) None None None)
    (Replica [("w", 0)] [VArray (int64s [2] [5; 6]%Z)])
    [Request (get_parameters (NamesList ["w"])) KGet 1
       (Some [("blob", VInt 5)]) false] 1.
Definition ex_no_sink_store : @Observing.store nat nat :=
  Observing.Store None [("agent_0", "network_0")] VNone
    [["network_0"]] [("network_0", 0%Z)] [] [] 0 0 [] None.

(** * Properties *)

Global Arguments bind : simpl never.
Global Arguments ret : simpl never.
Global Arguments gets : simpl never.
Global Arguments modify : simpl never.
Global Arguments raise : simpl never.
Global Arguments unmodelled : simpl never.
Global Arguments or_raise : simpl never.
Global Arguments when : simpl never.
Global Arguments zoom : simpl never.
Global Arguments copy : simpl never.
Global Arguments _copy : simpl never.
Global Arguments deliver : simpl never.
Global Arguments done : simpl never.
Global Arguments result : simpl never.

Ltac munfold :=
  unfold mbind, M_bind, bind, mret, M_ret, ret, gets, modify, raise,
    unmodelled, or_raise, when, zoom, lift_outcome in *.

(** ** The monad *)

Lemma run_bind {S A B} (m : M S A) (k : A → M S B) s :
  bind m k s =
  match m s with
  | (Ok a, s') => k a s'
  | (Raise e, s') => (Raise e, s')
  | (Unmodelled, s') => (Unmodelled, s')
  end.
Proof. reflexivity. Qed.

Lemma for_app {S A} (l1 l2 : list A) (body : A → M S unit) s :
  for_ (l1 ++ l2) body s =
  match for_ l1 body s with
  | (Ok _, s') => for_ l2 body s'
  | other => other
  end.
Proof.
  revert s. induction l1 as [|x l1 IH]; intros s; simpl; [done|].
  unfold mbind, M_bind. rewrite !run_bind. destruct (body x s) as [[[]|e|] s']; auto.
Qed.

Lemma for_raises {S A} (l : list A) (body : A → M S unit) x :
  x ∈ l → (∀ s, (body x s).1 ≠ Ok tt) → ∀ s, (for_ l body s).1 ≠ Ok tt.
Proof.
  intros Hx Hb. induction l as [|y l IH]; intros s; [by apply elem_of_nil in Hx|].
  simpl. unfold mbind, M_bind. rewrite run_bind.
  destruct (body y s) as [[[]|e|] s'] eqn:Hy; simpl; try done.
  apply elem_of_cons in Hx as [->|Hx]; [|by apply IH].
  specialize (Hb s). by rewrite Hy in Hb.
Qed.

Section wp.
Context {S : Type}.
Implicit Types (E : S → Prop) (s : S).

Lemma wp_ret {A} (a : A) (Q : A → S → Prop) E s : wp (ret a) Q E s = Q a s.
Proof. done. Qed.

Lemma wp_bind {A B} (m : M S A) (k : A → M S B) (Q : B → S → Prop) E s :
  wp (bind m k) Q E s = wp m (λ a s', wp (k a) Q E s') E s.
Proof. unfold wp, bind. by destruct (m s) as [[a|e|] s']. Qed.

Lemma wp_gets {A} (f : S → A) (Q : A → S → Prop) E s :
  wp (gets f) Q E s = Q (f s) s.
Proof. done. Qed.

Lemma wp_modify (f : S → S) (Q : unit → S → Prop) E s :
  wp (modify f) Q E s = Q tt (f s).
Proof. done. Qed.

Lemma wp_raise {A} e (Q : A → S → Prop) E s : wp (raise e) Q E s = E s.
Proof. done. Qed.

Lemma wp_unmodelled {A} (Q : A → S → Prop) E s : wp unmodelled Q E s = E s.
Proof. done. Qed.

Lemma wp_or_raise {A} e (o : option A) (Q : A → S → Prop) E s :
  wp (or_raise e o) Q E s = match o with Some a => Q a s | None => E s end.
Proof. by destruct o. Qed.

Lemma wp_when (b : bool) (m : M S unit) (Q : unit → S → Prop) E s :
  wp (when b m) Q E s = if b then wp m Q E s else Q tt s.
Proof. by destruct b. Qed.

Lemma wp_mono {A} (m : M S A) (Q Q' : A → S → Prop) E E' s :
  wp m Q E s → (∀ a s', Q a s' → Q' a s') → (∀ s', E s' → E' s') →
  wp m Q' E' s.
Proof. unfold wp. destruct (m s) as [[a|e|] s']; auto. Qed.

Lemma wp_for {A} (I : S → Prop) (l : list A) (body : A → M S unit)
    (Q : unit → S → Prop) E s :
  I s → (∀ x s', I s' → wp (body x) (λ _, I) E s') → (∀ s', I s' → Q tt s') →
  wp (for_ l body) Q E s.
Proof.
  intros Hs Hb HQ. revert s Hs. induction l as [|x l IH]; intros s Hs; simpl.
  - by apply HQ.
  - unfold mbind, M_bind. rewrite wp_bind.
    eapply wp_mono; [by apply Hb| |done]. simpl. auto.
Qed.

Lemma wp_zoom {T A} (proj : S → T) (upd : T → S → S) (m : M T A)
    (Q : A → S → Prop) E s :
  wp (zoom proj upd m) Q E s =
  wp m (λ a t, Q a (upd t s)) (λ t, E (upd t s)) (proj s).
Proof. unfold wp, zoom. by destruct (m (proj s)) as [[a|e|] t]. Qed.

Lemma wp_any {A} (m : M S A) (Q : A → S → Prop) E s :
  (∀ a s', Q a s') → (∀ s', E s') → wp m Q E s.
Proof. unfold wp. destruct (m s) as [[a|e|] s']; auto. Qed.

Lemma wp_run {A} (m : M S A) (P : S → Prop) s :
  wp m (λ _, P) P s → P (m s).2.
Proof. unfold wp. by destruct (m s) as [[a|e|] s']. Qed.

Lemma wp_eq {A} (m : M S A) (a0 : A) (s0 s : S) :
  wp m (λ a s', a = a0 ∧ s' = s0) (λ _, False) s → m s = (Ok a0, s0).
Proof. unfold wp. destruct (m s) as [[a|e|] s']; try done. by intros [-> ->]. Qed.

End wp.

Create Rewrite HintDb wp.
#[global] Hint Rewrite @wp_ret @wp_bind @wp_gets @wp_modify @wp_raise
  @wp_unmodelled @wp_or_raise @wp_when @wp_zoom : wp.

Ltac wp_simpl :=
  repeat (progress (unfold mret, M_ret, mbind, M_bind;
                    autorewrite with wp; cbv beta)).

Lemma wp_done f (Q : bool → world → Prop) E w :
  wp (done f) Q E w =
  match server_log w !! f with
  | Some r => Q (negb (pending r)) w
  | None => E w
  end.
Proof. unfold done. wp_simpl. by destruct (_ !! _). Qed.

Lemma wp_result f (Q : dict value → world → Prop) E w :
  wp (result f) Q E w =
  match server_log w !! f with
  | Some (Request _ _ _ (Some res) _) => Q res w
  | _ => E w
  end.
Proof. unfold result. wp_simpl. by destruct (_ !! _) as [[? ? ? [] ?]|]. Qed.

#[global] Hint Rewrite wp_done wp_result : wp.

(** ** Dictionaries, lists and arrays *)

Lemma dict_get_keys {V} k (d : dict V) v : dict_get k d = Some v → k ∈ dict_keys d.
Proof.
  unfold dict_keys. induction d as [|[k' v'] d IH]; simpl; [done|].
  destruct (String.eqb_spec k k') as [->|Hne]; intros H.
  - apply elem_of_cons; by left.
  - apply elem_of_cons; right; by apply IH.
Qed.








(** *** Arithmetic on the elements *)

Lemma int_bits_pos t w : int_bits t = Some w → (0 < w)%Z.
Proof. destruct t; intros [= <-]; lia. Qed.

Lemma int_not_float t w : int_bits t = Some w → float_format t = None.
Proof. by destruct t. Qed.

Lemma cast_refused_same t : cast_refused t t = false.
Proof. by destruct t. Qed.

Lemma wrap_small w z :
  (0 < w)%Z → (- 2 ^ (w - 1) ≤ z < 2 ^ (w - 1))%Z → wrap w z = z.
Proof.
  intros Hw Hz. unfold wrap.
  replace (2 ^ w)%Z with (2 * 2 ^ (w - 1))%Z
    by (rewrite <- Z.pow_succ_r by lia; f_equal; lia).
  rewrite Z.mod_small; lia.
Qed.

Lemma zero_in_range w : (0 < w)%Z → (- 2 ^ (w - 1) ≤ 0 < 2 ^ (w - 1))%Z.
Proof. intros Hw. assert (0 < 2 ^ (w - 1))%Z by (apply Z.pow_pos_nonneg; lia). lia. Qed.

(** [x * 0] is of the dtype of [x], and is a zero unless [x] is an
    infinity or a NaN. *)
Lemma mul_zero_valid t x :
  valid_scalar t x = true →
  ∃ z, mul_zero t x = Some z ∧ valid_scalar t z = true ∧
       (finite x = true → is_zero z = true).
Proof.
  destruct x as [z|f]; simpl.
  - destruct (int_bits t) as [w|] eqn:Hw; [|done]. intros _.
    pose proof (int_bits_pos _ _ Hw) as Hpos.
    eexists. split; [done|]. rewrite Z.mul_0_r.
    rewrite wrap_small by auto using zero_in_range. simpl. rewrite Hw.
    split; [|done]. apply bool_decide_eq_true. by apply zero_in_range.
  - destruct (float_format t) as [[prec emax]|] eqn:Hf; [|done]. intros _.
    eexists. split; [done|]. simpl. rewrite Hf.
    by destruct f as [s|s| |s m e].
Qed.

(** [0 + y] is [y], save that [+0.0 + -0.0] is [+0.0]. *)
Lemma add_zero t z y :
  is_zero z = true → valid_scalar t z = true → valid_scalar t y = true →
  ∃ e, add_scalar t t z y = Some e ∧ stored_as e y ∧ valid_scalar t e = true.
Proof.
  destruct z as [z|fz]; simpl.
  - intros ->%bool_decide_eq_true.
    destruct (int_bits t) as [w|] eqn:Hw; [|done]. intros _.
    pose proof (int_bits_pos _ _ Hw) as Hpos.
    destruct y as [y|fy]; simpl; [|by rewrite (int_not_float _ _ Hw)].
    rewrite Hw. intros Hy. pose proof Hy as Hy'.
    apply bool_decide_eq_true in Hy'.
    eexists. split; [done|]. rewrite Z.add_0_l, wrap_small by done.
    split; [by left|]. simpl. by rewrite Hw.
  - destruct fz as [s|s| |s m e]; try done. intros _.
    destruct (float_format t) as [[prec emax]|] eqn:Hf; [|done]. intros _.
    destruct y as [y|fy]; simpl.
    { destruct (int_bits t) as [w|] eqn:Hw; [|done].
      by rewrite (int_not_float _ _ Hw) in Hf. }
    rewrite Hf. intros Hy. rewrite decide_True by done.
    eexists. split; [done|].
    destruct fy as [sy|sy| |sy my ey]; simpl.
    + destruct s, sy; simpl; rewrite Hf; split; try done;
        try (by left); by right.
    + destruct s; rewrite Hf; split; try done; by left.
    + destruct s; rewrite Hf; split; try done; by left.
    + destruct s; rewrite Hf; split; try done; by left.
Qed.

(** *** Arithmetic on the arrays *)

Lemma mapM_mul_zero t l :
  Forall (λ x, valid_scalar t x = true) l →
  ∃ zs, mapM (mul_zero t) l = Some zs ∧ length zs = length l ∧
        Forall (λ x, valid_scalar t x = true) zs ∧
        (Forall (λ x, finite x = true) l → Forall (λ x, is_zero x = true) zs).
Proof.
  induction 1 as [|x l Hx _ (zs & Hzs & Hlen & Hv & Hz)]; simpl.
  - exists []. by repeat split.
  - destruct (mul_zero_valid t x Hx) as (z & Hz1 & Hv1 & Hz2).
    exists (z :: zs). rewrite Hz1. simpl. rewrite Hzs. simpl.
    split_and!; [done|by rewrite Hlen|by constructor|].
    intros [Hfx Hfl]%Forall_cons. constructor; auto.
Qed.

Lemma imul0_inv a z :
  imul0 a = Some z → dtype z = dtype a ∧ shape z = shape a.
Proof.
  unfold imul0. destruct (mapM _ _); simpl; [|done]. by intros [= <-].
Qed.

Lemma imul0_wf a :
  wf_ndarray a →
  ∃ z, imul0 a = Some z ∧ wf_ndarray z ∧
       (Forall (λ x, finite x = true) (data a) →
        Forall (λ x, is_zero x = true) (data z)).
Proof.
  intros [Hlen Hv]. unfold imul0.
  destruct (mapM_mul_zero _ _ Hv) as (zs & -> & Hl & Hvz & Hz). simpl.
  eexists. split; [done|]. split; [|done]. split; simpl; [congruence|done].
Qed.

Lemma add_zero_list t zs : ∀ ys,
  Forall (λ x, is_zero x = true) zs →
  Forall (λ x, valid_scalar t x = true) zs →
  Forall (λ x, valid_scalar t x = true) ys →
  length zs = length ys →
  ∃ es, mapM (λ xy, add_scalar t t xy.1 xy.2) (zip zs ys) = Some es ∧
        Forall2 stored_as es ys ∧ Forall (λ x, valid_scalar t x = true) es.
Proof.
  induction zs as [|z zs IH]; intros [|y ys] Hz Hvz Hvy Hlen; simpl in *;
    try done.
  - exists []. by repeat split.
  - apply Forall_cons in Hz as [Hz Hzs]. apply Forall_cons in Hvz as [Hvz Hvzs].
    apply Forall_cons in Hvy as [Hvy Hvys].
    destruct (add_zero t z y Hz Hvz Hvy) as (e & -> & He & Hve).
    destruct (IH ys Hzs Hvzs Hvys) as (es & -> & Hes & Hves); [lia|].
    simpl. exists (e :: es). split_and!; [done|by constructor|by constructor].
Qed.



Lemma stored_exact es ys :
  Forall2 stored_as es ys → Forall (λ y, y ≠ negative_zero) ys → es = ys.
Proof.
  induction 1 as [|e y es ys He _ IH]; [done|].
  intros [Hy Hys]%Forall_cons. f_equal; [|by apply IH].
  by destruct He as [?|[? _]].
Qed.


Lemma getitem_dtype a i b : getitem a i = Some b → dtype b = dtype a.
Proof.
  unfold getitem. destruct (shape a); [done|].
  destruct (decide _); [|done]. by intros [= <-].
Qed.

Lemma param_run key r l v :
  dict_get key (_parameters r) = Some l → heap r !! l = Some v →
  param key r = (Ok (l, v), r).
Proof. intros Hk Hl. unfold param, deref. munfold. rewrite Hk. simpl. by rewrite Hl. Qed.


(** ** The merge procedure *)

Section merge_properties.
Context (device_put : value → device_entry → outcome value).

(** The two in-place operations on a tracked array. *)
Lemma imul_zero_run key r l la :
  dict_get key (_parameters r) = Some l → heap r !! l = Some (VArray la) →
  imul_zero key r =
  match imul0 la with
  | Some z => (Ok tt, Replica (_parameters r) (<[l:=VArray z]> (heap r)))
  | None => (Unmodelled, r)
  end.
Proof.
  intros Hk Hl. unfold imul_zero. unfold mbind, M_bind.
  rewrite run_bind, (param_run _ _ _ _ Hk Hl). simpl.
  by destruct (imul0 la).
Qed.

Lemma iadd_array_run key r l a op :
  dict_get key (_parameters r) = Some l → heap r !! l = Some (VArray a) →
  iadd_array key op r =
  match op with
  | None => (Raise IndexError, r)
  | Some b =>
      match iadd a b with
      | Computed x => (Ok tt, Replica (_parameters r) (<[l:=VArray x]> (heap r)))
      | CastRefused => (Raise UFuncTypeError, r)
      | ShapesDiffer => (Raise ValueError, r)
      | NotModelled => (Unmodelled, r)
      end
  end.
Proof.
  intros Hk Hl. unfold iadd_array. unfold mbind, M_bind.
  rewrite run_bind, (param_run _ _ _ _ Hk Hl). simpl.
  destruct op as [b|]; [|done]. rewrite run_bind. simpl.
  by destruct (iadd a b).
Qed.

(** The merge of an array, step by step. *)
Lemma copy_array_run new_parameters key r l la na :
  dict_get key new_parameters = Some (VArray na) →
  dict_get key (_parameters r) = Some l →
  heap r !! l = Some (VArray la) →
  copy_key device_put [] new_parameters key r =
  match imul0 la with
  | Some z =>
      iadd_array key
        (if bool_decide (shape na ≠ shape la) then getitem na 0 else Some na)
        (Replica (_parameters r) (<[l:=VArray z]> (heap r)))
  | None => (Unmodelled, r)
  end.
Proof.
  intros Hnew Hk Hl.
  assert (Hlt : l < length (heap r)) by (by eapply lookup_lt_Some).
  unfold copy_key. unfold mbind at 1, M_bind. rewrite run_bind.
  rewrite Hnew. simpl. unfold mbind at 1, M_bind. rewrite run_bind.
  rewrite (imul_zero_run _ _ _ _ Hk Hl).
  destruct (imul0 la) as [z|] eqn:Hz; [|done].
  destruct (imul0_inv _ _ Hz) as [_ Hsz].
  set (r1 := Replica _ _).
  assert (Hp1 : param key r1 = (Ok (l, VArray z), r1)).
  { apply param_run; [done|]. simpl. by apply list_lookup_insert_eq. }
  unfold mbind at 1, M_bind. rewrite run_bind, Hp1.
  unfold mbind at 1, M_bind. rewrite run_bind.
  unfold shape_of, mret, M_ret, ret. rewrite Hsz. by destruct (bool_decide _).
Qed.




Lemma copy_key_unsupported devices new_parameters key v r :
  dict_get key new_parameters = Some v → unsupported v = true →
  copy_key device_put devices new_parameters key r =
    (Raise (NotImplementedError (type_msg v key)), r).
Proof.
  intros Hv Hu. unfold copy_key. munfold. rewrite Hv. by destruct v.
Qed.

(** C9 (amended): when the response holds, for some key, a value that is
    neither a dict, a numpy array nor a tuple, the merge of that entry
    raises NotImplementedError with the message naming its type and key;
    the merge as a whole never returns normally, and it raises that very
    error whenever the entries before it merge without error (the replica
    keeping their updates). *)
Theorem copy_unsupported_type devices new_parameters key v r :
  dict_get key new_parameters = Some v → unsupported v = true →
  copy_key device_put devices new_parameters key r =
    (Raise (NotImplementedError (type_msg v key)), r) ∧
  (_copy device_put devices new_parameters r).1 ≠ Ok tt ∧
  (∀ ks1 ks2 r1,
     dict_keys new_parameters = ks1 ++ key :: ks2 →
     for_ ks1 (copy_key device_put devices new_parameters) r = (Ok tt, r1) →
     _copy device_put devices new_parameters r =
       (Raise (NotImplementedError (type_msg v key)), r1)).
Proof.
  intros Hv Hu. split; [by apply copy_key_unsupported|]. split.
  - unfold _copy. apply for_raises with key; [by eapply dict_get_keys|].
    intros s. by rewrite (copy_key_unsupported _ _ _ v).
  - intros ks1 ks2 r1 Hks Hpre. unfold _copy. rewrite Hks, for_app, Hpre.
    simpl. unfold mbind, M_bind. rewrite run_bind.
    by rewrite (copy_key_unsupported _ _ _ v).
Qed.





End merge_properties.

(** ** The transport *)

Lemma same_request_refl r : same_request r r.
Proof. by repeat split. Qed.
Lemma same_request_trans r1 r2 r3 :
  same_request r1 r2 → same_request r2 r3 → same_request r1 r3.
Proof. unfold same_request. intros (?&?&?&?&?) (?&?&?&?&?). repeat split; try congruence. auto. Qed.
Lemma log_rel_refl l : log_rel l l.
Proof. apply Forall2_same_length_lookup. split; [done|]. intros i x y ? ?. simplify_eq. apply same_request_refl. Qed.
Lemma log_rel_trans l1 l2 l3 : log_rel l1 l2 → log_rel l2 l3 → log_rel l1 l3.
Proof.
  unfold log_rel. intros H12. revert l3. induction H12; intros l3 H23; inversion H23; subst; constructor; eauto using same_request_trans.
Qed.
Lemma log_rel_complete l f r res :
  l !! f = Some r → log_rel l (<[f:=complete res r]> l).
Proof.
  intros Hf. apply Forall2_same_length_lookup. split; [by rewrite length_insert|].
  intros i x y Hx Hy. destruct (decide (i = f)) as [->|Hne].
  - rewrite list_lookup_insert_eq in Hy by (by eapply lookup_lt_Some).
    simplify_eq. by repeat split.
  - rewrite list_lookup_insert_ne in Hy by done. simplify_eq. apply same_request_refl.
Qed.

Section client_properties.
Context (device_put : value → device_entry → outcome value).
Context (sort_str_num : list string → list string).

(** What [copy], [deliver] and [transport] leave alone. *)
Lemma copy_frame new_parameters w :
  ∃ o l, copy device_put new_parameters w = (o, set_local l w).
Proof.
  unfold copy, zoom, mbind, M_bind, bind, gets.
  destruct (_copy _ _ _ _) as [o l]. eauto.
Qed.

Lemma wp_copy new_parameters (Q : unit → world → Prop) E w :
  (∀ l, Q tt (set_local l w)) → (∀ l, E (set_local l w)) →
  wp (copy device_put new_parameters) Q E w.
Proof.
  intros HQ HE. unfold wp.
  destruct (copy_frame new_parameters w) as (o & l & ->). destruct o as [[]| |]; auto.
Qed.

Lemma deliver_frame a w :
  client (deliver device_put a w) = client w ∧
  op_count (deliver device_put a w) = op_count w ∧
  log_rel (server_log w) (server_log (deliver device_put a w)).
Proof.
  destruct a as [f res]. unfold deliver.
  destruct (server_log w !! f) as [r|] eqn:Hf; [|by auto using log_rel_refl].
  destruct (pending r); [|by auto using log_rel_refl].
  destruct (req_callback r).
  - destruct (copy_frame res (set_server_log (<[f:=complete res r]> (server_log w)) w))
      as (o & l & ->). simpl. by auto using log_rel_complete.
  - simpl. by auto using log_rel_complete.
Qed.

Lemma transport_frame l w :
  let w' := foldl (λ w a, deliver device_put a w) w l in
  client w' = client w ∧ op_count w' = op_count w ∧
  log_rel (server_log w) (server_log w').
Proof.
  revert w. induction l as [|a l IH]; intros w; simpl; [by auto using log_rel_refl|].
  destruct (IH (deliver device_put a w)) as (-> & -> & Hl).
  destruct (deliver_frame a w) as (-> & -> & Hl').
  eauto using log_rel_trans.
Qed.

Lemma transport_nil_log l w :
  server_log w = [] → foldl (λ w a, deliver device_put a w) w l = w.
Proof.
  revert w. induction l as [|[f res] l IH]; intros w Hw; cbn [foldl]; [done|].
  assert (deliver device_put (f, res) w = w) as ->; [|by apply IH].
  unfold deliver. by rewrite Hw.
Qed.

Lemma get_async_idle e w :
  _get_future (client w) = None → server_log w = [] →
  (_get_call_counter (client w) + 1 < _update_period (client w))%Z →
  get_async device_put e w =
    (Ok tt, set_client (with_get_call_counter (_get_call_counter (client w) + 1)
                          (client w)) w).
Proof.
  intros Hf Hlog Hlt. apply wp_eq. unfold get_async, update, transport. wp_simpl.
  rewrite bool_decide_true by lia. wp_simpl. simpl.
  rewrite (bool_decide_false (_ >= _)%Z) by lia. simpl. wp_simpl.
  rewrite transport_nil_log by done. simpl. rewrite Hf. by wp_simpl.
Qed.

Lemma get_async_idle_run c r envs :
  _get_future c = None → _get_call_counter c = 0%Z →
  (Z.of_nat (length envs) < _update_period c)%Z →
  run device_put (Call GetAsync <$> envs) (init_world c r) =
    idle_world c r (length envs).
Proof.
  intros Hf Hc. induction envs as [|e envs IH] using rev_ind; intros Hlen.
  - unfold idle_world, init_world. simpl. destruct c; simpl in *. by subst.
  - rewrite length_app in *. simpl in *.
    rewrite fmap_app. unfold run in *. rewrite foldl_app, IH by lia. simpl.
    rewrite get_async_idle; simpl; try done; [|lia].
    unfold idle_world, set_client. simpl. f_equal; [|lia].
    unfold with_get_call_counter. simpl. f_equal. lia.
Qed.

(** C3: on a freshly constructed client with update period [P], fewer
    than [P] calls of [get_async] send nothing to the server; with
    [1 ≤ P], the [P]-th call sends exactly one request, for [_get_keys],
    and leaves the call counter at 0. *)
Theorem get_async_periodicity parameters mp get_keys set_keys (P : Z) devices r envs :
  let w0 := init_world (init sort_str_num parameters mp get_keys set_keys P devices) r in
  let w := run device_put (Call GetAsync <$> envs) w0 in
  ((Z.of_nat (length envs) < P)%Z → server_log w = []) ∧
  (Z.of_nat (length envs) = P → (1 ≤ P)%Z →
   _get_call_counter (client w) = 0%Z ∧
   ∃ res, server_log w =
     [Request (get_parameters (NamesList (default [] get_keys))) KGet
        (length envs) res false]).
Proof.
  intros w0 w. subst w w0. set (c := init _ _ _ _ _ _ _). split.
  - intros Hlt. by rewrite get_async_idle_run.
  - intros Hlen HP. destruct envs as [|e envs _] using rev_ind; [simpl in *; lia|].
    rewrite length_app in *. simpl in *. rewrite fmap_app. unfold run.
    rewrite foldl_app. fold (run device_put (Call GetAsync <$> envs) (init_world c r)).
    rewrite get_async_idle_run by (done || simpl; lia).
    cbn [fmap list_fmap foldl step run_call].
    apply (wp_run (get_async device_put e)
      (λ w, _get_call_counter (client w) = 0%Z ∧
            ∃ res, server_log w = [Request (get_parameters (NamesList (default [] get_keys))) KGet
        (length envs + 1) res false])).
    unfold get_async, update, _async_request, send. wp_simpl. simpl.
    rewrite bool_decide_true by lia. wp_simpl. simpl.
    rewrite bool_decide_true by lia. simpl. wp_simpl. simpl.
    unfold transport. wp_simpl.
    match goal with |- context [foldl ?f ?w0 ?l] =>
      destruct (transport_frame l w0) as (Hc & _ & Hl); simpl in Hc, Hl;
      set (w1 := foldl f w0 l) in * end.
    rewrite Hc. simpl.
    apply Forall2_cons_inv_l in Hl as (r' & l' & (Hrpc & Hk & Hop & Hcb & _) & Hnil & Hw1).
    apply Forall2_nil_inv_l in Hnil as ->.
    destruct r' as [? ? ? res' ?]. simpl in Hrpc, Hk, Hop, Hcb. subst.
    rewrite Nat.add_1_r. wp_simpl. rewrite Hw1. simpl.
    destruct res' as [res|]; simpl; wp_simpl.
    + rewrite Hw1; simpl; wp_simpl.
      apply wp_copy; intros l; wp_simpl; simpl; rewrite Hc, Hw1; eauto.
    + rewrite Hc. eauto.
Qed.
End client_properties.

(** ** The outstanding-request discipline *)

Lemma log_rel_length l l' : log_rel l l' → length l' = length l.
Proof. intros H. symmetry. by eapply Forall2_length. Qed.

Lemma log_rel_lookup l l' f r' :
  log_rel l l' → l' !! f = Some r' → ∃ r, l !! f = Some r ∧ same_request r r'.
Proof. intros H Hf. by eapply Forall2_lookup_r in H as (r & ? & ?); eauto. Qed.

Lemma post_refl w : protocol_inv w → post w w.
Proof.
  intros Hinv. split; [done|]. intros f r Hf Hlen.
  apply lookup_lt_Some in Hf. lia.
Qed.

Lemma post_rel w0 w1 w' :
  post w0 w1 → log_rel (server_log w1) (server_log w') →
  (∀ k, slot_ids k (client w') = slot_ids k (client w1)) → post w0 w'.
Proof.
  intros [[Hp Hr Ho] Hs] Hrel Hsl. split; [split|].
  - intros f r' Hf Hpend.
    destruct (log_rel_lookup _ _ _ _ Hrel Hf) as (r & Hf1 & _ & Hk & _ & _ & Hpd).
    rewrite Hsl, Hk. by auto.
  - intros k f. rewrite Hsl, (log_rel_length _ _ Hrel). apply Hr.
  - intros k f g rf rg. rewrite Hsl. intros Hf Hg Hlf Hlg.
    destruct (log_rel_lookup _ _ _ _ Hrel Hlf) as (rf1 & ? & _ & _ & -> & _).
    destruct (log_rel_lookup _ _ _ _ Hrel Hlg) as (rg1 & ? & _ & _ & -> & _).
    by eauto.
  - intros f r' Hf Hlen.
    destruct (log_rel_lookup _ _ _ _ Hrel Hf) as (r & Hf1 & _ & -> & _).
    by eauto.
Qed.

Lemma post_frame w0 w1 w' :
  post w0 w1 → server_log w' = server_log w1 →
  (∀ k, slot_ids k (client w') = slot_ids k (client w1)) → post w0 w'.
Proof.
  intros Hp Hlog Hsl. eapply post_rel; [done| |done]. rewrite Hlog. apply log_rel_refl.
Qed.

Lemma inv_free w k : protocol_inv w → slot_ids k (client w) = [] → free k (server_log w).
Proof.
  intros [Hp _ _] Hk f r Hf <-. destruct (pending r) eqn:Hpend; [|done].
  specialize (Hp f r Hf Hpend). rewrite Hk in Hp. by apply elem_of_nil in Hp.
Qed.

(** Requests of kind [k] sent while the slot of [k] is empty, all by one
    call, their handles put in the slot. *)
Lemma post_send_slot w0 w' k news op :
  protocol_inv w0 → slot_ids k (client w0) = [] →
  server_log w' = server_log w0 ++ news →
  Forall (λ r, req_kind r = k ∧ req_op r = op) news →
  slot_ids k (client w') = seq (length (server_log w0)) (length news) →
  (∀ k', k' ≠ k → slot_ids k' (client w') = slot_ids k' (client w0)) →
  post w0 w'.
Proof.
  intros Hinv Hk Hlog Hnews Hslot Hothers.
  pose proof (inv_free _ _ Hinv Hk) as Hfree.
  destruct Hinv as [Hp Hr Ho].
  assert (Hnew : ∀ f r, server_log w' !! f = Some r → length (server_log w0) ≤ f →
            req_kind r = k ∧ req_op r = op ∧ f ∈ slot_ids k (client w')).
  { intros f r Hf Hlen. rewrite Hlog in Hf.
    pose proof (lookup_lt_Some _ _ _ Hf) as Hlt. rewrite length_app in Hlt.
    rewrite lookup_app_r in Hf by done.
    destruct (proj1 (Forall_lookup _ _) Hnews _ _ Hf) as [? ?].
    split; [done|]. split; [done|]. rewrite Hslot. apply elem_of_seq. lia. }
  assert (Hold : ∀ f r, server_log w' !! f = Some r → f < length (server_log w0) →
            server_log w0 !! f = Some r).
  { intros f r Hf Hlt. rewrite Hlog in Hf. by rewrite lookup_app_l in Hf. }
  split; [split|].
  - intros f r Hf Hpend. destruct (decide (f < length (server_log w0))) as [Hlt|Hge].
    + pose proof (Hold _ _ Hf Hlt) as Hf0. pose proof (Hp _ _ Hf0 Hpend) as Hin.
      destruct (decide (req_kind r = k)) as [Hk'|Hk'].
      * rewrite Hk', Hk in Hin. by apply elem_of_nil in Hin.
      * by rewrite Hothers.
    + destruct (Hnew f r Hf) as (-> & _ & ?); [lia|done].
  - intros k' f Hf. rewrite Hlog, length_app.
    destruct (decide (k' = k)) as [->|Hne].
    + rewrite Hslot in Hf. apply elem_of_seq in Hf. lia.
    + rewrite Hothers in Hf by done. apply Hr in Hf. lia.
  - intros k' f g rf rg Hf Hg Hlf Hlg. destruct (decide (k' = k)) as [->|Hne].
    + rewrite Hslot in Hf, Hg. apply elem_of_seq in Hf, Hg.
      destruct (Hnew f rf Hlf) as (_ & -> & _); [lia|].
      destruct (Hnew g rg Hlg) as (_ & -> & _); [lia|]. done.
    + rewrite Hothers in Hf, Hg by done.
      pose proof (Hr _ _ Hf). pose proof (Hr _ _ Hg). by eauto.
  - intros f r Hf Hlen. by destruct (Hnew f r Hf Hlen) as (-> & _).
Qed.

(** Requests of kind [k] answered at once (a direct call), sent while the
    slot of [k] is empty; no handle is kept. *)
Lemma post_send_done w0 w' k news :
  protocol_inv w0 → slot_ids k (client w0) = [] →
  server_log w' = server_log w0 ++ news →
  Forall (λ r, req_kind r = k ∧ pending r = false) news →
  (∀ k', slot_ids k' (client w') = slot_ids k' (client w0)) →
  post w0 w'.
Proof.
  intros Hinv Hk Hlog Hnews Hsl.
  pose proof (inv_free _ _ Hinv Hk) as Hfree.
  destruct Hinv as [Hp Hr Ho].
  assert (Hnew : ∀ f r, server_log w' !! f = Some r → length (server_log w0) ≤ f →
            req_kind r = k ∧ pending r = false).
  { intros f r Hf Hlen. rewrite Hlog in Hf. rewrite lookup_app_r in Hf by done.
    by apply (proj1 (Forall_lookup _ _) Hnews _ _ Hf). }
  assert (Hold : ∀ f r, server_log w' !! f = Some r → f < length (server_log w0) →
            server_log w0 !! f = Some r).
  { intros f r Hf Hlt. rewrite Hlog in Hf. by rewrite lookup_app_l in Hf. }
  split; [split|].
  - intros f r Hf Hpend. rewrite Hsl.
    destruct (decide (f < length (server_log w0))) as [Hlt|Hge]; [by eauto|].
    destruct (Hnew f r Hf) as [_ ?]; [lia|congruence].
  - intros k' f Hf. rewrite Hsl in Hf. rewrite Hlog, length_app. apply Hr in Hf. lia.
  - intros k' f g rf rg. rewrite Hsl. intros Hf Hg Hlf Hlg.
    pose proof (Hr _ _ Hf). pose proof (Hr _ _ Hg). by eauto.
  - intros f r Hf Hlen. by destruct (Hnew f r Hf Hlen) as [-> _].
Qed.

(** The slot of [k] is emptied when its requests are resolved. *)
Lemma post_clear w0 w1 w' k :
  post w0 w1 → server_log w' = server_log w1 →
  (∀ f, f ∈ slot_ids k (client w1) →
        ∃ r, server_log w1 !! f = Some r ∧ pending r = false) →
  slot_ids k (client w') = [] →
  (∀ k', k' ≠ k → slot_ids k' (client w') = slot_ids k' (client w1)) →
  post w0 w'.
Proof.
  intros [[Hp Hr Ho] Hs] Hlog Hdone Hk Hothers. split; [split|].
  - intros f r. rewrite Hlog. intros Hf Hpend. pose proof (Hp _ _ Hf Hpend) as Hin.
    destruct (decide (req_kind r = k)) as [Hk'|Hk'].
    + rewrite Hk' in Hin. destruct (Hdone _ Hin) as (r' & ? & ?). congruence.
    + by rewrite Hothers.
  - intros k' f. rewrite Hlog. destruct (decide (k' = k)) as [->|Hne].
    + rewrite Hk. by intros ?%elem_of_nil.
    + rewrite Hothers by done. apply Hr.
  - intros k' f g rf rg. rewrite Hlog. destruct (decide (k' = k)) as [->|Hne].
    + rewrite Hk. by intros ?%elem_of_nil.
    + rewrite Hothers by done. apply Ho.
  - intros f r. rewrite Hlog. apply Hs.
Qed.

Section protocol_properties.
Context (device_put : value → device_entry → outcome value).
Context (sort_str_num : list string → list string).

Lemma wp_set_payload (Q : dict value → world → Prop) E w :
  (∀ p l, Q p (set_local l w)) → (∀ l, E (set_local l w)) →
  wp set_payload Q E w.
Proof. intros HQ HE. unfold set_payload. wp_simpl. by apply wp_any. Qed.

Lemma wp_transport l (Q : unit → world → Prop) E w :
  (∀ w', client w' = client w → op_count w' = op_count w →
         log_rel (server_log w) (server_log w') → Q tt w') →
  wp (transport device_put l) Q E w.
Proof.
  intros HQ. unfold transport. wp_simpl.
  destruct (transport_frame device_put l w) as (? & ? & ?). by apply HQ.
Qed.

Ltac slots :=
  intros []; try done; simpl; try congruence;
  repeat match goal with H : _ (client _) = _ |- _ => rewrite H end; done.

Lemma post_set_local w0 w l : post w0 w → post w0 (set_local l w).
Proof. intros H. by eapply post_frame. Qed.

Lemma poll_post w0 w :
  post w0 w →
  wp (c ← gets client;
      match _get_future c with
      | Some f =>
          d ← done f;
          when d (r ← result f; copy device_put r;;
                  update (with_get_future None))
      | None => mret tt
      end) (λ _, post w0) (post w0) w.
Proof.
  intros Hpost. unfold update. wp_simpl.
  destruct (_get_future (client w)) as [f|] eqn:Hf; wp_simpl; [|done].
  destruct (server_log w !! f) as [r|] eqn:Hr; [|done].
  destruct r as [rp rk ro [res|] rc]; simpl; wp_simpl; [|done].
  rewrite Hr. wp_simpl. apply wp_copy; intros l; wp_simpl; [|by apply post_set_local].
  eapply (post_clear _ (set_local l w) _ KGet); [by apply post_set_local|done| |done|slots].
  simpl. rewrite Hf. intros f' ->%list_elem_of_singleton. eauto.
Qed.

Lemma get_async_post e w :
  protocol_inv w → wp (get_async device_put e) (λ _, post w) (post w) w.
Proof.
  intros Hinv. unfold get_async.
  unfold update, _async_request, send. wp_simpl.
  assert (Htail : ∀ w1, post w w1 →
    wp (transport device_put (arrivals e))
      (λ _ s', wp (bind (gets client) (λ c,
         match _get_future c with
         | Some f => bind (done f) (λ d, when d (bind (result f) (λ r,
              bind (copy device_put r) (λ _,
                modify (λ w, set_client (with_get_future None (client w)) w)))))
         | None => ret tt
         end)) (λ _, post w) (post w) s') (post w) w1).
  { intros w1 Hw1. apply wp_transport. intros w' Hc _ Hrel.
    apply poll_post. eapply post_rel; [done|done|]. by rewrite Hc. }
  destruct (bool_decide (_get_call_counter _ < _)%Z); wp_simpl; simpl;
    (destruct (bool_decide (_ >= _)%Z); simpl;
     [destruct (_get_future (client w)) as [f|] eqn:Hf; simpl|]);
    wp_simpl; apply Htail;
    try (eapply post_frame; [by apply post_refl|done|slots]);
    (eapply (post_send_slot w _ KGet [_]);
      [done|by simpl; rewrite Hf|done|by repeat constructor|by simpl|slots]).
Qed.

Lemma post_trans w0 w1 w2 :
  post w0 w1 → server_log w1 = server_log w0 → post w1 w2 → post w0 w2.
Proof.
  intros _ Hlog [Hinv Hs]. split; [done|]. intros f r. rewrite <- Hlog. apply Hs.
Qed.

Lemma post_id w w1 :
  protocol_inv w → server_log w1 = server_log w →
  (∀ k, slot_ids k (client w1) = slot_ids k (client w)) → post w w1.
Proof. intros ? ? ?. eapply post_frame; [by apply post_refl|done|done]. Qed.

Ltac post_frame_tac := by (apply post_id; [done|done|slots]).

Lemma set_async_post params w :
  protocol_inv w → wp (set_async params) (λ _, post w) (post w) w.
Proof.
  intros Hinv. unfold set_async.
  unfold update, _async_adjust, _async_adjust_param, send. wp_simpl.
  destruct (bool_decide (_set_call_counter _ < _)%Z); wp_simpl; simpl.
  all: destruct (bool_decide (_ >= _)%Z); simpl.
  all: destruct (_set_future (client w)) as [f|] eqn:Hf; simpl; wp_simpl; simpl.
  all: try post_frame_tac.
  all: try (destruct (server_log w !! f) as [[rp rk ro [res|] rc]|] eqn:Hr;
         simpl; wp_simpl; try post_frame_tac;
         eapply (post_clear _ w _ KSet);
           [by apply post_refl|done| |by simpl|slots];
         simpl; rewrite Hf; intros f' ->%list_elem_of_singleton; by eauto).
  all: destruct params as [p|]; wp_simpl; simpl.
  all: try (apply wp_set_payload; [intros p l|intros l; post_frame_tac];
            wp_simpl; simpl).
  all: eapply (post_send_slot w _ KSet [_]);
      [done|by simpl; rewrite Hf|done|by repeat constructor|by simpl|slots].
Qed.

Lemma set_and_get_async_post e w :
  protocol_inv w →
  wp (set_and_get_async device_put e) (λ _, post w) (post w) w.
Proof.
  intros Hinv. unfold set_and_get_async.
  unfold update, _async_adjust_and_request, _adjust_and_request, send. wp_simpl.
  destruct (bool_decide (_set_get_call_counter _ < _)%Z); wp_simpl; simpl.
  all: destruct (bool_decide (_ >= _)%Z); simpl.
  all: destruct (_set_get_future (client w)) as [[s g]|] eqn:Hf; simpl;
    wp_simpl; simpl.
  all: try post_frame_tac.
  all: try (destruct (server_log w !! s) as [[rp rk ro res rc]|] eqn:Hs;
         simpl; wp_simpl; simpl; [|post_frame_tac];
         destruct (server_log w !! g) as [[rp' rk' ro' res' rc']|] eqn:Hg;
         simpl; wp_simpl; simpl; [|post_frame_tac];
         destruct res as [res|], res' as [res'|]; simpl; wp_simpl; simpl;
         try post_frame_tac;
         eapply (post_clear _ w _ KSetGet);
           [by apply post_refl|done| |by simpl|slots];
         simpl; rewrite Hf;
         intros f' [->| ->%list_elem_of_singleton]%elem_of_cons; by eauto).
  all: destruct (_multi_process (client w)); simpl; wp_simpl.
  all: apply wp_set_payload; [intros p l|intros l; post_frame_tac];
    wp_simpl; simpl.
  all: try (eapply (post_send_slot w _ KSetGet [_; _]);
      [done|by simpl; rewrite Hf|by simpl; rewrite <- app_assoc
      |by repeat constructor
      |by simpl; rewrite length_app, Nat.add_1_r|slots]).
  all: apply wp_copy; intros l'; wp_simpl; simpl.
  all: eapply (post_send_done w _ KSetGet [_; _]);
    [done|by simpl; rewrite Hf|by simpl; rewrite <- app_assoc
    |by repeat constructor|slots].
Qed.

Lemma buffer_iadd_quiet params w name s :
  quiet w s → wp (buffer_iadd params name) (λ _, quiet w) (quiet w) s.
Proof.
  intros [Hl Hs]. unfold buffer_iadd, update. wp_simpl.
  destruct (dict_get name (_async_add_buffer _)); [|done]. wp_simpl.
  destruct (dict_get name params); [|done]. wp_simpl.
  split; [done|]. intros k. rewrite <- Hs. by destruct k.
Qed.

Lemma buffer_assign_quiet params w name s :
  quiet w s → wp (buffer_assign params name) (λ _, quiet w) (quiet w) s.
Proof.
  intros [Hl Hs]. unfold buffer_assign, update. wp_simpl.
  destruct (dict_get name params); [|done]. wp_simpl.
  split; [done|]. intros k. rewrite <- Hs. by destruct k.
Qed.

Lemma post_quiet w s : protocol_inv w → quiet w s → post w s.
Proof. intros ? [? ?]. by apply post_id. Qed.

Lemma buffer_loop_quiet (body : string → M world unit) names w s :
  protocol_inv w → quiet w s →
  (∀ name s', quiet w s' → wp (body name) (λ _, quiet w) (quiet w) s') →
  wp (for_ names body) (λ _, quiet w) (post w) s.
Proof.
  intros Hinv Hq Hbody. eapply wp_for; [exact Hq| |done].
  intros x s' Hs'. eapply wp_mono; [by apply Hbody|done|].
  intros; by apply post_quiet.
Qed.

Lemma add_async_post params w :
  protocol_inv w → wp (add_async params) (λ _, post w) (post w) w.
Proof.
  intros Hinv. unfold add_async. wp_simpl.
  match goal with |- wp _ (λ _ s', wp ?rest _ _ s') _ _ =>
    assert (Hrest : ∀ w1, protocol_inv w1 →
              wp rest (λ _, post w1) (post w1) w1) end.
  { clear w Hinv. intros w Hinv. unfold update, _async_add, send. wp_simpl.
    assert (Hq : quiet w w) by done.
    destruct (_add_future (client w)) as [f|] eqn:Hf.
    - destruct (truthy _).
      + eapply wp_mono;
          [by apply buffer_loop_quiet; [| |apply buffer_iadd_quiet]| |done].
        intros; by apply post_quiet.
      + eapply wp_mono;
          [by apply buffer_loop_quiet; [| |apply buffer_assign_quiet]| |done].
        intros; by apply post_quiet.
    - destruct (truthy _); simpl; wp_simpl.
      + eapply wp_mono;
          [by apply buffer_loop_quiet; [| |apply buffer_iadd_quiet]| |done].
        intros [] s [Hl Hs]. wp_simpl. simpl.
        eapply (post_send_slot w _ KAdd [_]);
          [done|by simpl; rewrite Hf|by simpl; rewrite Hl|by repeat constructor
          |by simpl; rewrite Hl|].
        intros k' Hk'. rewrite <- Hs. by destruct k'.
      + eapply (post_send_slot w _ KAdd [_]);
          [done|by simpl; rewrite Hf|done|by repeat constructor|by simpl|slots]. }
  unfold update.
  assert (Hgo : ∀ w1, post w w1 → server_log w1 = server_log w →
    wp (bind (gets client) (λ c,
      match _add_future c with
      | None =>
          if negb (truthy (_async_add_buffer c))
          then bind (_async_add params) (λ f, update (with_add_future (Some f)))
          else bind (for_ (dict_keys params) (buffer_iadd params)) (λ _,
               bind (gets client) (λ c0,
               bind (_async_add (_async_add_buffer c0)) (λ f,
               bind (update (with_add_future (Some f))) (λ _,
               update (with_async_add_buffer [])))))
      | Some _ =>
          if truthy (_async_add_buffer c)
          then for_ (dict_keys params) (buffer_iadd params)
          else for_ (dict_keys params) (buffer_assign params)
      end)) (λ _, post w) (post w) w1).
  { intros w1 Hp Hl. eapply wp_mono; [apply Hrest; by destruct Hp| |];
      intros; by eapply post_trans. }
  destruct (_add_future (client w)) as [f|] eqn:Hf; wp_simpl.
  - destruct (server_log w !! f) as [[rp rk ro [res|] rc]|] eqn:Hr;
      simpl; wp_simpl; [| |by apply post_refl].
    + apply Hgo; [|done].
      eapply (post_clear _ w _ KAdd); [by apply post_refl|done| |by simpl|slots].
      simpl. rewrite Hf. intros f' ->%list_elem_of_singleton. by eauto.
    + apply Hgo; [by apply post_refl|done].
  - apply Hgo; [by apply post_refl|done].
Qed.

Lemma wait_post c e w :
  protocol_inv w →
  match c with
  | AddAndWait _ | GetAndWait | GetAllAndWait | SetAndWait _ => True
  | _ => False
  end →
  wp (run_call device_put c e) (λ _, post w) (post w) w.
Proof.
  intros Hinv Hc.
  assert (Hsend : ∀ l r, pending r = false → req_kind r = KWait →
    post w (set_local l (set_server_log (server_log w ++ [r]) w))).
  { intros l r Hp Hk. eapply (post_send_done w _ KWait [r]);
      [done|done|done|by repeat constructor|slots]. }
  destruct c as [| | | |params| | |params]; try done; simpl.
  - unfold add_and_wait, _add, send. wp_simpl. simpl.
    by apply (Hsend (local w)).
  - unfold get_and_wait, _request, send. wp_simpl. simpl.
    apply wp_copy; intros l; by apply Hsend.
  - unfold get_all_and_wait, _request_all, send. wp_simpl. simpl.
    apply wp_copy; intros l; by apply Hsend.
  - unfold set_and_wait, _adjust, _adjust_param, send.
    destruct params as [p|]; wp_simpl; simpl.
    + by apply (Hsend (local w)).
    + apply wp_set_payload; [intros p l|intros l; post_frame_tac].
      wp_simpl. simpl. by apply Hsend.
Qed.

Lemma run_call_post c e w :
  protocol_inv w → wp (run_call device_put c e) (λ _, post w) (post w) w.
Proof.
  intros Hinv. destruct c; try (by apply wait_post); simpl.
  - by apply get_async_post.
  - by apply set_async_post.
  - by apply set_and_get_async_post.
  - by apply add_async_post.
Qed.

Lemma step_post ev w : protocol_inv w → post w (step device_put ev w).2.
Proof.
  intros Hinv. destruct ev as [c e|f res]; simpl.
  - assert (Hw1 : post w (set_op_count (S (op_count w)) w)) by post_frame_tac.
    eapply post_trans; [exact Hw1|done|].
    apply (wp_run (run_call device_put c e)). apply run_call_post. by destruct Hw1.
  - destruct (deliver_frame device_put (f, res) w) as (Hc & _ & Hrel).
    eapply post_rel; [by apply post_refl|done|]. by rewrite Hc.
Qed.

Lemma run_inv evs w : protocol_inv w → protocol_inv (run device_put evs w).
Proof.
  revert w. induction evs as [|ev evs IH]; intros w Hinv; simpl; [done|].
  apply IH. by destruct (step_post ev w Hinv).
Qed.

Lemma init_inv c r :
  _get_future c = None → _set_future c = None → _set_get_future c = None →
  _add_future c = None → protocol_inv (init_world c r).
Proof.
  intros H1 H2 H3 H4. split; simpl.
  - by intros f r'.
  - intros []; simpl; rewrite ?H1, ?H2, ?H3, ?H4; by intros f ?%elem_of_nil.
  - intros []; simpl; rewrite ?H1, ?H2, ?H3, ?H4; by intros f g rf rg ?%elem_of_nil.
Qed.

Lemma length_all_equal {A} (l : list A) :
  NoDup l → (∀ x y, x ∈ l → y ∈ l → x = y) → length l ≤ 1.
Proof.
  intros Hnd Heq. destruct l as [|x [|y l]]; simpl; try lia.
  apply NoDup_cons in Hnd as [Hx _]. exfalso. apply Hx.
  rewrite (Heq x y); [by left|by left|by right; left].
Qed.

Lemma elem_of_outstanding k w op :
  op ∈ outstanding k w ↔
  ∃ f r, server_log w !! f = Some r ∧ pending r = true ∧ req_kind r = k ∧
         req_op r = op.
Proof.
  unfold outstanding. rewrite elem_of_remove_dups, list_elem_of_fmap. split.
  - intros (r & -> & ([Hp Hk] & Hr)%list_elem_of_filter).
    apply list_elem_of_lookup in Hr as [f Hf]. by eauto 10.
  - intros (f & r & Hf & Hp & Hk & Hop). exists r. split; [done|].
    apply list_elem_of_filter. split; [done|]. by eapply list_elem_of_lookup_2.
Qed.

Lemma outstanding_le_1 k w : protocol_inv w → length (outstanding k w) ≤ 1.
Proof.
  intros [Hp Hr Ho]. apply length_all_equal; [apply NoDup_remove_dups|].
  intros x y (f & rf & Hf & Hpf & Hkf & <-)%elem_of_outstanding
             (g & rg & Hg & Hpg & Hkg & <-)%elem_of_outstanding.
  eapply (Ho k f g); [| |done|done].
  - rewrite <- Hkf. by apply Hp.
  - rewrite <- Hkg. by apply Hp.
Qed.

Lemma outstanding_all_le_4 w : protocol_inv w → length (outstanding_all w) ≤ 4.
Proof.
  intros Hinv.
  set (S := outstanding KGet w ++ outstanding KSet w ++ outstanding KSetGet w
            ++ outstanding KAdd w).
  assert (HS : length S ≤ 4).
  { unfold S. rewrite !length_app.
    pose proof (outstanding_le_1 KGet w Hinv).
    pose proof (outstanding_le_1 KSet w Hinv).
    pose proof (outstanding_le_1 KSetGet w Hinv).
    pose proof (outstanding_le_1 KAdd w Hinv). lia. }
  etrans; [|exact HS]. apply submseteq_length, NoDup_submseteq.
  { apply NoDup_remove_dups. }
  intros op. unfold outstanding_all.
  rewrite elem_of_remove_dups, list_elem_of_fmap.
  intros (r & -> & (Hpend & Hr)%list_elem_of_filter).
  apply list_elem_of_lookup in Hr as [f Hf].
  assert (req_op r ∈ outstanding (req_kind r) w) as Hin.
  { apply elem_of_outstanding. by eauto 10. }
  pose proof (inv_pending w Hinv f r Hf Hpend) as Hslot.
  unfold S. rewrite !elem_of_app.
  destruct (req_kind r); auto. simpl in Hslot. by apply elem_of_nil in Hslot.
Qed.

(** C2: after any history of calls and completions on a fresh client, each
    kind of request (get, set, set-and-get, add) has unresolved requests
    of at most one client call, at most 4 client calls have an unresolved
    request at all, and whatever call comes next, the requests it sends
    are of kinds that have no unresolved request (so [get_async] never
    sends a second get request while one is outstanding).  The combined
    set-then-get request counts as one: it is a pair of futures. *)
Theorem at_most_one_outstanding parameters mp get_keys set_keys P devices r evs :
  let w := run device_put evs
             (init_world
                (init sort_str_num parameters mp get_keys set_keys P devices) r) in
  (∀ k, length (outstanding k w) ≤ 1) ∧
  length (outstanding_all w) ≤ 4 ∧
  (∀ c e, sends_when_free w (step device_put (Call c e) w).2).
Proof.
  intros w. assert (Hinv : protocol_inv w) by (by apply run_inv, init_inv).
  split; [|split].
  - intros k. by apply outstanding_le_1.
  - by apply outstanding_all_le_4.
  - intros c e. by destruct (step_post (Call c e) w Hinv).
Qed.
End protocol_properties.

(** ** The deltas of [add_async] *)

Lemma dict_get_set_eq {V} k (v : V) d : dict_get k (dict_set k v d) = Some v.
Proof.
  induction d as [|[k' v'] d IH]; simpl.
  - by rewrite String.eqb_refl.
  - destruct (String.eqb_spec k k') as [->|Hne]; simpl.
    + by rewrite String.eqb_refl.
    + by destruct (String.eqb_spec k k').
Qed.

Lemma dict_get_set_ne {V} k k' (v : V) d :
  k ≠ k' → dict_get k (dict_set k' v d) = dict_get k d.
Proof.
  intros Hne. induction d as [|[k0 v0] d IH]; simpl.
  - by destruct (String.eqb_spec k k').
  - destruct (String.eqb_spec k' k0) as [->|Hne']; simpl.
    + by destruct (String.eqb_spec k k0).
    + destruct (String.eqb_spec k k0); [done|apply IH].
Qed.

Lemma dict_get_not_key {V} k (d : dict V) : k ∉ dict_keys d → dict_get k d = None.
Proof.
  destruct (dict_get k d) eqn:H; [|done]. intros []. by eapply dict_get_keys.
Qed.

Lemma delta_set k k' v d :
  delta k (dict_set k' v d) = if decide (k = k') then v else delta k d.
Proof.
  unfold delta. destruct (decide (k = k')) as [->|Hne].
  - by rewrite dict_get_set_eq.
  - by rewrite dict_get_set_ne.
Qed.

Lemma sent_app k l1 l2 : sent k (l1 ++ l2) = (sent k l1 + sent k l2)%Z.
Proof.
  induction l1 as [|r l1 IH]; simpl; [done|].
  destruct (req_rpc r), (req_kind r); lia.
Qed.

Lemma sent_log_rel k l l' : log_rel l l' → sent k l' = sent k l.
Proof.
  induction 1 as [|r r' l l' (Hrpc & Hk & _) _ IH]; simpl; [done|].
  by rewrite Hrpc, Hk, IH.
Qed.

(** The loop [for name in names: buffer[name] += params[name]], when it
    ends normally, adds the deltas of [params] key by key. *)
Lemma buffer_iadd_loop params k names : ∀ w,
  NoDup names →
  wp (for_ names (buffer_iadd params))
     (λ _ w', quiet w w' ∧
        delta k (_async_add_buffer (client w')) =
        (delta k (_async_add_buffer (client w)) +
         if decide (k ∈ names) then delta k params else 0)%Z)
     (λ _, True) w.
Proof.
  induction names as [|x names IH]; intros w Hnd; simpl.
  - wp_simpl. split; [done|lia].
  - apply NoDup_cons in Hnd as [Hx Hnd]. wp_simpl. unfold buffer_iadd at 1, update.
    wp_simpl.
    destruct (dict_get x (_async_add_buffer (client w))) as [old|] eqn:Hold; [|done].
    destruct (dict_get x params) as [v|] eqn:Hv; [|done]. wp_simpl.
    eapply wp_mono; [by apply IH| |done]. simpl.
    intros _ w' [[Hl Hs] Hd]. split.
    { split; [done|]. intros k'. rewrite Hs. by destruct k'. }
    assert (Hdo : delta x (_async_add_buffer (client w)) = old).
    { unfold delta. by rewrite Hold. }
    assert (Hdv : delta x params = v) by (unfold delta; by rewrite Hv).
    simpl in Hd. rewrite Hd, delta_set.
    destruct (decide (k = x)) as [->|Hne].
    + rewrite decide_False by done. rewrite decide_True by (by left). lia.
    + destruct (decide (k ∈ names)) as [Hin|Hin].
      * rewrite decide_True by (by right). done.
      * rewrite decide_False; [done|]. by intros [?|?]%elem_of_cons.
Qed.

(** The loop [for name in names: buffer[name] = params[name]]. *)
Lemma buffer_assign_loop params k names : ∀ w,
  wp (for_ names (buffer_assign params))
     (λ _ w', quiet w w' ∧
        delta k (_async_add_buffer (client w')) =
        if decide (k ∈ names) then delta k params
        else delta k (_async_add_buffer (client w)))
     (λ _, True) w.
Proof.
  induction names as [|x names IH]; intros w; simpl.
  - wp_simpl. by split.
  - wp_simpl. unfold buffer_assign at 1, update. wp_simpl.
    destruct (dict_get x params) as [v|] eqn:Hv; [|done]. wp_simpl.
    eapply wp_mono; [by apply IH| |done]. simpl.
    intros _ w' [[Hl Hs] Hd]. split.
    { split; [done|]. intros k'. rewrite Hs. by destruct k'. }
    simpl in Hd. rewrite Hd, delta_set.
    destruct (decide (k ∈ names)) as [Hin|Hin].
    + by rewrite decide_True by (by right).
    + destruct (decide (k = x)) as [->|Hne].
      * rewrite decide_True by (by left). unfold delta. by rewrite Hv.
      * rewrite decide_False; [done|]. by intros [?|?]%elem_of_cons.
Qed.

Lemma delta_keys k params :
  (if decide (k ∈ dict_keys params) then delta k params else 0%Z) = delta k params.
Proof.
  destruct (decide _) as [|Hn]; [done|]. unfold delta.
  by rewrite dict_get_not_key.
Qed.

Lemma truthy_false {V} (d : dict V) : truthy d = false → d = [].
Proof. by destruct d. Qed.

(** A call of [add_async] that returns normally adds its deltas to what is
    sent or buffered, key by key. *)
Lemma add_async_delivered params w k :
  NoDup (dict_keys params) →
  wp (add_async params)
     (λ _ w', delivered k w' = (delivered k w + delta k params)%Z)
     (λ _, True) w.
Proof.
  intros Hnd. unfold add_async. wp_simpl.
  match goal with |- wp _ (λ _ s', wp ?rest _ _ s') _ _ =>
    assert (Hrest : ∀ w1,
      wp rest (λ _ w', delivered k w' = (delivered k w1 + delta k params)%Z)
         (λ _, True) w1) end.
  { clear w. intros w. unfold update, _async_add, send. wp_simpl.
    destruct (_add_future (client w)) as [f|] eqn:Hf.
    - destruct (truthy _) eqn:Ht.
      + eapply wp_mono; [by apply (buffer_iadd_loop params k)| |done]. simpl.
        intros _ w' [[Hl _] Hd]. unfold delivered. rewrite Hl, Hd, delta_keys. lia.
      + eapply wp_mono; [by apply (buffer_assign_loop params k)| |done]. simpl.
        intros _ w' [[Hl _] Hd]. unfold delivered.
        rewrite Hl, Hd, (truthy_false _ Ht).
        change (delta k []) with 0%Z. rewrite delta_keys. lia.
    - destruct (truthy _) eqn:Ht; simpl; wp_simpl.
      + eapply wp_mono; [by apply (buffer_iadd_loop params k)| |done]. simpl.
        intros _ w' [[Hl _] Hd]. wp_simpl. unfold delivered. simpl.
        rewrite sent_app, Hl. simpl. rewrite Hd, delta_keys.
        change (delta k []) with 0%Z. lia.
      + unfold delivered. simpl. rewrite sent_app, (truthy_false _ Ht). simpl.
        change (delta k []) with 0%Z. lia. }
  unfold update.
  destruct (_add_future (client w)) as [f|] eqn:Hf; wp_simpl; [|by apply Hrest].
  destruct (server_log w !! f) as [[rp rk ro [res|] rc]|] eqn:Hr;
    simpl; wp_simpl; [| |done].
  - eapply wp_mono; [by apply Hrest| |done]. simpl. intros _ w' ->. done.
  - by apply Hrest.
Qed.

Section add_properties.
Context (device_put : value → device_entry → outcome value).

(** As long as no call raises, no delta is lost or counted twice. *)
Lemma add_async_conservation evs k : ∀ w,
  add_history evs → returns_normally device_put evs w →
  delivered k (run device_put evs w) = (delivered k w + passed k evs)%Z.
Proof.
  induction evs as [|ev evs IH]; intros w Hh Hn; simpl; [lia|].
  apply Forall_cons in Hh as [Hev Hh]. destruct Hn as [Hok Hn].
  fold (run device_put evs (step device_put ev w).2).
  rewrite IH by done. destruct ev as [[]|f res]; try done.
  - simpl in Hok |- *.
    pose proof (add_async_delivered params
                  (set_op_count (S (op_count w)) w) k Hev) as Hwp.
    unfold wp in Hwp.
    destruct (add_async params _) as [[[]| |] w']; try done. simpl.
    rewrite Hwp. unfold delivered. simpl. lia.
  - simpl. destruct (deliver_frame device_put (f, res) w) as (Hc & _ & Hrel).
    unfold delivered. rewrite Hc, (sent_log_rel _ _ _ Hrel). lia.
Qed.
End add_properties.

(** C1 (defect of the code): while a request is in flight and the buffer
    is not empty, a call of [add_async] with a key that the buffer does
    not hold raises KeyError, and its delta is neither sent nor buffered:
    here 1 was passed for ["b"] and nothing is ever delivered for it,
    also after the request in flight completes and the buffer is flushed. *)
Theorem add_async_drops_delta_of_new_key :
  let h := [Call (AddAsync [("a", 1%Z)]) no_env;
            Call (AddAsync [("a", 1%Z)]) no_env] in
  let late := [Complete 0 []; Call (AddAsync [("a", 1%Z)]) no_env] in
  let w := run device_put_id h counter_world in
  let w' := (step device_put_id (Call (AddAsync [("b", 1%Z)]) no_env) w).2 in
  (step device_put_id (Call (AddAsync [("b", 1%Z)]) no_env) w).1
    = Raise (KeyError "b") ∧
  passed "b" (h ++ [Call (AddAsync [("b", 1%Z)]) no_env] ++ late) = 1%Z ∧
  delivered "b" w' = 0%Z ∧
  delivered "b" (run device_put_id late w') = 0%Z ∧
  delivered "a" (run device_put_id late w') = 3%Z.
Proof. vm_compute. by repeat split. Qed.

(** C4 (defect of the code): with a request in flight and a non-empty
    buffer, a call of [add_async] whose dictionary has a key that the
    buffer does not hold is accumulated for the keys before that key only,
    and raises KeyError: the delta 4 for ["b"] is not accumulated. *)
Theorem add_async_buffer_misses_new_key :
  let h := [Call (AddAsync [("a", 1%Z)]) no_env;
            Call (AddAsync [("a", 2%Z)]) no_env] in
  let w := run device_put_id h counter_world in
  let r := step device_put_id (Call (AddAsync [("a", 3%Z); ("b", 4%Z)]) no_env) w in
  _add_future (client w) = Some 0 ∧
  _async_add_buffer (client w) = [("a", 2%Z)] ∧
  r.1 = Raise (KeyError "b") ∧
  _async_add_buffer (client r.2) = [("a", 5%Z)] ∧
  server_log r.2 = server_log w.
Proof. vm_compute. by repeat split. Qed.

(** ** What the calls send and when the replica is merged *)

Lemma wp_known {S A} (m : M S A) (Q : A → S → Prop) E s a s' :
  m s = (Ok a, s') → wp m Q E s = Q a s'.
Proof. unfold wp. by intros ->. Qed.

Lemma param_state key r : (param key r).2 = r.
Proof.
  unfold param, deref. munfold. destruct (dict_get key (_parameters r)); [|done].
  simpl. by destruct (heap r !! _).
Qed.

Lemma bind_state {S A B} (m : M S A) (k : A → M S B) s :
  (m s).2 = s → (∀ a, (k a s).2 = s) → (bind m k s).2 = s.
Proof.
  unfold bind. destruct (m s) as [[a|e|] s']; simpl; intros ->; auto.
Qed.

Lemma set_payload_state w : (set_payload w).2 = w.
Proof.
  unfold set_payload, mbind, M_bind. unfold bind at 1, gets at 1, zoom.
  match goal with |- context [foldl ?F ?a ?l ?r0] =>
    assert (H : ∀ keys (acc : M replica (dict value)),
              (∀ t, (acc t).2 = t) → ∀ t, (foldl F acc keys t).2 = t) end.
  { induction keys as [|key keys IH]; intros acc Hacc; simpl; [done|].
    apply IH. intros r. apply bind_state; [done|]. intros d.
    apply bind_state; [apply param_state|]. by intros [l v]. }
  specialize (H (_set_keys (client w)) (mret []) (λ _, eq_refl) (local w)).
  match goal with |- context [foldl ?F ?a ?l ?r0] =>
    destruct (foldl F a l r0) as [o t] end.
  simpl in *. subst. by destruct w.
Qed.

Lemma set_payload_run w p : (set_payload w).1 = Ok p → set_payload w = (Ok p, w).
Proof.
  intros H. pose proof (set_payload_state w).
  destruct (set_payload w); simpl in *; by subst.
Qed.

Lemma set_payload_frame w w1 :
  _set_keys (client w1) = _set_keys (client w) → local w1 = local w →
  (set_payload w1).1 = (set_payload w).1.
Proof.
  intros Hk Hl. unfold set_payload, mbind, M_bind, bind, gets, zoom.
  rewrite Hk, Hl.
  match goal with |- context [foldl ?F ?a ?l ?r0] =>
    by destruct (foldl F a l r0) as [o t] end.
Qed.

Lemma wp_set_payload_known (Q : dict value → world → Prop) E w w1 p :
  (set_payload w).1 = Ok p →
  _set_keys (client w1) = _set_keys (client w) → local w1 = local w →
  wp set_payload Q E w1 = Q p w1.
Proof.
  intros Hp Hk Hl. apply wp_known, set_payload_run.
  by rewrite (set_payload_frame w w1).
Qed.

Lemma wp_outcome {S A} (m : M S A) (P : S → Prop) (a0 : A) s :
  wp m (λ a s', a = a0 ∧ P s') (λ _, False) s → (m s).1 = Ok a0 ∧ P (m s).2.
Proof. unfold wp. destruct (m s) as [[a|e|] s']; try done. by intros [-> ?]. Qed.

Section exchange_properties.
Context (device_put : value → device_entry → outcome value).

Lemma copy_run new_parameters w :
  copy device_put new_parameters w =
  ((_copy device_put (_devices (client w)) new_parameters (local w)).1,
   set_local (_copy device_put (_devices (client w)) new_parameters (local w)).2 w).
Proof.
  unfold copy, zoom, mbind, M_bind, bind, gets.
  by destruct (_copy _ _ _ _).
Qed.

Lemma wp_copy_run new_parameters (Q : unit → world → Prop) E w :
  (let w' := set_local (_copy device_put (_devices (client w)) new_parameters
                          (local w)).2 w in
   Q tt w' ∧ E w') →
  wp (copy device_put new_parameters) Q E w.
Proof.
  intros [HQ HE]. unfold wp. rewrite copy_run.
  by destruct (_copy _ _ _ _).1 as [[]| |].
Qed.

Lemma deliver_callback f res w r :
  server_log w !! f = Some r → pending r = true → req_callback r = true →
  local (deliver device_put (f, res) w) =
    (_copy device_put (_devices (client w)) res (local w)).2.
Proof.
  intros Hf Hp Hc. unfold deliver. rewrite Hf, Hp, Hc, copy_run. done.
Qed.

(** C5 (amended): when [set_and_get_async] is triggered (gate reached, no
    combined request outstanding, [set_keys] all tracked), a multi-process
    client sends the [set_keys] subset and then requests exactly the set
    difference [get_keys ∖ set_keys], both pending, and the completion of
    the get half merges its result into the replica; a single-process
    client sets the [set_keys] subset, then fetches all of [get_keys] and
    merges the answer in the same call. *)
Theorem set_and_get_async_requests e w p :
  _set_get_future (client w) = None →
  (_update_period (client w) ≤ _set_get_call_counter (client w) + 1)%Z →
  (set_payload w).1 = Ok p →
  let c := client w in
  let n := length (server_log w) in
  let diff : gset string := list_to_set (_get_keys c) ∖ list_to_set (_set_keys c) in
  let r := set_and_get_async device_put e w in
  (_multi_process c = true →
     r.1 = Ok tt ∧
     server_log r.2 = server_log w ++
       [Request (set_parameters p) KSetGet (op_count w) None false;
        Request (get_parameters (NamesSet diff)) KSetGet (op_count w) None true] ∧
     _set_get_future (client r.2) = Some (n, S n) ∧
     _set_get_call_counter (client r.2) = 0%Z ∧
     local r.2 = local w ∧
     ∀ res, local (deliver device_put (S n, res) r.2) =
            (_copy device_put (_devices c) res (local w)).2) ∧
  (_multi_process c = false →
     server_log r.2 = server_log w ++
       [Request (set_parameters p) KSetGet (op_count w) (Some []) false;
        Request (get_parameters (NamesList (_get_keys c))) KSetGet (op_count w)
          (Some (reply e)) false] ∧
     local r.2 = (_copy device_put (_devices c) (reply e) (local w)).2 ∧
     _set_get_future (client r.2) = None).
Proof.
  intros Hslot Hgate Hpay c n diff r. subst c n diff r.
  split; intros Hmp.
  - apply (wp_outcome (set_and_get_async device_put e)
      (λ w', server_log w' = _ ∧ _set_get_future (client w') = _ ∧
             _set_get_call_counter (client w') = _ ∧ local w' = _ ∧
             ∀ res, local (deliver device_put (_, res) w') = _)).
    unfold set_and_get_async, update, _async_adjust_and_request, send. wp_simpl.
    destruct (bool_decide (_set_get_call_counter _ < _)%Z) eqn:Hlt;
      wp_simpl; simpl;
      (rewrite bool_decide_true
         by (try apply bool_decide_eq_true in Hlt;
             try apply bool_decide_eq_false in Hlt; lia));
      rewrite Hslot; simpl; wp_simpl; simpl; rewrite Hmp; simpl; wp_simpl;
      (erewrite (wp_set_payload_known _ _ w _ p); [|done|done|done]);
      wp_simpl; simpl;
      (repeat split;
       [by rewrite <- app_assoc|by rewrite length_app, Nat.add_1_r|]);
      intros res;
      (erewrite deliver_callback;
       [done
       |simpl; rewrite <- app_assoc, lookup_app_r by lia;
        by replace (S (length (server_log w)) - length (server_log w)) with 1 by lia
       |done|done]).
  - apply (wp_run (set_and_get_async device_put e)
      (λ w', server_log w' = _ ∧ local w' = _ ∧ _set_get_future (client w') = _)).
    unfold set_and_get_async, update, _async_adjust_and_request,
      _adjust_and_request, send. wp_simpl.
    destruct (bool_decide (_set_get_call_counter _ < _)%Z) eqn:Hlt;
      wp_simpl; simpl;
      (rewrite bool_decide_true
         by (try apply bool_decide_eq_true in Hlt;
             try apply bool_decide_eq_false in Hlt; lia));
      rewrite Hslot; simpl; wp_simpl; simpl; rewrite Hmp; simpl; wp_simpl;
      (erewrite (wp_set_payload_known _ _ w _ p); [|done|done|done]);
      wp_simpl; simpl;
      apply wp_copy_run; simpl; wp_simpl; simpl;
      rewrite <- app_assoc; simpl; by rewrite ?Hslot.
Qed.
Lemma wp_copy_ok new_parameters (Q : unit → world → Prop) E w :
  (_copy device_put (_devices (client w)) new_parameters (local w)).1 = Ok tt →
  wp (copy device_put new_parameters) Q E w =
  Q tt (set_local (_copy device_put (_devices (client w)) new_parameters
                     (local w)).2 w).
Proof.
  intros Hok. apply wp_known. rewrite copy_run. by rewrite Hok.
Qed.

Ltac gate Hlt :=
  rewrite bool_decide_true
    by (try apply bool_decide_eq_true in Hlt;
        try apply bool_decide_eq_false in Hlt; lia).

(** C6 (amended): with no completion arriving during the call, a call of
    [get_async] that sends the request in multi-process mode does not
    touch the replica and keeps the request pending; a later call that
    finds it still pending does nothing either, and the call that finds
    it completed merges its result and frees the slot.  In single-process
    mode the handle is completed at once and the call that sends the
    request merges the reply itself. *)
Theorem get_async_merge_timing e w :
  arrivals e = [] →
  let c := client w in
  let r := get_async device_put e w in
  let get_request res :=
    Request (get_parameters (NamesList (_get_keys c))) KGet (op_count w) res false in
  (_multi_process c = true → _get_future c = None →
   (_update_period c ≤ _get_call_counter c + 1)%Z →
     r.1 = Ok tt ∧ local r.2 = local w ∧
     server_log r.2 = server_log w ++ [get_request None] ∧
     _get_future (client r.2) = Some (length (server_log w))) ∧
  (∀ f rq, _get_future c = Some f → server_log w !! f = Some rq →
   req_result rq = None →
     r.1 = Ok tt ∧ local r.2 = local w ∧ server_log r.2 = server_log w ∧
     _get_future (client r.2) = Some f) ∧
  (∀ f rq res, _get_future c = Some f → server_log w !! f = Some rq →
   req_result rq = Some res →
     local r.2 = (_copy device_put (_devices c) res (local w)).2 ∧
     server_log r.2 = server_log w ∧
     ((_copy device_put (_devices c) res (local w)).1 = Ok tt →
      r.1 = Ok tt ∧ _get_future (client r.2) = None)) ∧
  (_multi_process c = false → _get_future c = None →
   (_update_period c ≤ _get_call_counter c + 1)%Z →
     local r.2 = (_copy device_put (_devices c) (reply e) (local w)).2 ∧
     server_log r.2 = server_log w ++ [get_request (Some (reply e))] ∧
     ((_copy device_put (_devices c) (reply e) (local w)).1 = Ok tt →
      r.1 = Ok tt ∧ _get_future (client r.2) = None)).
Proof.
  intros Harr c r get_request. subst c r get_request.
  split; [|split; [|split]].
  - intros Hmp Hslot Hgate.
    apply (wp_outcome (get_async device_put e)
      (λ w', local w' = _ ∧ server_log w' = _ ∧ _get_future (client w') = _)).
    unfold get_async, update, _async_request, send, transport. wp_simpl.
    rewrite Harr.
    destruct (bool_decide (_get_call_counter _ < _)%Z) eqn:Hlt;
      wp_simpl; simpl; gate Hlt; rewrite Hslot; simpl; wp_simpl; simpl;
      rewrite lookup_app_r by lia; rewrite Nat.sub_diag, Hmp; simpl;
      by wp_simpl.
  - intros f rq Hslot Hf Hres.
    apply (wp_outcome (get_async device_put e)
      (λ w', local w' = _ ∧ server_log w' = _ ∧ _get_future (client w') = _)).
    unfold get_async, update, _async_request, send, transport. wp_simpl.
    rewrite Harr. destruct rq as [rp rk ro rr rc]. simpl in Hres. subst rr.
    destruct (bool_decide (_get_call_counter _ < _)%Z) eqn:Hlt;
      wp_simpl; simpl;
      rewrite Hslot, (bool_decide_false (Some f = None)), andb_false_r by done;
      wp_simpl; simpl; rewrite ?Hslot; wp_simpl; simpl; rewrite Hf; simpl; by wp_simpl.
  - intros f rq res Hslot Hf Hres.
    destruct rq as [rp rk ro rr rc]. simpl in Hres. subst rr.
    assert (Hlocal_log : let r := get_async device_put e w in
      local r.2 = (_copy device_put (_devices (client w)) res (local w)).2 ∧
      server_log r.2 = server_log w).
    { apply (wp_run (get_async device_put e)
        (λ w', local w' = _ ∧ server_log w' = _)).
      unfold get_async, update, _async_request, send, transport. wp_simpl.
      rewrite Harr.
      destruct (bool_decide (_get_call_counter _ < _)%Z) eqn:Hlt;
        wp_simpl; simpl;
        rewrite Hslot, (bool_decide_false (Some f = None)), andb_false_r by done;
        wp_simpl; simpl; rewrite ?Hslot; wp_simpl; simpl; repeat (progress (rewrite ?Hf; simpl; wp_simpl));
        apply wp_copy_run; simpl; by wp_simpl. }
    destruct Hlocal_log as [Hloc Hlog]. split; [done|]. split; [done|].
    intros Hok.
    apply (wp_outcome (get_async device_put e)
      (λ w', _get_future (client w') = _)).
    unfold get_async, update, _async_request, send, transport. wp_simpl.
    rewrite Harr.
    destruct (bool_decide (_get_call_counter _ < _)%Z) eqn:Hlt;
      wp_simpl; simpl;
      rewrite Hslot, (bool_decide_false (Some f = None)), andb_false_r by done;
      wp_simpl; simpl; rewrite ?Hslot; wp_simpl; simpl; repeat (progress (rewrite ?Hf; simpl; wp_simpl));
      rewrite wp_copy_ok by done; by wp_simpl.
  - intros Hmp Hslot Hgate.
    assert (Hlocal_log : let r := get_async device_put e w in
      local r.2 = (_copy device_put (_devices (client w)) (reply e) (local w)).2 ∧
      server_log r.2 = server_log w ++
        [Request (get_parameters (NamesList (_get_keys (client w)))) KGet
           (op_count w) (Some (reply e)) false]).
    { apply (wp_run (get_async device_put e)
        (λ w', local w' = _ ∧ server_log w' = _)).
      unfold get_async, update, _async_request, send, transport. wp_simpl.
      rewrite Harr.
      destruct (bool_decide (_get_call_counter _ < _)%Z) eqn:Hlt;
        wp_simpl; simpl; gate Hlt; rewrite Hslot; simpl; wp_simpl; simpl;
        repeat (progress (rewrite ?lookup_app_r by lia;
                          rewrite ?Nat.sub_diag, ?Hmp; simpl; wp_simpl));
        apply wp_copy_run; simpl; by wp_simpl. }
    destruct Hlocal_log as [Hloc Hlog]. split; [done|]. split; [done|].
    intros Hok.
    apply (wp_outcome (get_async device_put e)
      (λ w', _get_future (client w') = _)).
    unfold get_async, update, _async_request, send, transport. wp_simpl.
    rewrite Harr.
    destruct (bool_decide (_get_call_counter _ < _)%Z) eqn:Hlt;
      wp_simpl; simpl; gate Hlt; rewrite Hslot; simpl; wp_simpl; simpl;
      repeat (progress (rewrite ?lookup_app_r by lia;
                        rewrite ?Nat.sub_diag, ?Hmp; simpl; wp_simpl));
      rewrite wp_copy_ok by done; by wp_simpl.
Qed.
End exchange_properties.

(** ** The executor observation component *)

Section observing_properties.
Context {timestep action_info : Type}.
Context (device_put : value → device_entry → outcome value).
Context (sort_str_num : list string → list string).
Context (sample_new_agent_keys :
  nat → list string → list (list string) → dict Z → value * dict string).

Local Abbreviation store := (@Observing.store timestep action_info).
Local Abbreviation hook := (@Observing.hook timestep action_info).
Local Abbreviation trigger :=
  (@Observing.trigger timestep action_info device_put sort_str_num
     sample_new_agent_keys).
Local Abbreviation run_hooks :=
  (@Observing.run_hooks timestep action_info device_put sort_str_num
     sample_new_agent_keys).

(** A hook other than [on_execution_observe_first] keeps the assignment
    and tells the sink at most one [add], with the stored identifiers. *)
Lemma trigger_in_episode (h : hook) (s : store) sink :
  Observing.adder s = Some sink → Observing.is_observe_first h = false →
  let s' := (trigger h s).2 in
  Observing.network_int_keys_extras s' = Observing.network_int_keys_extras s ∧
  Observing.agent_net_keys s' = Observing.agent_net_keys s ∧
  ∃ new, Observing.adder s' = Some (sink ++ new) ∧
         length new = (if Observing.is_observe h then 1 else 0) ∧
         Observing.adds_with (Observing.network_int_keys_extras s) new.
Proof.
  intros Hsink Hh. destruct h as [draw ts ex|ai ts ex|e|e]; simpl in Hh;
    [done|..]; simpl.
  - unfold Observing.on_execution_observe, Observing.tell. munfold. simpl.
    rewrite Hsink. simpl. rewrite Hsink. simpl. repeat split.
    eexists [_]. split; [done|].
    split; [done|]. repeat constructor. simpl. apply dict_get_set_eq.
  - unfold Observing.on_execution_update, Observing.on_client.
    destruct (Observing.executor_parameter_client s) as [w|]; simpl.
    + destruct (get_async _ _ _) as [o w']. simpl. repeat split.
      exists []. rewrite app_nil_r. repeat split; [done|constructor].
    + repeat split. exists []. rewrite app_nil_r. repeat split; [done|constructor].
  - unfold Observing.on_execution_force_update, Observing.on_client.
    destruct (Observing.executor_parameter_client s) as [w|]; simpl.
    + destruct (get_and_wait _ _ _) as [o w']. simpl. repeat split.
      exists []. rewrite app_nil_r. repeat split; [done|constructor].
    + repeat split. exists []. rewrite app_nil_r. repeat split; [done|constructor].
Qed.

Lemma run_hooks_in_episode (hs : list hook) : ∀ (s : store) sink,
  Observing.adder s = Some sink →
  forallb (λ h, negb (Observing.is_observe_first h)) hs = true →
  let s' := run_hooks hs s in
  Observing.network_int_keys_extras s' = Observing.network_int_keys_extras s ∧
  Observing.agent_net_keys s' = Observing.agent_net_keys s ∧
  ∃ adds, Observing.adder s' = Some (sink ++ adds) ∧
          length adds = length (filter (λ h, Observing.is_observe h = true) hs) ∧
          Observing.adds_with (Observing.network_int_keys_extras s) adds.
Proof.
  induction hs as [|h hs IH]; intros s sink Hsink Hhs; simpl.
  - repeat split. exists []. rewrite app_nil_r. repeat split; [done|constructor].
  - simpl in Hhs. apply andb_true_iff in Hhs as [Hh Hhs].
    apply negb_true_iff in Hh.
    destruct (trigger_in_episode h s sink Hsink Hh) as (Hn & Ha & new & Hs1 & Hl & Hf).
    destruct (IH _ _ Hs1 Hhs) as (Hn' & Ha' & adds & Hs' & Hl' & Hf').
    unfold Observing.run_hooks in *. simpl in *.
    rewrite Hn', Ha', Hn, Ha. repeat split.
    exists (new ++ adds). rewrite app_assoc. split; [done|]. split.
    + rewrite length_app, Hl, Hl', filter_cons.
      destruct (Observing.is_observe h); simpl; try case_decide; simpl;
        done || lia.
    + apply Forall_app. split; [done|]. by rewrite <- Hn.
Qed.

(** C8: with a sink attached, after [on_execution_observe_first] and any
    number of the other hooks, the store still holds the network
    identifiers and the agent-to-network assignment that
    [on_execution_observe_first] sampled; the sink received [add_first]
    with these identifiers under ["network_int_keys"], then one [add] per
    call of [on_execution_observe], each with the same identifiers. *)
Theorem episode_network_stability (s : store) draw ts ex (hs : list hook) sink :
  Observing.adder s = Some sink →
  forallb (λ h, negb (Observing.is_observe_first h)) hs = true →
  let sampled :=
    sample_new_agent_keys draw
      (sort_str_num (dict_keys (Observing.agent_net_keys s)))
      (Observing.network_sampling_setup s) (Observing.net_keys_to_ids s) in
  let s' := run_hooks (Observing.ObserveFirst draw ts ex :: hs) s in
  Observing.network_int_keys_extras s' = sampled.1 ∧
  Observing.agent_net_keys s' = sampled.2 ∧
  ∃ adds,
    Observing.adder s' =
      Some (sink ++
            Observing.add_first ts (dict_set "network_int_keys" sampled.1 ex)
            :: adds) ∧
    length adds = length (filter (λ h, Observing.is_observe h = true) hs) ∧
    Observing.adds_with sampled.1 adds.
Proof.
  intros Hsink Hhs sampled s'. subst s'.
  change (run_hooks (Observing.ObserveFirst draw ts ex :: hs) s)
    with (run_hooks hs (trigger (Observing.ObserveFirst draw ts ex) s).2).
  set (s1 := (trigger (Observing.ObserveFirst draw ts ex) s).2).
  assert (Hs1 : Observing.network_int_keys_extras s1 = sampled.1 ∧
                Observing.agent_net_keys s1 = sampled.2 ∧
                Observing.adder s1 =
                  Some ((sink ++ [Observing.add_first ts
                           (dict_set "network_int_keys" sampled.1 ex)]))).
  { subst s1 sampled. simpl.
    unfold Observing.on_execution_observe_first, Observing.tell.
    munfold. simpl. rewrite Hsink.
    destruct (sample_new_agent_keys _ _ _ _) as [ids keys]. simpl.
    by rewrite Hsink. }
  destruct Hs1 as (Hn & Ha & Hadd).
  destruct (run_hooks_in_episode hs s1 _ Hadd Hhs) as (Hn' & Ha' & adds & Hs' & Hl & Hf).
  rewrite Hn', Ha', Hn, Ha. repeat split. exists adds.
  rewrite Hs', <- app_assoc. simpl. repeat split; [done|]. by rewrite <- Hn.
Qed.

End observing_properties.

(** ** Instances of the theorems and counterexamples *)




(** A response with an integer, alone. *)
Lemma copy_unsupported_type_witness :
  unsupported (VInt 5) = true ∧
  _copy device_put_id [] [("blob", VInt 5)] ex_replica =
    (Raise (NotImplementedError (type_msg (VInt 5) "blob")), ex_replica).
Proof.
  split; [reflexivity|].
  apply (copy_unsupported_type device_put_id [] [("blob", VInt 5)] "blob"
           (VInt 5) ex_replica eq_refl eq_refl) with (ks1 := []) (ks2 := []);
    reflexivity.
Defined.

(** C9 as stated fails: the entry before the unsupported value raises
    IndexError, and the not-implemented error is never raised. *)
Lemma copy_unsupported_type_counterexample :
  dict_get "blob" ex_short_then_blob = Some (VInt 5) ∧
  unsupported (VInt 5) = true ∧
  (_copy device_put_id [] ex_short_then_blob ex_replica).1 = Raise IndexError.
Proof. vm_compute. by repeat split. Qed.

(** Update period 2: one call sends nothing, two calls send one request. *)
Lemma get_async_periodicity_witness :
  let w0 :=
    init_world (init sort_id [("w", 0)] true (Some ["w"]) None 2 [])
      (local (ex_world true)) in
  server_log (run device_put_id (Call GetAsync <$> [ex_env]) w0) = [] ∧
  ∃ res,
    server_log (run device_put_id (Call GetAsync <$> [ex_env; ex_env]) w0) =
    [Request (get_parameters (NamesList ["w"])) KGet 2 res false].
Proof.
  split.
  - apply (get_async_periodicity device_put_id sort_id [("w", 0)] true
             (Some ["w"]) None 2 [] (local (ex_world true)) [ex_env]).
    simpl. lia.
  - apply (get_async_periodicity device_put_id sort_id [("w", 0)] true
             (Some ["w"]) None 2 [] (local (ex_world true)) [ex_env; ex_env]).
    + reflexivity.
    + lia.
Defined.

(** The combined request of a multi-process client. *)
Lemma set_and_get_async_requests_witness :
  let r := set_and_get_async device_put_id ex_env (ex_world true) in
  (set_payload (ex_world true)).1 = Ok [("w", VArray (int64s [2] [5; 6]%Z))] ∧
  r.1 = Ok tt ∧
  _set_get_future (client r.2) = Some (0, 1) ∧
  local r.2 = local (ex_world true).
Proof.
  split; [reflexivity|].
  destruct (set_and_get_async_requests device_put_id ex_env (ex_world true)
              [("w", VArray (int64s [2] [5; 6]%Z))]) as [Hmulti _].
  - reflexivity.
  - simpl. lia.
  - reflexivity.
  - destruct (Hmulti eq_refl) as (H1 & _ & H3 & _ & H5 & _).
    split; [exact H1|]. split; [exact H3|exact H5].
Defined.

(** C5 as stated fails in single-process mode: the client fetches ["w"],
    which it has just written, where the set difference is empty. *)
Lemma set_and_get_async_counterexample :
  let w' := (set_and_get_async device_put_id ex_env (ex_world false)).2 in
  _get_keys (client (ex_world false)) = ["w"] ∧
  _set_keys (client (ex_world false)) = ["w"] ∧
  req_rpc <$> server_log w' =
    [set_parameters [("w", VArray (int64s [2] [5; 6]%Z))];
     get_parameters (NamesList ["w"])].
Proof. vm_compute. by repeat split. Qed.

(** The issuing call of a multi-process client leaves the replica alone;
    that of a single-process client merges the reply. *)
Lemma get_async_merge_timing_witness :
  arrivals ex_env = [] ∧
  local (get_async device_put_id ex_env (ex_world true)).2 =
    local (ex_world true) ∧
  local (get_async device_put_id ex_env (ex_world false)).2 =
    (_copy device_put_id [] (reply ex_env) (local (ex_world false))).2.
Proof.
  split; [reflexivity|]. split.
  - destruct (get_async_merge_timing device_put_id ex_env (ex_world true) eq_refl)
      as (Hissue & _).
    destruct Hissue as (_ & H & _); [reflexivity|reflexivity|simpl; lia|exact H].
  - destruct (get_async_merge_timing device_put_id ex_env (ex_world false) eq_refl)
      as (_ & _ & _ & Hsingle).
    destruct Hsingle as (H & _); [reflexivity|reflexivity|simpl; lia|exact H].
Defined.

(** C6 as stated fails in single-process mode: the call that sends the
    request is the call that merges its result. *)
Lemma get_async_merge_timing_counterexample :
  let r := step device_put_id (Call GetAsync ex_env) (ex_world false) in
  server_log (ex_world false) = [] ∧
  heap (local (ex_world false)) = [VArray (int64s [2] [5; 6]%Z)] ∧
  r.1 = Ok tt ∧
  (req_rpc <$> server_log r.2) = [get_parameters (NamesList ["w"])] ∧
  heap (local r.2) = [VArray (int64s [2] [7; 8]%Z)].
Proof. vm_compute. by repeat split. Qed.

(** An episode of two observations around a parameter update. *)
Lemma episode_network_stability_witness :
  let hs := [Observing.Observe [("agent_0", 1)] 1 [];
             Observing.Update no_env;
             Observing.Observe [("agent_0", 2)] 2 []] in
  let s' :=
    Observing.run_hooks device_put_id sort_id ex_sample
      (Observing.ObserveFirst 7 0 [] :: hs) ex_store in
  Observing.adder ex_store = Some [] ∧
  Observing.network_int_keys_extras s' = VDict [("agent_0", VInt 7)] ∧
  Observing.agent_net_keys s' = [("agent_0", "network_0")].
Proof.
  split; [reflexivity|].
  destruct (episode_network_stability device_put_id sort_id ex_sample ex_store
              7 0 []
              [Observing.Observe [("agent_0", 1)] 1 [];
               Observing.Update no_env;
               Observing.Observe [("agent_0", 2)] 2 []] [] eq_refl eq_refl)
    as (H1 & H2 & _).
  split; [exact H1|exact H2].
Defined.

(** The bound of [at_most_one_outstanding] is reached: four calls of a
    multi-process client leave four requests unresolved, the combined one
    with its two futures. *)
Lemma four_requests_five_futures :
  let w := run device_put_id
             [Call GetAsync ex_env; Call (SetAsync None) ex_env;
              Call SetAndGetAsync ex_env; Call (AddAsync [("c", 1%Z)]) ex_env]
             (ex_world true) in
  length (outstanding_all w) = 4 ∧
  length (filter (λ r, pending r = true) (server_log w)) = 5.
Proof. vm_compute. by split. Qed.

(** * Further properties of the code *)

(** ** Exact results *)

Lemma wpo_ret {S A} (a : A) (P : outcome A → S → Prop) s :
  wpo (ret a) P s = P (Ok a) s.
Proof. done. Qed.

Lemma wpo_bind {S A B} (m : M S A) (k : A → M S B) (P : outcome B → S → Prop) s :
  wpo (bind m k) P s =
  wpo m (λ o s', match o with
                 | Ok a => wpo (k a) P s'
                 | Raise e => P (Raise e) s'
                 | Unmodelled => P Unmodelled s'
                 end) s.
Proof. unfold wpo, bind. by destruct (m s) as [[a|e|] s']. Qed.

Lemma wpo_gets {S A} (f : S → A) (P : outcome A → S → Prop) s :
  wpo (gets f) P s = P (Ok (f s)) s.
Proof. done. Qed.

Lemma wpo_modify {S} (f : S → S) (P : outcome unit → S → Prop) s :
  wpo (modify f) P s = P (Ok tt) (f s).
Proof. done. Qed.

Lemma wpo_raise {S A} e (P : outcome A → S → Prop) (s : S) :
  wpo (raise e) P s = P (Raise e) s.
Proof. done. Qed.

Lemma wpo_unmodelled {S A} (P : outcome A → S → Prop) (s : S) :
  wpo unmodelled P s = P Unmodelled s.
Proof. done. Qed.

Lemma wpo_or_raise {S A} e (o : option A) (P : outcome A → S → Prop) (s : S) :
  wpo (or_raise e o) P s =
  match o with Some a => P (Ok a) s | None => P (Raise e) s end.
Proof. by destruct o. Qed.

Lemma wpo_when {S} (b : bool) (m : M S unit) (P : outcome unit → S → Prop) s :
  wpo (when b m) P s = if b then wpo m P s else P (Ok tt) s.
Proof. by destruct b. Qed.

Lemma wpo_zoom {S T A} (proj : S → T) (upd : T → S → S) (m : M T A)
    (P : outcome A → S → Prop) s :
  wpo (zoom proj upd m) P s = wpo m (λ o t, P o (upd t s)) (proj s).
Proof. unfold wpo, zoom. by destruct (m (proj s)) as [o t]. Qed.

Lemma wpo_known {S A} (m : M S A) (P : outcome A → S → Prop) s o s' :
  m s = (o, s') → wpo m P s = P o s'.
Proof. unfold wpo. by intros ->. Qed.

Lemma wpo_eq {S A} (m : M S A) (o : outcome A) (s0 s : S) :
  wpo m (λ o' s', o' = o ∧ s' = s0) s → m s = (o, s0).
Proof. unfold wpo. destruct (m s) as [o' s']. simpl. by intros [-> ->]. Qed.

Lemma wpo_update f (P : outcome unit → world → Prop) w :
  wpo (update f) P w = P (Ok tt) (set_client (f (client w)) w).
Proof. done. Qed.

Lemma wpo_send r k res cb (P : outcome nat → world → Prop) w :
  wpo (send r k res cb) P w =
  P (Ok (length (server_log w)))
    (set_server_log (server_log w ++ [Request r k (op_count w) res cb]) w).
Proof. done. Qed.

Create Rewrite HintDb wpo.
#[global] Hint Rewrite @wpo_ret @wpo_bind @wpo_gets @wpo_modify @wpo_raise
  @wpo_unmodelled @wpo_or_raise @wpo_when @wpo_zoom wpo_update wpo_send : wpo.

Ltac wpo_simpl :=
  repeat (progress (unfold mret, M_ret, mbind, M_bind;
                    autorewrite with wpo; cbv beta)).

(** ** The payload of a set request *)

Lemma param_tracked key r v :
  tracked r key = Some v →
  ∃ l, dict_get key (_parameters r) = Some l ∧ param key r = (Ok (l, v), r).
Proof.
  unfold tracked. destruct (dict_get key (_parameters r)) as [l|] eqn:Hk; [|done].
  simpl. intros Hl. exists l. split; [done|]. by apply param_run.
Qed.

Lemma param_untracked key r :
  dict_get key (_parameters r) = None → param key r = (Raise (KeyError key), r).
Proof. intros Hk. unfold param. munfold. by rewrite Hk. Qed.

(** The dictionary comprehension, one key at a time. *)
Lemma payload_fold_ok r keys : ∀ (acc : M replica (dict value)) d0,
  acc r = (Ok d0, r) →
  (∀ k, k ∈ keys → is_Some (tracked r k)) →
  foldl (λ acc key, d ← acc; '(_, v) ← param key; mret (dict_set key v d))
        acc keys r =
  (Ok (foldl (λ d key, dict_set key (default VNone (tracked r key)) d) d0 keys), r).
Proof.
  induction keys as [|key keys IH]; intros acc d0 Hacc Hall; simpl; [done|].
  apply IH; [|intros k Hk; apply Hall; by right].
  destruct (Hall key) as [v Hv]; [by left|].
  destruct (param_tracked _ _ _ Hv) as (l & _ & Hp).
  unfold mbind, M_bind. rewrite run_bind, Hacc, run_bind, Hp, Hv. done.
Qed.

Lemma payload_fold_raise r e keys : ∀ (acc : M replica (dict value)),
  acc r = (Raise e, r) →
  foldl (λ acc key, d ← acc; '(_, v) ← param key; mret (dict_set key v d))
        acc keys r = (Raise e, r).
Proof.
  induction keys as [|key keys IH]; intros acc Hacc; simpl; [done|].
  apply IH. unfold mbind, M_bind. by rewrite run_bind, Hacc.
Qed.

Lemma dict_get_foldl_set {V} (f : string → V) keys k : ∀ d0,
  dict_get k (foldl (λ d key, dict_set key (f key) d) d0 keys) =
  if decide (k ∈ keys) then Some (f k) else dict_get k d0.
Proof.
  induction keys as [|key keys IH]; intros d0; simpl.
  - destruct (decide (k ∈ [])) as [Hin|]; [|done]. by apply elem_of_nil in Hin.
  - rewrite IH.
    destruct (decide (k ∈ keys)) as [Hin|Hin];
      destruct (decide (k ∈ key :: keys)) as [Hin'|Hin']; try done.
    + exfalso. apply Hin'. by right.
    + apply elem_of_cons in Hin' as [->|?]; [|done]. by rewrite dict_get_set_eq.
    + rewrite dict_get_set_ne; [done|]. intros ->. apply Hin'. by left.
Qed.

Lemma set_payload_unfold w :
  set_payload w =
  let '(o, t) :=
    foldl (λ acc key, d ← acc; '(_, v) ← param key; mret (dict_set key v d))
      (mret []) (_set_keys (client w)) (local w) in
  (o, set_local t w).
Proof. reflexivity. Qed.

Lemma set_local_id w : set_local (local w) w = w.
Proof. by destruct w. Qed.

(** X1: when every name of [_set_keys] is tracked, the payload of a set
    request maps each of these names to the current contents of its
    object and holds nothing else; building it changes nothing. *)
Theorem set_payload_reads w :
  (∀ k, k ∈ _set_keys (client w) → is_Some (tracked (local w) k)) →
  ∃ p, set_payload w = (Ok p, w) ∧
       ∀ k, dict_get k p =
            if decide (k ∈ _set_keys (client w)) then tracked (local w) k
            else None.
Proof.
  intros Hall. eexists. split.
  - rewrite set_payload_unfold, (payload_fold_ok _ _ _ []); [|done|done].
    by rewrite set_local_id.
  - intros k. rewrite (dict_get_foldl_set (λ key, default VNone (tracked (local w) key))).
    destruct (decide _) as [Hin|]; [|done].
    by destruct (Hall k Hin) as [v ->].
Qed.

(** X2: when a name of [_set_keys] is not tracked (and the names before it
    are), [set_and_wait()] raises KeyError for that name and sends nothing;
    so does [set_async()] whenever its gate opens, and its call counter
    stays at the period, so that every later call raises again. *)
Theorem set_untracked_key_error w ks1 k ks2 :
  _set_keys (client w) = ks1 ++ k :: ks2 →
  (∀ k', k' ∈ ks1 → is_Some (tracked (local w) k')) →
  dict_get k (_parameters (local w)) = None →
  set_and_wait None w = (Raise (KeyError k), w) ∧
  (_set_future (client w) = None →
   (_update_period (client w) ≤ _set_call_counter (client w) + 1)%Z →
   set_async None w =
   (Raise (KeyError k),
    if bool_decide (_set_call_counter (client w) < _update_period (client w))%Z
    then set_client (with_set_call_counter (_set_call_counter (client w) + 1)
                       (client w)) w
    else w)).
Proof.
  intros Hks Hpre Hk.
  assert (Hpay : ∀ w1, _set_keys (client w1) = _set_keys (client w) →
            local w1 = local w → set_payload w1 = (Raise (KeyError k), w1)).
  { intros w1 Hs Hl.
    rewrite set_payload_unfold, Hs, Hl, Hks, foldl_app.
    simpl. erewrite payload_fold_raise.
    - by rewrite <- Hl, set_local_id.
    - unfold mbind, M_bind.
      rewrite run_bind, (payload_fold_ok _ _ _ []); [|done|done].
      by rewrite run_bind, param_untracked. }
  split.
  - unfold set_and_wait, _adjust. unfold mbind, M_bind.
    by rewrite run_bind, Hpay.
  - intros Hslot Hgate. apply wpo_eq. unfold set_async, _async_adjust.
    wpo_simpl.
    destruct (bool_decide (_set_call_counter (client w) < _)%Z) eqn:Hlt;
      simpl; wpo_simpl; simpl.
    + apply bool_decide_eq_true in Hlt.
      rewrite bool_decide_true by lia. rewrite Hslot. simpl. wpo_simpl.
      erewrite wpo_known; [|by apply Hpay]. done.
    + apply bool_decide_eq_false in Hlt.
      rewrite bool_decide_true by lia. rewrite Hslot. simpl. wpo_simpl.
      erewrite wpo_known; [|by apply Hpay]. done.
Qed.

Lemma wpo_done f (P : outcome bool → world → Prop) w :
  wpo (done f) P w =
  match server_log w !! f with
  | Some r => P (Ok (negb (pending r))) w
  | None => P Unmodelled w
  end.
Proof. unfold done. wpo_simpl. by destruct (_ !! _). Qed.

#[global] Hint Rewrite wpo_done : wpo.

Lemma wpo_step {S A} (m : M S A) (P : outcome A → S → Prop) s :
  wpo m P s → P (m s).1 (m s).2.
Proof. done. Qed.

Lemma every_other_cons {A} (x : A) l :
  every_other (x :: l) = x :: every_other (tail l).
Proof. by destruct l. Qed.

Lemma run_cons device_put ev evs w :
  run device_put (ev :: evs) w = run device_put evs (step device_put ev w).2.
Proof. done. Qed.

(** ** [set_async] and [add_async] in single-process mode *)

Section single_process_properties.
Context (device_put : value → device_entry → outcome value).
Context (sort_str_num : list string → list string).

Lemma set_async_alternates e P ps : ∀ w,
  _multi_process (client w) = false →
  _update_period (client w) = P →
  (P ≤ 1)%Z →
  let evs := (λ p, Call (SetAsync (Some p)) e) <$> ps in
  (_set_future (client w) = None → (0 ≤ _set_call_counter (client w))%Z →
   returns_normally device_put evs w ∧
   req_rpc <$> server_log (run device_put evs w) =
   (req_rpc <$> server_log w) ++ (set_parameters <$> every_other ps)) ∧
  (∀ f r, _set_future (client w) = Some f → server_log w !! f = Some r →
          pending r = false → _set_call_counter (client w) = 0%Z →
   returns_normally device_put evs w ∧
   req_rpc <$> server_log (run device_put evs w) =
   (req_rpc <$> server_log w) ++ (set_parameters <$> every_other (tail ps))).
Proof.
  induction ps as [|p ps IH]; intros w Hmp HP Hle.
  { simpl. split; intros; by rewrite app_nil_r. }
  cbv zeta. rewrite fmap_cons, run_cons, every_other_cons.
  cbn [returns_normally step run_call tail].
  split.
  - intros Hslot Hc.
    pose proof (wpo_step (set_async (Some p))
      (λ o w', o = Ok tt ∧ _multi_process (client w') = false ∧
         _update_period (client w') = P ∧
         _set_future (client w') = Some (length (server_log w)) ∧
         _set_call_counter (client w') = 0%Z ∧
         server_log w' = server_log w ++
           [Request (set_parameters p) KSet (S (op_count w)) (Some []) false])
      (set_op_count (S (op_count w)) w)) as Hstep.
    destruct Hstep as (Ho & Hmp' & HP' & Hslot' & Hc' & Hlog').
    { unfold set_async, _async_adjust_param. wpo_simpl. simpl.
      destruct (bool_decide (_set_call_counter (client w) < _update_period (client w))%Z) eqn:Hlt;
        simpl; wpo_simpl; simpl.
      - apply bool_decide_eq_true in Hlt.
        rewrite bool_decide_true by lia. rewrite Hslot. simpl. wpo_simpl. simpl.
        by rewrite Hmp.
      - apply bool_decide_eq_false in Hlt.
        rewrite bool_decide_true by lia. rewrite Hslot. simpl. wpo_simpl. simpl.
        by rewrite Hmp. }
    destruct (IH _ Hmp' HP' Hle) as [_ IH2].
    destruct (IH2 _ _ Hslot' (eq_trans (f_equal (.!! _) Hlog')
                 (list_lookup_middle _ [] _ _ eq_refl)) eq_refl Hc') as [Hn Hr].
    split; [done|].
    rewrite Hr, Hlog', fmap_app, <- app_assoc. done.
  - intros f r Hslot Hf Hpend Hc.
    pose proof (wpo_step (set_async (Some p))
      (λ o w', o = Ok tt ∧ _multi_process (client w') = false ∧
         _update_period (client w') = P ∧
         _set_future (client w') = None ∧
         (0 ≤ _set_call_counter (client w'))%Z ∧
         server_log w' = server_log w)
      (set_op_count (S (op_count w)) w)) as Hstep.
    destruct Hstep as (Ho & Hmp' & HP' & Hslot' & Hc' & Hlog').
    { unfold set_async. wpo_simpl. simpl. rewrite Hc.
      destruct (bool_decide (0 < _update_period (client w))%Z) eqn:Hlt;
        simpl; wpo_simpl; simpl; rewrite ?Hslot, andb_false_r; wpo_simpl; simpl;
        rewrite Hf, Hpend; simpl; wpo_simpl; simpl; repeat split; try done; lia. }
    destruct (IH _ Hmp' HP' Hle) as [IH1 _].
    destruct (IH1 Hslot' Hc') as [Hn Hr].
    split; [done|]. rewrite Hr, Hlog'. by destruct ps.
Qed.

(** X3: in single-process mode with an update period of at most 1 (the
    default), [set_async] sends on every other call only: of the
    dictionaries passed by successive calls, the server receives the first,
    the third, the fifth and so on, and no call raises. *)
Theorem set_async_single_process_every_other
    parameters get_keys set_keys P devices r e ps :
  (P ≤ 1)%Z →
  let evs := (λ p, Call (SetAsync (Some p)) e) <$> ps in
  let w0 :=
    init_world (init sort_str_num parameters false get_keys set_keys P devices) r in
  returns_normally device_put evs w0 ∧
  req_rpc <$> server_log (run device_put evs w0) =
  set_parameters <$> every_other ps.
Proof.
  intros HP evs w0.
  destruct (set_async_alternates e P ps w0 eq_refl eq_refl HP) as [H _].
  apply H; simpl; [done|lia].
Qed.

Lemma add_async_immediate e ps : ∀ w,
  _multi_process (client w) = false →
  _async_add_buffer (client w) = [] →
  (∀ f, _add_future (client w) = Some f →
        ∃ r, server_log w !! f = Some r ∧ pending r = false) →
  let evs := (λ p, Call (AddAsync p) e) <$> ps in
  returns_normally device_put evs w ∧
  req_rpc <$> server_log (run device_put evs w) =
  (req_rpc <$> server_log w) ++ (add_to_parameters <$> ps) ∧
  _async_add_buffer (client (run device_put evs w)) = [].
Proof.
  induction ps as [|p ps IH]; intros w Hmp Hbuf Hslot.
  { simpl. by rewrite app_nil_r. }
  cbv zeta. rewrite fmap_cons, run_cons.
  cbn [returns_normally step run_call].
  pose proof (wpo_step (add_async p)
    (λ o w', o = Ok tt ∧ _multi_process (client w') = false ∧
       _async_add_buffer (client w') = [] ∧
       _add_future (client w') = Some (length (server_log w)) ∧
       server_log w' = server_log w ++
         [Request (add_to_parameters p) KAdd (S (op_count w)) (Some []) false])
    (set_op_count (S (op_count w)) w)) as Hstep.
  destruct Hstep as (Ho & Hmp' & Hbuf' & Hslot' & Hlog').
  { unfold add_async, _async_add. wpo_simpl. simpl.
    destruct (_add_future (client w)) as [f|] eqn:Hf; wpo_simpl; simpl.
    - destruct (Hslot f eq_refl) as (r & -> & ->). simpl. wpo_simpl. simpl.
      rewrite Hbuf. simpl. wpo_simpl. simpl. by rewrite Hmp.
    - rewrite Hf, Hbuf. simpl. wpo_simpl. simpl. by rewrite Hmp. }
  destruct (IH _ Hmp' Hbuf') as (Hn & Hr & Hb).
  { intros f Hf. rewrite Hslot' in Hf. injection Hf as <-.
    eexists. split; [rewrite Hlog'; by apply list_lookup_middle|done]. }
  split_and!; [done|done| |done].
  rewrite Hr, Hlog', fmap_app, <- app_assoc. done.
Qed.

(** X4: in single-process mode [add_async] never uses its buffer: every
    call sends its own dictionary to the server at once, in call order,
    whatever keys the dictionaries have, and no call raises. *)
Theorem add_async_single_process_immediate
    parameters get_keys set_keys P devices r e ps :
  let evs := (λ p, Call (AddAsync p) e) <$> ps in
  let w0 :=
    init_world (init sort_str_num parameters false get_keys set_keys P devices) r in
  returns_normally device_put evs w0 ∧
  req_rpc <$> server_log (run device_put evs w0) = add_to_parameters <$> ps ∧
  _async_add_buffer (client (run device_put evs w0)) = [].
Proof.
  intros evs w0. by apply (add_async_immediate e ps w0).
Qed.

End single_process_properties.

(** ** [add_async] with one key set *)

Lemma wpo_mono {S A} (m : M S A) (P P' : outcome A → S → Prop) s :
  wpo m P s → (∀ o s', P o s' → P' o s') → wpo m P' s.
Proof. unfold wpo. auto. Qed.

Lemma dict_get_set_is_Some {V} k k' (v : V) d :
  is_Some (dict_get k (dict_set k' v d)) ↔ k = k' ∨ is_Some (dict_get k d).
Proof.
  destruct (decide (k = k')) as [->|Hne].
  - rewrite dict_get_set_eq. split; [by left|by eauto].
  - rewrite dict_get_set_ne by done. split; [by right|by intros [?|?]].
Qed.

Lemma dict_get_is_Some_keys {V} k (d : dict V) :
  is_Some (dict_get k d) ↔ k ∈ dict_keys d.
Proof.
  split.
  - intros [v Hv]. by eapply dict_get_keys.
  - intros Hin. destruct (dict_get k d) eqn:Hk; [by eauto|].
    exfalso. revert Hin Hk. unfold dict_keys.
    induction d as [|[k' v'] d IH]; simpl; [by intros ?%elem_of_nil|].
    destruct (String.eqb_spec k k') as [->|Hne]; [done|].
    intros [?|?]%elem_of_cons; [done|by apply IH].
Qed.

(** The accumulation loop returns normally when the buffer holds every
    name, and keeps the names of the buffer. *)
Lemma buffer_iadd_loop_ok params names : ∀ w,
  (∀ n, n ∈ names → is_Some (dict_get n (_async_add_buffer (client w))) ∧
                     is_Some (dict_get n params)) →
  wpo (for_ names (buffer_iadd params))
      (λ o w', o = Ok tt ∧ server_log w' = server_log w ∧
         _add_future (client w') = _add_future (client w) ∧
         _multi_process (client w') = _multi_process (client w) ∧
         op_count w' = op_count w ∧
         (_async_add_buffer (client w) ≠ [] → _async_add_buffer (client w') ≠ []) ∧
         ∀ k, is_Some (dict_get k (_async_add_buffer (client w'))) ↔
              is_Some (dict_get k (_async_add_buffer (client w)))) w.
Proof.
  induction names as [|x names IH]; intros w Hall; simpl.
  - by wpo_simpl.
  - wpo_simpl. unfold buffer_iadd at 1. wpo_simpl.
    destruct (Hall x) as [[old Hold] [v Hv]]; [by left|].
    rewrite Hold, Hv. simpl. wpo_simpl.
    eapply wpo_mono.
    + apply IH. intros n Hn. simpl. split; [|by apply Hall; right].
      apply dict_get_set_is_Some. right. by apply Hall; right.
    + simpl. intros o w' (-> & -> & -> & -> & -> & Hne & Hdom).
      split_and!; try done.
      * intros _. apply Hne. clear.
        destruct (_async_add_buffer (client w)) as [|[k' v'] d]; simpl; [done|].
        by destruct (String.eqb x k').
      * intros k. rewrite Hdom, dict_get_set_is_Some.
        split; [|by right]. intros [->|?]; [by eauto|done].
Qed.

(** The loop that fills an empty buffer returns normally, and the buffer
    then holds the names of the dictionary. *)
Lemma buffer_assign_loop_ok params names : ∀ w,
  (∀ n, n ∈ names → is_Some (dict_get n params)) →
  wpo (for_ names (buffer_assign params))
      (λ o w', o = Ok tt ∧ server_log w' = server_log w ∧
         _add_future (client w') = _add_future (client w) ∧
         _multi_process (client w') = _multi_process (client w) ∧
         op_count w' = op_count w ∧
         ∀ k, is_Some (dict_get k (_async_add_buffer (client w'))) ↔
              k ∈ names ∨ is_Some (dict_get k (_async_add_buffer (client w)))) w.
Proof.
  induction names as [|x names IH]; intros w Hall; simpl.
  - wpo_simpl. split_and!; try done. intros k. split; [by right|].
    by intros [?%elem_of_nil|?].
  - wpo_simpl. unfold buffer_assign at 1. wpo_simpl.
    destruct (Hall x) as [v Hv]; [by left|].
    rewrite Hv. simpl. wpo_simpl.
    eapply wpo_mono.
    + apply IH. intros n Hn. by apply Hall; right.
    + simpl. intros o w' (-> & -> & -> & -> & -> & Hdom).
      split_and!; try done.
      intros k. rewrite Hdom, dict_get_set_is_Some, elem_of_cons. tauto.
Qed.

Lemma add_async_same_keys_ok (K : list string) params w :
  (∀ f, _add_future (client w) = Some f → f < length (server_log w)) →
  (_async_add_buffer (client w) ≠ [] →
   ∀ k, is_Some (dict_get k (_async_add_buffer (client w))) ↔ k ∈ K) →
  (∀ k, k ∈ dict_keys params ↔ k ∈ K) →
  wpo (add_async params)
      (λ o w', o = Ok tt ∧
         (_async_add_buffer (client w') ≠ [] →
          ∀ k, is_Some (dict_get k (_async_add_buffer (client w'))) ↔ k ∈ K)) w.
Proof.
  intros Hrange Hbuf Hkeys. unfold add_async. wpo_simpl.
  match goal with |- wpo _ (λ o s', match o with Ok _ => wpo ?rest _ _ | _ => _ end) _ =>
    assert (Hrest : ∀ w1,
      _async_add_buffer (client w1) = _async_add_buffer (client w) →
      wpo rest
        (λ o w', o = Ok tt ∧
           (_async_add_buffer (client w') ≠ [] →
            ∀ k, is_Some (dict_get k (_async_add_buffer (client w'))) ↔ k ∈ K))
        w1) end.
  { intros w1 Hb1. unfold _async_add. wpo_simpl. rewrite Hb1.
    assert (Hp : ∀ n, n ∈ dict_keys params → is_Some (dict_get n params)).
    { intros n. by rewrite dict_get_is_Some_keys. }
    assert (Hi : truthy (_async_add_buffer (client w)) = true →
              ∀ n, n ∈ dict_keys params →
                   is_Some (dict_get n (_async_add_buffer (client w1))) ∧
                   is_Some (dict_get n params)).
    { intros Ht n Hn. split; [|by apply Hp]. rewrite Hb1. apply Hbuf.
      - intros Hnil. by rewrite Hnil in Ht.
      - by apply Hkeys. }
    destruct (_add_future (client w1)) as [f|] eqn:Hf.
    - destruct (truthy _) eqn:Ht.
      + eapply wpo_mono; [by apply buffer_iadd_loop_ok; auto|]. simpl.
        intros o w' (-> & _ & _ & _ & _ & _ & Hdom). split; [done|].
        intros _ k. rewrite Hdom, Hb1. apply Hbuf.
        intros Hnil. by rewrite Hnil in Ht.
      + eapply wpo_mono; [by apply buffer_assign_loop_ok; auto|]. simpl.
        intros o w' (-> & _ & _ & _ & _ & Hdom). split; [done|].
        intros _ k. rewrite Hdom, Hb1, (truthy_false _ Ht), Hkeys. simpl.
        split; [|by left]. intros [?|[? ?]]; done.
    - destruct (truthy _) eqn:Ht; simpl; wpo_simpl.
      + eapply wpo_mono; [by apply buffer_iadd_loop_ok; auto|]. simpl.
        intros o w' (-> & _ & _ & _ & _ & _ & Hdom). by wpo_simpl.
      + simpl. split; [done|]. rewrite Hb1, (truthy_false _ Ht). done. }
  destruct (_add_future (client w)) as [f|] eqn:Hf; wpo_simpl.
  - destruct (lookup_lt_is_Some_2 (server_log w) f) as [r Hr]; [by apply Hrange|].
    rewrite Hr. destruct (negb (pending r)); simpl; wpo_simpl; by apply Hrest.
  - by apply Hrest.
Qed.

Section same_keys_properties.
Context (device_put : value → device_entry → outcome value).
Context (sort_str_num : list string → list string).

Lemma same_keys_returns (K : list string) evs : ∀ w,
  protocol_inv w →
  (_async_add_buffer (client w) ≠ [] →
   ∀ k, is_Some (dict_get k (_async_add_buffer (client w))) ↔ k ∈ K) →
  same_keys_history K evs →
  returns_normally device_put evs w.
Proof.
  induction evs as [|ev evs IH]; intros w Hinv Hbuf Hh; [done|].
  apply Forall_cons in Hh as [Hev Hh].
  pose proof (step_post device_put ev w Hinv) as [Hinv' _].
  cbn [returns_normally].
  destruct ev as [[]|f res]; try done.
  - destruct Hev as [_ Hkeys]. cbn [step run_call] in *.
    pose proof (add_async_same_keys_ok K params
                  (set_op_count (S (op_count w)) w)) as Hstep.
    destruct Hstep as [Ho Hbuf']; [|done|done|].
    { intros f Hf. simpl. apply (inv_range _ Hinv KAdd). simpl in *.
      rewrite Hf. by left. }
    split; [done|]. by apply IH.
  - split; [done|]. apply IH; [done| |done]. simpl.
    destruct (deliver_frame device_put (f, res) w) as (-> & _ & _). done.
Qed.

(** X5: when all the dictionaries passed to [add_async] have the same key
    set, no call raises, in either mode and whatever the transport
    completes in between, and for every key the sum of the deltas passed
    equals what has been sent to the server plus what the buffer holds. *)
Theorem add_async_same_keys_conservation
    K evs k parameters mp get_keys set_keys P devices r :
  same_keys_history K evs →
  let w0 :=
    init_world (init sort_str_num parameters mp get_keys set_keys P devices) r in
  returns_normally device_put evs w0 ∧
  delivered k (run device_put evs w0) = passed k evs.
Proof.
  intros Hh w0.
  assert (Hn : returns_normally device_put evs w0).
  { apply (same_keys_returns K); [by apply init_inv|done|done]. }
  split; [done|].
  rewrite (add_async_conservation device_put evs k w0); [done| |done].
  eapply Forall_impl; [exact Hh|]. intros [[]|]; try done. by intros [? _].
Qed.

End same_keys_properties.

(** ** Further properties of the merge *)

Lemma wpo_lift_outcome {S A} (o : outcome A) (P : outcome A → S → Prop) (s : S) :
  wpo (lift_outcome o) P s = P o s.
Proof. done. Qed.

Lemma wpo_store l v (P : outcome unit → replica → Prop) r :
  wpo (store l v) P r = P (Ok tt) (set_heap (<[l:=v]> (heap r)) r).
Proof. done. Qed.

Lemma wpo_alloc v (P : outcome loc → replica → Prop) r :
  wpo (alloc v) P r = P (Ok (length (heap r))) (set_heap (heap r ++ [v]) r).
Proof. done. Qed.

Lemma wpo_param_tracked key r l v (P : outcome (loc * value) → replica → Prop) :
  dict_get key (_parameters r) = Some l → heap r !! l = Some v →
  wpo (param key) P r = P (Ok (l, v)) r.
Proof. intros Hk Hl. apply wpo_known. by apply param_run. Qed.

Lemma wpo_param_untracked key r (P : outcome (loc * value) → replica → Prop) :
  dict_get key (_parameters r) = None →
  wpo (param key) P r = P (Raise (KeyError key)) r.
Proof. intros Hk. apply wpo_known. by apply param_untracked. Qed.

#[global] Hint Rewrite @wpo_lift_outcome wpo_store wpo_alloc : wpo.

Lemma string_eqb_refl s : String.eqb s s = true.
Proof. by apply String.eqb_eq. Qed.

Lemma dict_get_elem {V} k (d : dict V) v : dict_get k d = Some v → (k, v) ∈ d.
Proof.
  induction d as [|[k' v'] d IH]; simpl; [done|].
  destruct (String.eqb_spec k k') as [->|Hne].
  - intros [= ->]. by left.
  - intros H. right. by apply IH.
Qed.

Lemma dict_set_set {V} k (v v' : V) d :
  dict_set k v (dict_set k v' d) = dict_set k v d.
Proof.
  induction d as [|[k' x] d IH]; simpl.
  - by rewrite string_eqb_refl.
  - destruct (String.eqb k k') eqn:Hk; simpl; rewrite Hk; [done|by rewrite IH].
Qed.

Lemma dict_set_get_id {V} k (v : V) d : dict_get k d = Some v → dict_set k v d = d.
Proof.
  induction d as [|[k' x] d IH]; simpl; [done|].
  destruct (String.eqb k k'); [by intros [= ->]|]. intros H. by rewrite IH.
Qed.

Lemma dict_keys_set {V} k (v : V) d :
  k ∈ dict_keys d → dict_keys (dict_set k v d) = dict_keys d.
Proof.
  unfold dict_keys. induction d as [|[k' x] d IH]; cbn [dict_set].
  - by intros ?%elem_of_nil.
  - destruct (String.eqb_spec k k') as [->|Hne]; [done|].
    rewrite !fmap_cons. intros [?|?]%elem_of_cons; [done|]. f_equal. by apply IH.
Qed.

Lemma set_heap_id r l v : heap r !! l = Some v → set_heap (<[l:=v]> (heap r)) r = r.
Proof. intros H. unfold set_heap. rewrite list_insert_id by done. by destruct r. Qed.

Lemma mjoin_replicate {A} n m (a : A) :
  mjoin (replicate n (replicate m a)) = replicate (n * m) a.
Proof.
  induction n as [|n IH]; simpl; [done|]. by rewrite IH, replicate_add.
Qed.

Lemma expand_scalar {A} ts (a : A) :
  expand ts [] [a] = replicate (size_of ts) a.
Proof.
  induction ts as [|n ts IH]; [done|]. cbn [expand].
  rewrite decide_True by (simpl; lia). rewrite IH. simpl.
  by rewrite mjoin_replicate.
Qed.

Lemma broadcast_scalar {A} ts (a : A) :
  broadcast ts [] [a] = Some (replicate (size_of ts) a).
Proof.
  unfold broadcast, broadcastable. rewrite reverse_nil.
  assert (compatible (reverse ts) [] = true) as -> by (by destruct (reverse ts)).
  by rewrite expand_scalar.
Qed.

Lemma Forall2_replicate_inv {A B} (R : A → B → Prop) es n b :
  Forall2 R es (replicate n b) → length es = n ∧ Forall (λ e, R e b) es.
Proof.
  revert es. induction n as [|n IH]; intros es; simpl.
  - by intros ->%Forall2_nil_inv_r.
  - intros (e & es' & He & Hes & ->)%Forall2_cons_inv_r.
    destruct (IH _ Hes) as [<- ?]. split; [done|by constructor].
Qed.

Section merge_further.
Context (device_put : value → device_entry → outcome value).

(** The loop over the keys of a server dictionary without nested
    dictionaries. *)
Lemma copy_flat_loop devices key nd l ks : ∀ r ld0,
  dict_get key (_parameters r) = Some l →
  heap r !! l = Some (VDict ld0) →
  (∀ k, k ∈ ks → ∃ v, dict_get k nd = Some v ∧ ∀ d, v ≠ VDict d) →
  for_ ks (copy_type1 devices key (VDict nd)) r =
  (Ok tt,
   set_heap (<[l:=VDict (foldl (λ d k, dict_set k (default VNone (dict_get k nd)) d)
                           ld0 ks)]> (heap r)) r).
Proof.
  induction ks as [|k ks IH]; intros r ld0 Hk Hl Hall; simpl.
  - by rewrite set_heap_id.
  - destruct (Hall k) as (v & Hv & Hnd); [by left|].
    apply wpo_eq. wpo_simpl. unfold copy_type1 at 1. wpo_simpl. simpl.
    rewrite Hv. wpo_simpl.
    assert (Hbody : ∀ P : outcome unit → replica → Prop,
      wpo ('(l0, obj) ← param key;
           obj' ← setitem_str obj k v; store l0 obj') P r =
      P (Ok tt) (set_heap (<[l:=VDict (dict_set k v ld0)]> (heap r)) r)).
    { intros P. wpo_simpl. rewrite (wpo_param_tracked _ _ _ _ _ Hk Hl).
      simpl. by wpo_simpl. }
    assert (Hlt : l < length (heap r)) by (by eapply lookup_lt_Some).
    destruct v; try (by edestruct Hnd); rewrite Hbody;
      (erewrite wpo_known;
       [|eapply IH;
         [done|by apply list_lookup_insert_eq|by intros; apply Hall; right]]);
      simpl; by rewrite list_insert_insert_eq.
Qed.

(** X8: a server dictionary without nested dictionaries is merged entry by
    entry into the local dictionary, which stays the same object: every
    key of the server dictionary is overwritten or created, every other
    local key is kept, and the configured devices play no role. *)
Theorem copy_dict_one_level devices new_parameters key r l nd ld :
  dict_get key new_parameters = Some (VDict nd) →
  Forall (λ kv, ∀ d, kv.2 ≠ VDict d) nd →
  dict_get key (_parameters r) = Some l →
  heap r !! l = Some (VDict ld) →
  ∃ ld',
    copy_key device_put devices new_parameters key r =
      (Ok tt, Replica (_parameters r) (<[l:=VDict ld']> (heap r))) ∧
    ∀ k, dict_get k ld' =
         match dict_get k nd with Some v => Some v | None => dict_get k ld end.
Proof.
  intros Hnew Hflat Hk Hl.
  assert (Hall : ∀ k, k ∈ dict_keys nd →
            ∃ v, dict_get k nd = Some v ∧ ∀ d, v ≠ VDict d).
  { intros k [v Hv]%dict_get_is_Some_keys. exists v. split; [done|].
    apply dict_get_elem in Hv. rewrite Forall_forall in Hflat.
    apply (Hflat _ Hv). }
  eexists. split.
  - apply wpo_eq. unfold copy_key. wpo_simpl. rewrite Hnew. wpo_simpl.
    erewrite wpo_known; [|by apply (copy_flat_loop devices key nd l _ r ld)].
    done.
  - intros k.
    rewrite (dict_get_foldl_set (λ k, default VNone (dict_get k nd))).
    destruct (decide (k ∈ dict_keys nd)) as [Hin|Hin].
    + by destruct (Hall k Hin) as (v & -> & _).
    + by rewrite (dict_get_not_key _ _ Hin).
Qed.

(** X6: with devices configured, the merge of an array does not update the
    local array: it binds the name to a new object, the value placed on
    the device; no existing object changes, so a holder of the old array
    does not see the merge.  The name need not be tracked beforehand. *)
Theorem copy_array_on_device devices new_parameters key r na dev v :
  devices ≠ [] →
  dict_get key new_parameters = Some (VArray na) →
  dict_get key devices = Some dev →
  device_put (VArray na) dev = Ok v →
  let res := copy_key device_put devices new_parameters key r in
  res.1 = Ok tt ∧
  (∀ l x, heap r !! l = Some x → heap res.2 !! l = Some x) ∧
  (∃ l', dict_get key (_parameters res.2) = Some l' ∧
         heap r !! l' = None ∧ heap res.2 !! l' = Some v) ∧
  (∀ k, k ≠ key →
        dict_get k (_parameters res.2) = dict_get k (_parameters r)).
Proof.
  intros Hd Hn Hdev Hput res.
  assert (Hres : res = (Ok tt, Replica (dict_set key (length (heap r)) (_parameters r))
                                 (heap r ++ [v]))).
  { subst res. apply wpo_eq. unfold copy_key. wpo_simpl. rewrite Hn.
    assert (truthy devices = true) as -> by (by destruct devices).
    wpo_simpl. rewrite Hdev. wpo_simpl. rewrite Hput. by wpo_simpl. }
  rewrite Hres. simpl. split_and!; [done| | |].
  - intros l x Hl. by apply lookup_app_l_Some.
  - exists (length (heap r)). rewrite dict_get_set_eq. split_and!; [done| |].
    + by apply lookup_ge_None_2.
    + by apply list_lookup_middle.
  - intros k Hk. by apply dict_get_set_ne.
Qed.

(** X7: the merge of an entry whose name the replica does not track raises
    KeyError for that name and changes nothing, when the entry is a
    non-empty dictionary, a tuple, or (without devices) an array. *)
Theorem copy_untracked_name devices new_parameters key v r :
  dict_get key new_parameters = Some v →
  dict_get key (_parameters r) = None →
  match v with
  | VDict d => d ≠ []
  | VArray _ => devices = []
  | VTuple _ => True
  | _ => False
  end →
  copy_key device_put devices new_parameters key r = (Raise (KeyError key), r).
Proof.
  intros Hv Hk Hcase. apply wpo_eq. unfold copy_key. wpo_simpl. rewrite Hv.
  destruct v as [d|a|t| | | |]; try done.
  - destruct d as [|[t1 v1] d]; [done|]. simpl. wpo_simpl.
    unfold copy_type1 at 1. wpo_simpl. simpl. rewrite string_eqb_refl. wpo_simpl.
    destruct v1; wpo_simpl; by rewrite wpo_param_untracked.
  - subst devices. simpl. wpo_simpl. unfold imul_zero. wpo_simpl.
    by rewrite wpo_param_untracked.
  - wpo_simpl. by rewrite wpo_param_untracked.
Qed.

(** The loop over the local keys of a nested dictionary. *)
Lemma copy_nested_loop key t1 nd1 l ks : ∀ r ld cur,
  dict_get key (_parameters r) = Some l →
  heap r !! l = Some (VDict ld) →
  dict_get t1 ld = Some (VDict cur) →
  (∀ k, k ∈ ks → is_Some (dict_get k nd1)) →
  for_ ks (copy_type2 [] key t1 (VDict nd1)) r =
  (Ok tt,
   set_heap
     (<[l:=VDict (dict_set t1
                    (VDict (foldl (λ d k, dict_set k (default VNone (dict_get k nd1)) d)
                              cur ks)) ld)]> (heap r)) r).
Proof.
  induction ks as [|k ks IH]; intros r ld cur Hk Hl Ht Hall; simpl.
  - by rewrite (dict_set_get_id _ _ _ Ht), set_heap_id.
  - destruct (Hall k) as (v & Hv); [by left|].
    apply wpo_eq. wpo_simpl. unfold copy_type2 at 1. simpl. wpo_simpl.
    rewrite Hv. wpo_simpl. rewrite (wpo_param_tracked _ _ _ _ _ Hk Hl).
    simpl. wpo_simpl. rewrite Ht. simpl. wpo_simpl.
    assert (Hlt : l < length (heap r)) by (by eapply lookup_lt_Some).
    erewrite wpo_known;
      [|eapply IH;
        [done|by apply list_lookup_insert_eq|by apply dict_get_set_eq
        |by intros; apply Hall; right]].
    simpl. by rewrite list_insert_insert_eq, dict_set_set.
Qed.

Lemma foldl_set_keys {V} (f : string → V) ks : ∀ d,
  (∀ k, k ∈ ks → k ∈ dict_keys d) →
  dict_keys (foldl (λ d k, dict_set k (f k) d) d ks) = dict_keys d.
Proof.
  induction ks as [|k ks IH]; intros d Hall; simpl; [done|].
  rewrite IH.
  - apply dict_keys_set. apply Hall. by left.
  - intros k' Hk'. rewrite dict_keys_set by (apply Hall; by left).
    apply Hall. by right.
Qed.

(** X9: a nested server dictionary is merged over the keys that the local
    inner dictionary already has: these take the server's values, the
    inner dictionary gets no new key (what the server holds under other
    keys is dropped), and a local key that the server does not hold raises
    KeyError. *)
Theorem copy_nested_dict_local_keys key d t1 nd1 r l ld ld1 :
  dict_get t1 d = Some (VDict nd1) →
  dict_get key (_parameters r) = Some l →
  heap r !! l = Some (VDict ld) →
  dict_get t1 ld = Some (VDict ld1) →
  ((∀ k, k ∈ dict_keys ld1 → is_Some (dict_get k nd1)) →
   ∃ ld1',
     copy_type1 [] key (VDict d) t1 r =
       (Ok tt, Replica (_parameters r)
                 (<[l:=VDict (dict_set t1 (VDict ld1') ld)]> (heap r))) ∧
     dict_keys ld1' = dict_keys ld1 ∧
     ∀ k, k ∈ dict_keys ld1 → dict_get k ld1' = dict_get k nd1) ∧
  (∀ ks1 k ks2,
     dict_keys ld1 = ks1 ++ k :: ks2 →
     (∀ k', k' ∈ ks1 → is_Some (dict_get k' nd1)) →
     dict_get k nd1 = None →
     (copy_type1 [] key (VDict d) t1 r).1 = Raise (KeyError k)).
Proof.
  intros Hd Hk Hl Ht.
  assert (Hrun : copy_type1 [] key (VDict d) t1 r =
                 for_ (dict_keys ld1) (copy_type2 [] key t1 (VDict nd1)) r).
  { unfold copy_type1. unfold mbind, M_bind at 1. rewrite run_bind. simpl.
    rewrite Hd. unfold or_raise at 1, ret at 1.
    unfold mbind, M_bind at 1. rewrite run_bind, (param_run _ _ _ _ Hk Hl).
    unfold mbind, M_bind at 1. rewrite run_bind. simpl. rewrite Ht.
    unfold or_raise at 1, ret at 1.
    unfold mbind, M_bind at 1. by rewrite run_bind. }
  split.
  - intros Hall. eexists. split_and!.
    + rewrite Hrun. by apply copy_nested_loop.
    + by apply foldl_set_keys.
    + intros k Hin.
      rewrite (dict_get_foldl_set (λ k, default VNone (dict_get k nd1))).
      rewrite decide_True by done. by destruct (Hall k Hin) as [v ->].
  - intros ks1 k ks2 Hks Hpre Hnone. rewrite Hrun, Hks, for_app.
    rewrite (copy_nested_loop key t1 nd1 l ks1 r ld ld1) by done.
    assert (Hlt : l < length (heap r)) by (by eapply lookup_lt_Some).
    simpl. unfold mbind, M_bind at 1. rewrite run_bind.
    unfold copy_type2 at 1. simpl.
    unfold mbind, M_bind at 1. rewrite run_bind. by rewrite Hnone.
Qed.

(** X10: with devices configured, a nested server dictionary cannot be
    merged: as soon as the local inner dictionary has a key, the merge of
    the entry raises NotImplementedError with the devices message and
    changes nothing; with an empty local inner dictionary it silently does
    nothing. *)
Theorem copy_nested_dict_devices devices key d t1 nd1 r l ld ld1 :
  devices ≠ [] →
  dict_get t1 d = Some (VDict nd1) →
  dict_get key (_parameters r) = Some l →
  heap r !! l = Some (VDict ld) →
  dict_get t1 ld = Some (VDict ld1) →
  copy_type1 devices key (VDict d) t1 r =
  (if truthy ld1 then Raise (NotImplementedError devices_msg) else Ok tt, r).
Proof.
  intros Hdev Hd Hk Hl Ht. apply wpo_eq. unfold copy_type1. wpo_simpl. simpl.
  rewrite Hd. wpo_simpl. rewrite (wpo_param_tracked _ _ _ _ _ Hk Hl).
  simpl. rewrite Ht. wpo_simpl. simpl. wpo_simpl.
  destruct ld1 as [|[k2 v2] ld1]; simpl; wpo_simpl; [done|].
  unfold copy_type2 at 1.
  assert (truthy devices = true) as -> by (by destruct devices).
  by wpo_simpl.
Qed.

(** X11: a merge of an array that fails leaves the local array multiplied
    by zero.  When the shapes differ and the server value has no first
    slice, the merge raises IndexError; when the first slice does not
    broadcast to the local shape, ValueError; when the server value is
    floating-point and the local array holds integers, numpy refuses the
    cast (UFuncTypeError).  In each case [*= 0] has already been applied to
    the local array, the same object: it holds zeros wherever its elements
    were neither infinite nor NaN. *)
Theorem copy_array_failure_zeroes new_parameters key r l la na :
  dict_get key new_parameters = Some (VArray na) →
  dict_get key (_parameters r) = Some l →
  heap r !! l = Some (VArray la) →
  wf_ndarray la →
  ∃ z,
    imul0 la = Some z ∧
    (Forall (λ x, finite x = true) (data la) →
     Forall (λ x, is_zero x = true) (data z)) ∧
    let zeroed := Replica (_parameters r) (<[l:=VArray z]> (heap r)) in
    (shape na ≠ shape la → getitem na 0 = None →
     copy_key device_put [] new_parameters key r = (Raise IndexError, zeroed)) ∧
    (shape na ≠ shape la →
     ∀ b, getitem na 0 = Some b →
          cast_refused (dtype la) (dtype b) = false →
          broadcast (shape la) (shape b) (data b) = None →
          copy_key device_put [] new_parameters key r =
            (Raise ValueError, zeroed)) ∧
    (cast_refused (dtype la) (dtype na) = true →
     shape na = shape la ∨ is_Some (getitem na 0) →
     copy_key device_put [] new_parameters key r =
       (Raise UFuncTypeError, zeroed)).
Proof.
  intros Hnew Hk Hl Hwf.
  assert (Hlt : l < length (heap r)) by (by eapply lookup_lt_Some).
  destruct (imul0_wf la Hwf) as (z & Hz & _ & Hzero).
  destruct (imul0_inv _ _ Hz) as [Hdz Hsz].
  exists z. split; [done|]. split; [done|]. cbv zeta.
  assert (Hrun : ∀ op,
    (if bool_decide (shape na ≠ shape la) then getitem na 0 else Some na) = op →
    copy_key device_put [] new_parameters key r =
    match op with
    | None => (Raise IndexError,
               Replica (_parameters r) (<[l:=VArray z]> (heap r)))
    | Some b =>
        match iadd z b with
        | Computed x =>
            (Ok tt, Replica (_parameters r) (<[l:=VArray x]> (heap r)))
        | CastRefused =>
            (Raise UFuncTypeError,
             Replica (_parameters r) (<[l:=VArray z]> (heap r)))
        | ShapesDiffer =>
            (Raise ValueError,
             Replica (_parameters r) (<[l:=VArray z]> (heap r)))
        | NotModelled =>
            (Unmodelled, Replica (_parameters r) (<[l:=VArray z]> (heap r)))
        end
    end).
  { intros op Hop.
    rewrite (copy_array_run device_put _ _ _ _ _ _ Hnew Hk Hl), Hz, Hop.
    rewrite (iadd_array_run key _ l z);
      [|done|by simpl; apply list_lookup_insert_eq].
    destruct op as [b|]; [|done]. destruct (iadd z b); simpl; try done.
    by rewrite list_insert_insert_eq. }
  split_and!.
  - intros Hs Hg. rewrite (Hrun None); [done|].
    by rewrite bool_decide_true.
  - intros Hs b Hg Hcast Hb. rewrite (Hrun (Some b)).
    + unfold iadd. by rewrite Hdz, Hcast, Hsz, Hb.
    + by rewrite bool_decide_true.
  - intros Hcast [Hs|[b Hg]].
    + rewrite (Hrun (Some na)).
      * unfold iadd. by rewrite Hdz, Hcast.
      * by rewrite bool_decide_false by (by intros ?).
    + destruct (decide (shape na = shape la)) as [Hs|Hs].
      * rewrite (Hrun (Some na)).
        -- unfold iadd. by rewrite Hdz, Hcast.
        -- by rewrite bool_decide_false by (by intros ?).
      * rewrite (Hrun (Some b)).
        -- unfold iadd. by rewrite Hdz, (getitem_dtype _ _ _ Hg), Hcast.
        -- by rewrite bool_decide_true.
Qed.

(** X12: a local tuple cannot be updated: the merge of a non-empty server
    tuple into a non-empty local tuple raises TypeError at the first
    element and changes nothing. *)
Theorem copy_local_tuple_type_error new_parameters key r l t ys :
  dict_get key new_parameters = Some (VTuple t) →
  dict_get key (_parameters r) = Some l →
  heap r !! l = Some (VTuple ys) →
  t ≠ [] → ys ≠ [] →
  copy_key device_put [] new_parameters key r = (Raise TypeError, r).
Proof.
  intros Hnew Hk Hl Ht Hys. apply wpo_eq. unfold copy_key. wpo_simpl.
  rewrite Hnew. wpo_simpl. rewrite (wpo_param_tracked _ _ _ _ _ Hk Hl).
  simpl. wpo_simpl. destruct ys as [|y ys]; [done|]. simpl. wpo_simpl.
  unfold copy_index at 1. wpo_simpl. destruct t as [|x t]; [done|]. simpl.
  wpo_simpl. unfold setitem_index. wpo_simpl.
  rewrite (wpo_param_tracked _ _ _ _ _ Hk Hl). by wpo_simpl.
Qed.

(** X13: when the server value is one-dimensional, of the local dtype, and
    the local array has another shape and holds no infinity or NaN, the
    merge fills the whole local array with the first element of the server
    value: only [new_parameters[key][0]] is used, and it is a scalar that
    broadcasts to any shape.  Every element of the local array becomes that
    first element (positive zero, possibly, where it is negative zero). *)
Theorem copy_array_scalar_fill new_parameters key r l la k a d :
  dict_get key new_parameters =
    Some (VArray (NdArray (dtype la) [S k] (a :: d))) →
  dict_get key (_parameters r) = Some l →
  heap r !! l = Some (VArray la) →
  wf_ndarray la →
  Forall (λ x, finite x = true) (data la) →
  valid_scalar (dtype la) a = true →
  shape la ≠ [S k] →
  ∃ x,
    copy_key device_put [] new_parameters key r =
      (Ok tt, Replica (_parameters r) (<[l:=VArray x]> (heap r))) ∧
    dtype x = dtype la ∧ shape x = shape la ∧
    length (data x) = size_of (shape la) ∧
    Forall (λ e, stored_as e a) (data x) ∧
    (a ≠ negative_zero → data x = replicate (size_of (shape la)) a).
Proof.
  intros Hnew Hk Hl Hwf Hfin Ha Hshape.
  assert (Hlt : l < length (heap r)) by (by eapply lookup_lt_Some).
  destruct (imul0_wf la Hwf) as (z & Hz & [Hlz Hvz] & Hzero).
  destruct (imul0_inv _ _ Hz) as [Hdz Hsz].
  set (n := size_of (shape la)).
  destruct (add_zero_list (dtype la) (data z) (replicate n a))
    as (es & Hes & Hstored & _);
    [by apply Hzero|by rewrite <- Hdz|by apply Forall_replicate
    |by rewrite length_replicate, Hlz, Hsz|].
  destruct (Forall2_replicate_inv _ _ _ _ Hstored) as [Hlen Hall].
  exists (NdArray (dtype la) (shape la) es). split_and!; try done.
  - rewrite (copy_array_run device_put _ _ _ _ _ _ Hnew Hk Hl), Hz. simpl.
    rewrite bool_decide_true by congruence.
    rewrite (iadd_array_run key _ l z);
      [|done|by simpl; apply list_lookup_insert_eq].
    unfold getitem, iadd. simpl.
    rewrite take_0, Hdz, cast_refused_same, Hsz, broadcast_scalar. fold n.
    rewrite Hes. simpl. by rewrite list_insert_insert_eq.
  - intros Hnz. simpl. apply stored_exact; [done|].
    by apply Forall_replicate.
Qed.

End merge_further.

(** ** Frames of the client methods *)

Lemma wpo_set_payload (P : outcome (dict value) → world → Prop) w :
  wpo set_payload P w = P (set_payload w).1 w.
Proof. unfold wpo. by rewrite set_payload_state. Qed.

Lemma wp_wpo {S A} (m : M S A) (Q : A → S → Prop) E s :
  wpo m (λ o s', match o with Ok a => Q a s' | _ => E s' end) s → wp m Q E s.
Proof. unfold wp, wpo. by destruct (m s) as [[a|e|] s']. Qed.

Lemma buffer_loop_local (body : string → M world unit) names w0 : ∀ w,
  (∀ x w1, wp (body x) (λ _ w', local w' = local w1) (λ w', local w' = local w1) w1) →
  local w = local w0 →
  wp (for_ names body) (λ _ w', local w' = local w0) (λ w', local w' = local w0) w.
Proof.
  intros w Hbody Hw.
  apply (wp_for (λ s, local s = local w0)); [done| |done].
  intros x s' Hs'. eapply wp_mono; [apply Hbody| |]; simpl; congruence.
Qed.

Lemma buffer_iadd_local params x w :
  wp (buffer_iadd params x) (λ _ w', local w' = local w) (λ w', local w' = local w) w.
Proof.
  unfold buffer_iadd, update. wp_simpl.
  destruct (dict_get x _); [|done]. destruct (dict_get x params); [|done].
  by wp_simpl.
Qed.

Lemma buffer_assign_local params x w :
  wp (buffer_assign params x) (λ _ w', local w' = local w) (λ w', local w' = local w) w.
Proof.
  unfold buffer_assign, update. wp_simpl.
  destruct (dict_get x params); [|done]. by wp_simpl.
Qed.

Section frame_properties.
Context (device_put : value → device_entry → outcome value).

(** X14: the calls that push to the server ([set_async], [add_async],
    [set_and_wait], [add_and_wait]) never change the local replica,
    whether they send, buffer, do nothing or raise. *)
Theorem push_calls_keep_replica c e w :
  match c with
  | SetAsync _ | AddAsync _ | SetAndWait _ | AddAndWait _ => True
  | _ => False
  end →
  local (run_call device_put c e w).2 = local w.
Proof.
  intros Hc.
  apply (wp_run (run_call device_put c e) (λ w', local w' = local w)).
  destruct c as [|params|  |params|params| | |params]; try done; simpl.
  - unfold set_async, update, _async_adjust, _async_adjust_param, send. wp_simpl.
    destruct (bool_decide (_ < _)%Z); simpl;
      (destruct (_ && _);
       [destruct params; wp_simpl; [done|];
        apply wp_wpo; rewrite wpo_set_payload;
        destruct (set_payload _).1; by wp_simpl
       |destruct (_set_future (client w)); wp_simpl; [|done];
        simpl; destruct (_ !! _); [|done];
        destruct (negb _); by wp_simpl]).
  - unfold add_async, update, _async_add, send. wp_simpl.
    assert (Hrest : ∀ w1, local w1 = local w →
      wp (c ← gets client;
          match _add_future c with
          | None =>
              if negb (truthy (_async_add_buffer c)) then
                f ← _async_add params; update (with_add_future (Some f))
              else
                for_ (dict_keys params) (buffer_iadd params);;
                c ← gets client;
                f ← _async_add (_async_add_buffer c);
                update (with_add_future (Some f));;
                update (with_async_add_buffer [])
          | Some _ =>
              if truthy (_async_add_buffer c)
              then for_ (dict_keys params) (buffer_iadd params)
              else for_ (dict_keys params) (buffer_assign params)
          end)
         (λ _ w', local w' = local w) (λ w', local w' = local w) w1).
    { intros w1 Hw1. unfold update, _async_add, send. wp_simpl.
      destruct (_add_future (client w1)).
      - destruct (truthy _).
        + apply buffer_loop_local; [apply buffer_iadd_local|done].
        + apply buffer_loop_local; [apply buffer_assign_local|done].
      - destruct (truthy _); simpl; wp_simpl; [|done].
        eapply wp_mono;
          [apply (buffer_loop_local _ _ w); [apply buffer_iadd_local|done]| |done].
        simpl. intros _ s' Hs'. by wp_simpl. }
    destruct (_add_future (client w)) as [f|]; wp_simpl.
    + destruct (_ !! _); [|done]. destruct (negb _); simpl; wp_simpl;
        by apply Hrest.
    + by apply Hrest.
  - unfold set_and_wait, _adjust, _adjust_param, send.
    destruct params; wp_simpl; [done|].
    apply wp_wpo; rewrite wpo_set_payload.
    destruct (set_payload _).1; by wp_simpl.
Qed.

Lemma blocking_calls_frame c e w :
  match c with
  | GetAndWait | GetAllAndWait | SetAndWait _ | AddAndWait _ => True
  | _ => False
  end →
  let w' := (run_call device_put c e w).2 in
  client w' = client w ∧
  ∃ news, server_log w' = server_log w ++ news ∧ length news ≤ 1 ∧
          Forall (λ r, pending r = false ∧ req_kind r = KWait ∧
                       req_callback r = false) news.
Proof.
  intros Hc w'. subst w'.
  apply (wp_run (run_call device_put c e)
           (λ w', client w' = client w ∧
              ∃ news, server_log w' = server_log w ++ news ∧ length news ≤ 1 ∧
                Forall (λ r, pending r = false ∧ req_kind r = KWait ∧
                             req_callback r = false) news)).
  assert (H0 : ∀ l, client (set_local l w) = client w ∧
             ∃ news, server_log (set_local l w) = server_log w ++ news ∧
               length news ≤ 1 ∧
               Forall (λ r, pending r = false ∧ req_kind r = KWait ∧
                            req_callback r = false) news).
  { intros l. split; [done|]. exists []. rewrite app_nil_r.
    split_and!; [done|simpl; lia|constructor]. }
  assert (H1 : ∀ l r, pending r = false → req_kind r = KWait →
             req_callback r = false →
             client (set_local l (set_server_log (server_log w ++ [r]) w)) =
               client w ∧
             ∃ news, server_log (set_local l (set_server_log (server_log w ++ [r]) w)) =
                       server_log w ++ news ∧
               length news ≤ 1 ∧
               Forall (λ r, pending r = false ∧ req_kind r = KWait ∧
                            req_callback r = false) news).
  { intros l r ? ? ?. split; [done|]. exists [r]. simpl. split_and!; [done|lia|].
    by repeat constructor. }
  destruct c as [| | | |params| | |params]; try done; simpl.
  - unfold add_and_wait, _add, send. wp_simpl. simpl.
    by apply (H1 (local w)).
  - unfold get_and_wait, _request, send. wp_simpl. simpl.
    apply wp_copy; intros l; by apply (H1 l).
  - unfold get_all_and_wait, _request_all, send. wp_simpl. simpl.
    apply wp_copy; intros l; by apply (H1 l).
  - unfold set_and_wait, _adjust, _adjust_param, send.
    destruct params; wp_simpl; simpl; [by apply (H1 (local w))|].
    apply wp_wpo; rewrite wpo_set_payload.
    destruct (set_payload _).1; wp_simpl; simpl;
      [by apply (H1 (local w))|by apply (H0 (local w))..].
Qed.

(** X15: the blocking calls ([get_and_wait], [get_all_and_wait],
    [set_and_wait], [add_and_wait]) leave the client object as it is:
    counters, slots and buffer are untouched, so they do not disturb the
    schedule of the asynchronous calls; they send at most one request,
    which is answered before they return, also when the merge raises. *)
Theorem blocking_calls_keep_client c e w :
  match c with
  | GetAndWait | GetAllAndWait | SetAndWait _ | AddAndWait _ => True
  | _ => False
  end →
  let w' := (run_call device_put c e w).2 in
  client w' = client w ∧
  ∃ news, server_log w' = server_log w ++ news ∧ length news ≤ 1 ∧
          Forall (λ r, pending r = false ∧ req_kind r = KWait ∧
                       req_callback r = false) news.
Proof. apply blocking_calls_frame. Qed.

Lemma wpo_result f (P : outcome (dict value) → world → Prop) w :
  wpo (result f) P w =
  match server_log w !! f with
  | Some (Request _ _ _ (Some res) _) => P (Ok res) w
  | _ => P Unmodelled w
  end.
Proof. unfold result. wpo_simpl. by destruct (_ !! _) as [[? ? ? [] ?]|]. Qed.

Lemma wpo_copy new_parameters (P : outcome unit → world → Prop) w :
  wpo (copy device_put new_parameters) P w =
  P (_copy device_put (_devices (client w)) new_parameters (local w)).1
    (set_local (_copy device_put (_devices (client w)) new_parameters (local w)).2 w).
Proof. apply wpo_known, copy_run. Qed.

Lemma wpo_transport_nil (P : outcome unit → world → Prop) w :
  wpo (transport device_put []) P w = P (Ok tt) w.
Proof. done. Qed.

(** X16: when the merge of a completed response raises, [get_async] lets
    the exception through and keeps the handle of the response: the slot
    is not cleared, nothing is sent, and the replica is left as the failed
    merge left it, so later calls meet the same response again instead of
    requesting a new one. *)
Theorem get_async_failed_merge_keeps_handle e w f r res :
  arrivals e = [] →
  _get_future (client w) = Some f →
  server_log w !! f = Some r →
  req_result r = Some res →
  let merge := _copy device_put (_devices (client w)) res (local w) in
  merge.1 ≠ Ok tt →
  let out := get_async device_put e w in
  out.1 = merge.1 ∧
  _get_future (client out.2) = Some f ∧
  server_log out.2 = server_log w ∧
  local out.2 = merge.2.
Proof.
  intros He Hslot Hf Hres merge Hfail out. subst out.
  apply (wpo_step (get_async device_put e)
           (λ o w', o = merge.1 ∧ _get_future (client w') = Some f ∧
                    server_log w' = server_log w ∧ local w' = merge.2)).
  unfold get_async, update. wpo_simpl. rewrite He.
  assert (Hp : pending r = false) by (unfold pending; by rewrite Hres).
  destruct r as [rp rk ro rr rc]. simpl in Hres. subst rr.
  destruct (bool_decide (_ < _)%Z); simpl; wpo_simpl; simpl;
    rewrite Hslot, andb_false_r; simpl; wpo_simpl;
    rewrite wpo_transport_nil; wpo_simpl; simpl; rewrite Hslot; wpo_simpl;
    simpl; rewrite Hf; simpl; wpo_simpl; simpl;
    rewrite wpo_result; simpl; rewrite Hf; wpo_simpl;
    rewrite wpo_copy; simpl; fold merge;
    destruct merge.1 as [[]| |] eqn:Hm; done.
Qed.

End frame_properties.

(** ** Further properties of the observation hooks *)

Lemma dict_get_NoDup {V} k (v : V) d :
  NoDup (dict_keys d) → (k, v) ∈ d → dict_get k d = Some v.
Proof.
  unfold dict_keys. induction d as [|[k' v'] d IH]; simpl.
  - by intros _ ?%elem_of_nil.
  - rewrite NoDup_cons. intros [Hk' Hnd] [[= -> ->]|Hin]%elem_of_cons.
    + by rewrite string_eqb_refl.
    + destruct (String.eqb_spec k k') as [->|Hne]; [|by apply IH].
      exfalso. apply Hk'. apply list_elem_of_fmap. by exists (k', v).
Qed.

Lemma dict_set_fresh {V} k (v : V) d :
  k ∉ dict_keys d → dict_set k v d = d ++ [(k, v)].
Proof.
  unfold dict_keys. induction d as [|[k' v'] d IH]; simpl; [done|].
  rewrite not_elem_of_cons. intros [Hne Hk].
  destruct (String.eqb_spec k k') as [->|_]; [done|]. by rewrite IH.
Qed.

(** The loop that builds [adder_actions]. *)
Lemma adder_actions_loop {A} (ai : dict A) : ∀ rest (acc : dict (dict A)),
  NoDup (dict_keys acc ++ dict_keys rest) →
  (∀ kv, kv ∈ rest → dict_get kv.1 ai = Some kv.2) →
  foldl (λ (acc : dict (dict A)) agent,
           match dict_get agent ai with
           | Some a => dict_set agent [("actions_info", a)] acc
           | None => acc
           end) acc (dict_keys rest) =
  acc ++ ((λ kv, (kv.1, [("actions_info", kv.2)])) <$> rest).
Proof.
  induction rest as [|[k a] rest IH]; intros acc Hnd Hall; simpl.
  - by rewrite app_nil_r.
  - pose proof (Hall (k, a) ltac:(by left)) as Hka. simpl in Hka.
    rewrite Hka.
    apply NoDup_app in Hnd as (Hacc & Hdisj & Hrest).
    apply NoDup_cons in Hrest as [Hk Hrest].
    assert (Hfresh : k ∉ dict_keys acc).
    { intros Hin. apply (Hdisj k Hin). by left. }
    rewrite dict_set_fresh by done.
    rewrite IH.
    + by rewrite <- app_assoc.
    + unfold dict_keys in *. rewrite fmap_app. simpl.
      rewrite <- app_assoc. simpl. apply NoDup_app. split_and!; [done| |].
      * intros x Hx [->|Hin]%elem_of_cons; [done|]. apply (Hdisj x Hx). by right.
      * by apply NoDup_cons.
    + intros kv Hkv. apply Hall. by right.
Qed.

Section observing_further.
Context {timestep action_info : Type}.
Context (device_put : value → device_entry → outcome value).
Context (sort_str_num : list string → list string).
Context (sample_new_agent_keys :
  nat → list string → list (list string) → dict Z → value * dict string).

Local Abbreviation store := (@Observing.store timestep action_info).
Local Abbreviation hook := (@Observing.hook timestep action_info).
Local Abbreviation trigger :=
  (@Observing.trigger timestep action_info device_put sort_str_num
     sample_new_agent_keys).
Local Abbreviation run_hooks :=
  (@Observing.run_hooks timestep action_info device_put sort_str_num
     sample_new_agent_keys).

Lemma trigger_without_sink (h : hook) (s : store) :
  Observing.adder s = None →
  let s' := (trigger h s).2 in
  Observing.adder s' = None ∧
  Observing.agent_net_keys s' = Observing.agent_net_keys s ∧
  Observing.network_int_keys_extras s' = Observing.network_int_keys_extras s.
Proof.
  intros Hsink. destruct h as [draw ts ex|ai ts ex|e|e]; simpl.
  - unfold Observing.on_execution_observe_first. munfold. simpl.
    by rewrite Hsink.
  - unfold Observing.on_execution_observe. munfold. simpl.
    by rewrite Hsink.
  - unfold Observing.on_execution_update, Observing.on_client.
    destruct (Observing.executor_parameter_client s) as [w|]; simpl; [|done].
    by destruct (get_async _ _ _) as [o w'].
  - unfold Observing.on_execution_force_update, Observing.on_client.
    destruct (Observing.executor_parameter_client s) as [w|]; simpl; [|done].
    by destruct (get_and_wait _ _ _) as [o w'].
Qed.

(** X17: an executor without a sink never samples networks: whatever hooks
    run, [on_execution_observe_first] included, the agent-to-network
    assignment and the network identifiers stay as they were, and no sink
    appears. *)
Theorem no_sink_no_sampling (hs : list hook) (s : store) :
  Observing.adder s = None →
  let s' := run_hooks hs s in
  Observing.adder s' = None ∧
  Observing.agent_net_keys s' = Observing.agent_net_keys s ∧
  Observing.network_int_keys_extras s' = Observing.network_int_keys_extras s.
Proof.
  revert s. induction hs as [|h hs IH]; intros s Hsink; simpl; [done|].
  destruct (trigger_without_sink h s Hsink) as (Hs & Ha & Hn).
  destruct (IH _ Hs) as (Hs' & Ha' & Hn'). simpl in *.
  by rewrite Hs', Ha', Hn', Ha, Hn.
Qed.

(** X18: with a sink, [on_execution_observe] records one [add] whose
    action dictionary has exactly the agents of [actions_info], in their
    order, each wrapped under the key ["actions_info"], together with the
    next timestep; the metadata sent is the executor's [next_extras] with
    only the ["network_int_keys"] entry set to the stored identifiers. *)
Theorem observe_records_actions (s : store) ai nts nex sink :
  Observing.adder s = Some sink →
  NoDup (dict_keys ai) →
  ∃ meta,
    Observing.adder (trigger (Observing.Observe ai nts nex) s).2 =
      Some (sink ++
            [Observing.add ((λ kv, (kv.1, [("actions_info", kv.2)])) <$> ai)
               nts meta]) ∧
    dict_get "network_int_keys" meta =
      Some (Observing.network_int_keys_extras s) ∧
    ∀ k, k ≠ "network_int_keys" → dict_get k meta = dict_get k nex.
Proof.
  intros Hsink Hnd. eexists. split_and!.
  - simpl. unfold Observing.on_execution_observe, Observing.tell. munfold. simpl.
    rewrite Hsink. simpl. rewrite Hsink. simpl.
    rewrite (adder_actions_loop ai ai []); [done|done|].
    intros [k a] Hin. by apply dict_get_NoDup.
  - simpl. apply dict_get_set_eq.
  - intros k Hk. simpl. by apply dict_get_set_ne.
Qed.

End observing_further.

(** ** Invariants of the client object *)

Ltac keep :=
  cbv beta in *;
  repeat match goal with
         | H : _ ∧ _ |- _ => destruct H
         | H : bool_decide _ = true |- _ => apply bool_decide_eq_true in H
         | H : bool_decide _ = false |- _ => apply bool_decide_eq_false in H
         end;
  unfold config, counters_bounded in *; simpl in *;
  repeat match goal with
         | H : (_, _) = (_, _) |- _ => injection H as ? ? ? ? ? ?
         end;
  split; [congruence|]; lia.

Lemma wp_final {S A} (m : M S A) (P : S → Prop) s :
  P (m s).2 → wp m (λ _, P) P s.
Proof. unfold wp. by destruct (m s) as [[a|e|] s']. Qed.

Section client_invariants.
Context (device_put : value → device_entry → outcome value).
Context (sort_str_num : list string → list string).

Local Abbreviation J c0 :=
  (λ w' : world, config (client w') = config c0 ∧ counters_bounded (client w')).

Lemma buffer_loop_keep c0 (body : string → M world unit) names w :
  (∀ x w1, J c0 w1 → wp (body x) (λ _, J c0) (J c0) w1) →
  J c0 w → wp (for_ names body) (λ _, J c0) (J c0) w.
Proof.
  intros Hbody Hw. apply (wp_for (J c0)); [done| |done].
  intros x s' Hs'. by apply Hbody.
Qed.

Lemma buffer_iadd_keep c0 params x w :
  J c0 w → wp (buffer_iadd params x) (λ _, J c0) (J c0) w.
Proof.
  intros HJ. unfold buffer_iadd, update. wp_simpl.
  destruct (dict_get x _); [|done]. destruct (dict_get x params); [|done].
  wp_simpl. keep.
Qed.

Lemma buffer_assign_keep c0 params x w :
  J c0 w → wp (buffer_assign params x) (λ _, J c0) (J c0) w.
Proof.
  intros HJ. unfold buffer_assign, update. wp_simpl.
  destruct (dict_get x params); [|done]. wp_simpl. keep.
Qed.

Lemma get_async_keep c0 e w :
  J c0 w → wp (get_async device_put e) (λ _, J c0) (J c0) w.
Proof.
  intros HJ. unfold get_async, update, _async_request, send. wp_simpl.
  assert (Htail : ∀ w1, J c0 w1 →
    wp (transport device_put (arrivals e))
      (λ _ s', wp (bind (gets client) (λ c,
         match _get_future c with
         | Some f => bind (done f) (λ d, when d (bind (result f) (λ r,
              bind (copy device_put r) (λ _,
                modify (λ w, set_client (with_get_future None (client w)) w)))))
         | None => ret tt
         end)) (λ _, J c0) (J c0) s') (J c0) w1).
  { intros w1 Hw1. apply wp_transport. intros w' Hc _ _. rewrite <- Hc in Hw1.
    wp_simpl. destruct (_get_future (client w')) as [f|]; wp_simpl; [|done].
    destruct (server_log w' !! f) as [r|] eqn:Hr; [|done].
    destruct r as [rp rk ro [res|] rc]; simpl; wp_simpl; [|done].
    rewrite Hr. wp_simpl. apply wp_copy; intros l; wp_simpl; simpl; [|done].
    keep. }
  destruct (bool_decide (_get_call_counter _ < _)%Z) eqn:Hlt; wp_simpl; simpl;
    (destruct (bool_decide (_ >= _)%Z) eqn:Hge; simpl;
     [destruct (_get_future (client w)) as [f|] eqn:Hf; simpl|]);
    wp_simpl; apply Htail; simpl; keep.
Qed.

Lemma set_async_keep c0 params w :
  J c0 w → wp (set_async params) (λ _, J c0) (J c0) w.
Proof.
  intros HJ. unfold set_async.
  unfold update, _async_adjust, _async_adjust_param, send. wp_simpl.
  destruct (bool_decide (_set_call_counter _ < _)%Z) eqn:Hlt; wp_simpl; simpl.
  all: destruct (bool_decide (_ >= _)%Z) eqn:Hge; simpl.
  all: destruct (_set_future (client w)) as [f|] eqn:Hf; simpl; wp_simpl; simpl.
  all: try (by keep).
  all: try (destruct (server_log w !! f) as [[rp rk ro [res|] rc]|] eqn:Hr;
         simpl; wp_simpl; simpl; by keep).
  all: destruct params as [p|]; wp_simpl; simpl.
  all: try (apply wp_set_payload; [intros p l|intros l]; wp_simpl; simpl).
  all: keep.
Qed.

Lemma set_and_get_async_keep c0 e w :
  J c0 w → wp (set_and_get_async device_put e) (λ _, J c0) (J c0) w.
Proof.
  intros HJ. unfold set_and_get_async.
  unfold update, _async_adjust_and_request, _adjust_and_request, send. wp_simpl.
  destruct (bool_decide (_set_get_call_counter _ < _)%Z) eqn:Hlt; wp_simpl; simpl.
  all: destruct (bool_decide (_ >= _)%Z) eqn:Hge; simpl.
  all: destruct (_set_get_future (client w)) as [[s g]|] eqn:Hf; simpl;
    wp_simpl; simpl.
  all: try (by keep).
  all: try (destruct (server_log w !! s) as [[rp rk ro res rc]|] eqn:Hs;
         simpl; wp_simpl; simpl; [|by keep];
         destruct (server_log w !! g) as [[rp' rk' ro' res' rc']|] eqn:Hg;
         simpl; wp_simpl; simpl; [|by keep];
         destruct res as [res|], res' as [res'|]; simpl; wp_simpl; simpl;
         by keep).
  all: destruct (_multi_process (client w)) eqn:Hmp; simpl; wp_simpl.
  all: apply wp_set_payload; [intros p l|intros l; by keep];
    wp_simpl; simpl.
  all: try (by keep).
  all: apply wp_copy; intros l'; wp_simpl; simpl.
  all: keep.
Qed.

Lemma add_async_keep c0 params w :
  J c0 w → wp (add_async params) (λ _, J c0) (J c0) w.
Proof.
  intros HJ. unfold add_async. wp_simpl.
  match goal with |- wp _ (λ _ s', wp ?rest _ _ s') _ _ =>
    assert (Hrest : ∀ w1, J c0 w1 → wp rest (λ _, J c0) (J c0) w1) end.
  { intros w1 Hw1. unfold update, _async_add, send. wp_simpl.
    destruct (_add_future (client w1)) as [f|] eqn:Hf.
    - destruct (truthy _).
      + apply buffer_loop_keep; [apply buffer_iadd_keep|done].
      + apply buffer_loop_keep; [apply buffer_assign_keep|done].
    - destruct (truthy _); simpl; wp_simpl; [|by keep].
      eapply wp_mono;
        [apply (buffer_loop_keep c0); [apply buffer_iadd_keep|done]| |done].
      simpl. intros _ s' Hs'. wp_simpl. simpl. keep. }
  unfold update.
  destruct (_add_future (client w)) as [f|] eqn:Hf; wp_simpl.
  - destruct (server_log w !! f) as [[rp rk ro [res|] rc]|] eqn:Hr;
      simpl; wp_simpl; [| |done]; apply Hrest; simpl; keep.
  - by apply Hrest.
Qed.

Lemma run_call_keep c0 c e w :
  J c0 w → wp (run_call device_put c e) (λ _, J c0) (J c0) w.
Proof.
  intros HJ. destruct c as [|params| |params|params| | |params].
  - by apply get_async_keep.
  - by apply set_async_keep.
  - by apply set_and_get_async_keep.
  - by apply add_async_keep.
  - apply wp_final; cbv beta.
    by destruct (blocking_calls_frame device_put (AddAndWait params) e w I)
      as [-> _].
  - apply wp_final; cbv beta.
    by destruct (blocking_calls_frame device_put GetAndWait e w I) as [-> _].
  - apply wp_final; cbv beta.
    by destruct (blocking_calls_frame device_put GetAllAndWait e w I) as [-> _].
  - apply wp_final; cbv beta.
    by destruct (blocking_calls_frame device_put (SetAndWait params) e w I)
      as [-> _].
Qed.

Lemma run_keep c0 evs : ∀ w, J c0 w → J c0 (run device_put evs w).
Proof.
  induction evs as [|ev evs IH]; intros w HJ; [done|].
  rewrite run_cons. apply IH. destruct ev as [c e|f res]; simpl.
  - apply (wp_run (run_call device_put c e) (J c0)).
    by apply run_call_keep.
  - by destruct (deliver_frame device_put (f, res) w) as (-> & _ & _).
Qed.

(** X19: whatever is called on a client and whatever the transport
    completes, the fields that the constructor set (key lists, mode,
    update period, devices) keep their values, and each of the three call
    counters stays between 0 and the update period. *)
Theorem client_invariants parameters mp get_keys set_keys P devices r evs :
  let c0 := init sort_str_num parameters mp get_keys set_keys P devices in
  let w := run device_put evs (init_world c0 r) in
  config (client w) = config c0 ∧ counters_bounded (client w).
Proof.
  intros c0 w. apply (run_keep c0 evs (init_world c0 r)).
  split; [done|]. unfold counters_bounded. simpl. lia.
Qed.

End client_invariants.

(** ** Instances of the further properties *)

(** The payload of a client that sets the one name it tracks. *)
Lemma set_payload_reads_witness :
  ∃ p, set_payload (ex_world true) = (Ok p, ex_world true) ∧
       ∀ k, dict_get k p =
            if decide (k ∈ ["w"]) then tracked (local (ex_world true)) k
            else None.
Proof.
  apply (set_payload_reads (ex_world true)).
  intros k ->%list_elem_of_singleton. by eexists.
Defined.

(** A client that sets ["w"] and the untracked ["z"]. *)
Lemma set_untracked_key_error_witness :
  set_and_wait None ex_set_world = (Raise (KeyError "z"), ex_set_world) ∧
  (set_async None ex_set_world).1 = Raise (KeyError "z") ∧
  _set_call_counter (client (set_async None ex_set_world).2) = 1%Z.
Proof.
  destruct (set_untracked_key_error ex_set_world ["w"] "z" []) as [Hwait Hasync].
  - reflexivity.
  - intros k ->%list_elem_of_singleton. by eexists.
  - reflexivity.
  - split; [exact Hwait|].
    rewrite Hasync; [by split|reflexivity|simpl; lia].
Defined.

(** Three successive calls of [set_async]: the second dictionary never
    reaches the server. *)
Lemma set_async_single_process_every_other_witness :
  let evs := (λ p, Call (SetAsync (Some p)) no_env)
               <$> [[("w", VInt 1)]; [("w", VInt 2)]; [("w", VInt 3)]] in
  let w0 := init_world (init sort_id [("w", 0)] false None (Some ["w"]) 1 [])
              (local (ex_world false)) in
  returns_normally device_put_id evs w0 ∧
  req_rpc <$> server_log (run device_put_id evs w0) =
  [set_parameters [("w", VInt 1)]; set_parameters [("w", VInt 3)]].
Proof.
  apply (set_async_single_process_every_other device_put_id sort_id
           [("w", 0)] None (Some ["w"]) 1 [] (local (ex_world false)) no_env
           [[("w", VInt 1)]; [("w", VInt 2)]; [("w", VInt 3)]]).
  lia.
Defined.

(** Three deltas for one key, with a completion in between. *)
Lemma add_async_same_keys_conservation_witness :
  let evs := [Call (AddAsync [("a", 1%Z)]) no_env;
              Call (AddAsync [("a", 2%Z)]) no_env;
              Complete 0 [];
              Call (AddAsync [("a", 3%Z)]) no_env] in
  let w0 := init_world (init sort_id [] true None None 1 []) (Replica [] []) in
  returns_normally device_put_id evs w0 ∧
  delivered "a" (run device_put_id evs w0) = 6%Z.
Proof.
  apply (add_async_same_keys_conservation device_put_id sort_id ["a"]
           [Call (AddAsync [("a", 1%Z)]) no_env;
            Call (AddAsync [("a", 2%Z)]) no_env;
            Complete 0 [];
            Call (AddAsync [("a", 3%Z)]) no_env]
           "a" [] true None None 1 [] (Replica [] [])).
  repeat (apply Forall_cons; split); try apply Forall_nil; try exact I;
    (split; [apply NoDup_singleton|done]).
Defined.

(** An array merged with a device configured for its name. *)
Lemma copy_array_on_device_witness :
  let res := copy_key device_put_id ex_devices [("w", VArray ex_same)] "w"
               ex_replica in
  res.1 = Ok tt ∧
  heap res.2 !! 0 = Some (VArray (int64s [2] [5; 6]%Z)) ∧
  dict_get "w" (_parameters res.2) = Some 2 ∧
  heap res.2 !! 2 = Some (VArray ex_same).
Proof.
  destruct (copy_array_on_device device_put_id ex_devices
              [("w", VArray ex_same)] "w" ex_replica ex_same
              (DeviceOne "gpu:0") (VArray ex_same))
    as (Hok & Hold & _ & _); [done|reflexivity|reflexivity|reflexivity|].
  split; [exact Hok|]. split; [by apply Hold|]. by split.
Defined.

(** An array for a name that the replica does not track. *)
Lemma copy_untracked_name_witness :
  copy_key device_put_id [] [("z", VArray ex_same)] "z" ex_replica =
  (Raise (KeyError "z"), ex_replica).
Proof.
  by apply (copy_untracked_name device_put_id [] [("z", VArray ex_same)] "z"
              (VArray ex_same) ex_replica).
Defined.

(** A flat dictionary that overwrites one local entry and creates one. *)
Lemma copy_dict_one_level_witness :
  ∃ ld',
    copy_key device_put_id ex_devices
      [("opt", VDict [("step", VInt 2); ("lr", VInt 3)])] "opt" ex_dict_replica =
      (Ok tt, Replica (_parameters ex_dict_replica)
                (<[0:=VDict ld']> (heap ex_dict_replica))) ∧
    ∀ k, dict_get k ld' =
         match dict_get k [("step", VInt 2); ("lr", VInt 3)] with
         | Some v => Some v
         | None => dict_get k [("step", VInt 1)]
         end.
Proof.
  apply (copy_dict_one_level device_put_id ex_devices
           [("opt", VDict [("step", VInt 2); ("lr", VInt 3)])] "opt"
           ex_dict_replica 0 [("step", VInt 2); ("lr", VInt 3)]
           [("step", VInt 1)]); try reflexivity.
  by repeat constructor.
Defined.

(** A nested dictionary: the server's ["b"] is not known locally. *)
Lemma copy_nested_dict_local_keys_witness :
  ∃ ld1',
    copy_type1 [] "net" (VDict [("mlp", VDict [("w", VInt 5); ("b", VInt 6)])])
      "mlp" ex_dict_replica =
      (Ok tt, Replica (_parameters ex_dict_replica)
                (<[1:=VDict (dict_set "mlp" (VDict ld1')
                               [("mlp", VDict [("w", VInt 1)])])]>
                   (heap ex_dict_replica))) ∧
    dict_keys ld1' = ["w"] ∧
    ∀ k, k ∈ ["w"] → dict_get k ld1' = dict_get k [("w", VInt 5); ("b", VInt 6)].
Proof.
  destruct (copy_nested_dict_local_keys "net"
              [("mlp", VDict [("w", VInt 5); ("b", VInt 6)])] "mlp"
              [("w", VInt 5); ("b", VInt 6)] ex_dict_replica 1
              [("mlp", VDict [("w", VInt 1)])] [("w", VInt 1)]
              eq_refl eq_refl eq_refl eq_refl) as [H _].
  apply H. intros k ->%list_elem_of_singleton. by eexists.
Defined.

(** The same nested dictionary with devices configured. *)
Lemma copy_nested_dict_devices_witness :
  copy_type1 ex_devices "net"
    (VDict [("mlp", VDict [("w", VInt 5); ("b", VInt 6)])]) "mlp"
    ex_dict_replica =
  (Raise (NotImplementedError devices_msg), ex_dict_replica).
Proof.
  by apply (copy_nested_dict_devices ex_devices "net"
              [("mlp", VDict [("w", VInt 5); ("b", VInt 6)])] "mlp"
              [("w", VInt 5); ("b", VInt 6)] ex_dict_replica 1
              [("mlp", VDict [("w", VInt 1)])] [("w", VInt 1)]).
Defined.

(** A zero-dimensional server value for a local vector. *)
Lemma copy_array_failure_zeroes_witness :
  copy_key device_put_id [] [("w", VArray (int64s [] [7%Z]))] "w" ex_replica =
  (Raise IndexError,
   Replica (_parameters ex_replica)
     (<[0:=VArray (int64s [2] [0; 0]%Z)]> (heap ex_replica))).
Proof.
  destruct (copy_array_failure_zeroes device_put_id
              [("w", VArray (int64s [] [7%Z]))] "w" ex_replica 0
              (int64s [2] [5; 6]%Z) (int64s [] [7%Z]))
    as (z & Hz & _ & H & _);
    [reflexivity|reflexivity|reflexivity|by split; [|repeat constructor]|].
  injection Hz as <-. by apply H.
Defined.

(** A local tuple. *)
Lemma copy_local_tuple_type_error_witness :
  copy_key device_put_id [] [("pair", VTuple [VInt 2])] "pair" ex_dict_replica =
  (Raise TypeError, ex_dict_replica).
Proof.
  by apply (copy_local_tuple_type_error device_put_id
              [("pair", VTuple [VInt 2])] "pair" ex_dict_replica 2
              [VInt 2] [VInt 1]).
Defined.

(** A server vector of three elements for a local vector of two. *)
Lemma copy_array_scalar_fill_witness :
  copy_key device_put_id [] [("w", VArray (int64s [3] [7; 8; 9]%Z))] "w"
    ex_replica =
  (Ok tt, Replica (_parameters ex_replica)
            (<[0:=VArray (int64s [2] [7; 7]%Z)]> (heap ex_replica))).
Proof.
  destruct (copy_array_scalar_fill device_put_id
              [("w", VArray (int64s [3] [7; 8; 9]%Z))] "w" ex_replica 0
              (int64s [2] [5; 6]%Z) 2 (SInt 7) [SInt 8; SInt 9])
    as (x & Hrun & Hd & Hs & _ & _ & Hexact);
    [reflexivity|reflexivity|reflexivity|by split; [|repeat constructor]
    |by repeat constructor|reflexivity|done|].
  rewrite Hrun. destruct x as [t s d]. simpl in *. subst.
  by rewrite Hexact.
Defined.

(** A call of [set_async] that sends the replica's value. *)
Lemma push_calls_keep_replica_witness :
  local (run_call device_put_id (SetAsync None) ex_env (ex_world true)).2 =
  local (ex_world true).
Proof.
  by apply (push_calls_keep_replica device_put_id (SetAsync None) ex_env
              (ex_world true)).
Defined.

(** A blocking get. *)
Lemma blocking_calls_keep_client_witness :
  let w' := (run_call device_put_id GetAndWait ex_env (ex_world true)).2 in
  client w' = client (ex_world true) ∧
  ∃ news, server_log w' = server_log (ex_world true) ++ news ∧
          length news ≤ 1 ∧
          Forall (λ r, pending r = false ∧ req_kind r = KWait ∧
                       req_callback r = false) news.
Proof.
  by apply (blocking_calls_keep_client device_put_id GetAndWait ex_env
              (ex_world true)).
Defined.

(** A completed response that holds an integer. *)
Lemma get_async_failed_merge_keeps_handle_witness :
  let out := get_async device_put_id no_env ex_failed_world in
  out.1 = Raise (NotImplementedError (type_msg (VInt 5) "blob")) ∧
  _get_future (client out.2) = Some 0 ∧
  server_log out.2 = server_log ex_failed_world ∧
  local out.2 = local ex_failed_world.
Proof.
  by apply (get_async_failed_merge_keeps_handle device_put_id no_env
              ex_failed_world 0
              (Request (get_parameters (NamesList ["w"])) KGet 1
                 (Some [("blob", VInt 5)]) false)
              [("blob", VInt 5)]).
Defined.

(** A store without a sink, through the start of an episode and a step. *)
Lemma no_sink_no_sampling_witness :
  let s' := Observing.run_hooks device_put_id sort_id ex_sample
              [Observing.ObserveFirst 3 0 []; Observing.Observe [] 1 []]
              ex_no_sink_store in
  Observing.adder s' = None ∧
  Observing.agent_net_keys s' = [("agent_0", "network_0")] ∧
  Observing.network_int_keys_extras s' = VNone.
Proof.
  by apply (no_sink_no_sampling device_put_id sort_id ex_sample
              [Observing.ObserveFirst 3 0 []; Observing.Observe [] 1 []]
              ex_no_sink_store).
Defined.

(** One step of two agents. *)
Lemma observe_records_actions_witness :
  ∃ meta,
    Observing.adder
      (Observing.trigger device_put_id sort_id ex_sample
         (Observing.Observe [("agent_0", 7); ("agent_1", 8)] 1 [("k", VInt 2)])
         ex_store).2 =
      Some ([] ++
            [Observing.add
               ((λ kv, (kv.1, [("actions_info", kv.2)]))
                  <$> [("agent_0", 7); ("agent_1", 8)]) 1 meta]) ∧
    dict_get "network_int_keys" meta = Some VNone ∧
    ∀ k, k ≠ "network_int_keys" → dict_get k meta = dict_get k [("k", VInt 2)].
Proof.
  apply (observe_records_actions device_put_id sort_id ex_sample ex_store
           [("agent_0", 7); ("agent_1", 8)] 1 [("k", VInt 2)] []).
  - reflexivity.
  - apply NoDup_cons. split; [by intros [=]%list_elem_of_singleton|].
    apply NoDup_singleton.
Defined.
